(** * Verification model of truckingCompanyCrawler

    Shallow embedding of the crawler (src/utils.py, src/config.py,
    src/page_crawler.py, src/run_full_crawl.py) and of the classifier
    (src/classifier.py).  Python strings are modelled as Rocq [string]s of
    ASCII characters; Python [str.lower], [str.strip] and the regular
    expression classes are modelled on their ASCII part. *)

From Stdlib Require Import String Ascii List Bool Arith ZArith Lia Permutation.
Import ListNotations.
Open Scope list_scope.
Open Scope string_scope.

(* ------------------------------------------------------------------ *)
(** ** Python string primitives *)

Module PyStr.

Definition is_upper (c : ascii) : bool :=
  let n := nat_of_ascii c in Nat.leb 65 n && Nat.leb n 90.
Definition is_lower (c : ascii) : bool :=
  let n := nat_of_ascii c in Nat.leb 97 n && Nat.leb n 122.
Definition is_alpha (c : ascii) : bool := is_upper c || is_lower c.
Definition is_digit (c : ascii) : bool :=
  let n := nat_of_ascii c in Nat.leb 48 n && Nat.leb n 57.

(** [str.lower] on one ASCII character. *)
Definition lower_char (c : ascii) : ascii :=
  if is_upper c then ascii_of_nat (nat_of_ascii c + 32) else c.

(** [str.lower] *)
Fixpoint lower (s : string) : string :=
  match s with
  | EmptyString => EmptyString
  | String c s' => String (lower_char c) (lower s')
  end.

(** Characters removed by [str.strip()] (ASCII part of [str.isspace]). *)
Definition is_space (c : ascii) : bool :=
  let n := nat_of_ascii c in
  (Nat.leb 9 n && Nat.leb n 13) || (Nat.leb 28 n && Nat.leb n 32).

Fixpoint lstrip_by (p : ascii -> bool) (s : string) : string :=
  match s with
  | EmptyString => EmptyString
  | String c s' => if p c then lstrip_by p s' else s
  end.

Fixpoint rev_str (s : string) : string :=
  match s with
  | EmptyString => EmptyString
  | String c s' => rev_str s' ++ String c EmptyString
  end.

Definition rstrip_by (p : ascii -> bool) (s : string) : string :=
  rev_str (lstrip_by p (rev_str s)).

(** [str.strip()] *)
Definition strip (s : string) : string := rstrip_by is_space (lstrip_by is_space s).

(** [s.rstrip(c)] for a single character [c]. *)
Definition rstrip_char (c : ascii) (s : string) : string :=
  rstrip_by (fun d => Ascii.eqb d c) s.

(** [s.startswith(p)] *)
Fixpoint startswith (s p : string) : bool :=
  match p, s with
  | EmptyString, _ => true
  | String c p', String d s' => Ascii.eqb c d && startswith s' p'
  | String _ _, EmptyString => false
  end.

(** [s.endswith(p)] *)
Definition endswith (s p : string) : bool :=
  startswith (rev_str s) (rev_str p).

(** [p in s] *)
Fixpoint contains (s p : string) : bool :=
  startswith s p ||
  match s with
  | EmptyString => false
  | String _ s' => contains s' p
  end.

(** [s.find(c)] for a one-character needle: [None] stands for [-1]. *)
Fixpoint find_char (c : ascii) (s : string) : option nat :=
  match s with
  | EmptyString => None
  | String d s' =>
      if Ascii.eqb c d then Some 0
      else option_map S (find_char c s')
  end.

(** [s[:i]] and [s[i:]] *)
Definition take (i : nat) (s : string) : string := substring 0 i s.
Fixpoint drop (i : nat) (s : string) : string :=
  match i, s with
  | 0, _ => s
  | S _, EmptyString => EmptyString
  | S i', String _ s' => drop i' s'
  end.

(** [s.split(c, 1)] when [c in s]; [None] when [c] does not occur. *)
Fixpoint split_once (c : ascii) (s : string) : option (string * string) :=
  match s with
  | EmptyString => None
  | String d s' =>
      if Ascii.eqb c d then Some (EmptyString, s')
      else match split_once c s' with
           | Some (a, b) => Some (String d a, b)
           | None => None
           end
  end.

(** [s.split(c)] *)
Fixpoint split_all (c : ascii) (s : string) : list string :=
  match s with
  | EmptyString => [EmptyString]
  | String d s' =>
      if Ascii.eqb c d then EmptyString :: split_all c s'
      else match split_all c s' with
           | a :: rest => String d a :: rest
           | [] => [String d EmptyString]
           end
  end.

(** [sep.join(xs)] *)
Fixpoint join (sep : string) (xs : list string) : string :=
  match xs with
  | [] => EmptyString
  | [x] => x
  | x :: xs' => x ++ sep ++ join sep xs'
  end.

(** [s.replace(old, new)] for a non-empty [old]: left to right, without
    overlaps.  The fuel is the length of [s]; every step consumes at least
    one character. *)
Fixpoint replace_fuel (fuel : nat) (old new s : string) : string :=
  match fuel with
  | 0 => s
  | S f =>
      match s with
      | EmptyString => EmptyString
      | String c s' =>
          if startswith s old
          then new ++ replace_fuel f old new (drop (String.length old) s)
          else String c (replace_fuel f old new s')
      end
  end.
Definition replace (old new s : string) : string :=
  replace_fuel (String.length s) old new s.

(** [s[:-1]] *)
Definition drop_last (s : string) : string := take (String.length s - 1) s.

Definition str_eqb (a b : string) : bool := String.eqb a b.

Definition is_empty (s : string) : bool :=
  match s with EmptyString => true | _ => false end.

(** [x in xs] for a list of strings. *)
Definition mem (x : string) (xs : list string) : bool :=
  existsb (String.eqb x) xs.

(** [s * n] *)
Fixpoint repeat_str (n : nat) (s : string) : string :=
  match n with 0 => EmptyString | S n' => s ++ repeat_str n' s end.

End PyStr.
Import PyStr.

(* ------------------------------------------------------------------ *)
(** ** The part of CPython 3.12's [urllib.parse] used by [utils.py]

    [urlsplit], [urlparse], [urlunsplit], [urlunparse] and [urljoin], as in
    the CPython sources.  The validation of bracketed IPv6 hosts and of
    NFKC-normalised host names, which can raise [ValueError], is not part
    of these functions: [UrlErrors] below says when they raise. *)

Module UrlLib.

Definition uses_relative : list string :=
  [""; "ftp"; "http"; "gopher"; "nntp"; "imap"; "wais"; "file"; "https";
   "shttp"; "mms"; "prospero"; "rtsp"; "rtsps"; "rtspu"; "sftp"; "svn";
   "svn+ssh"; "ws"; "wss"].

Definition uses_netloc : list string :=
  [""; "ftp"; "http"; "gopher"; "nntp"; "telnet"; "imap"; "wais"; "file";
   "mms"; "https"; "shttp"; "snews"; "prospero"; "rtsp"; "rtsps"; "rtspu";
   "rsync"; "svn"; "svn+ssh"; "sftp"; "nfs"; "git"; "git+ssh"; "ws"; "wss";
   "itms-services"].

Definition uses_params : list string :=
  [""; "ftp"; "hdl"; "prospero"; "http"; "imap"; "https"; "shttp"; "rtsp";
   "rtsps"; "rtspu"; "sip"; "sips"; "mms"; "sftp"; "tel"].

Definition scheme_char (c : ascii) : bool :=
  is_alpha c || is_digit c || Ascii.eqb c "+" || Ascii.eqb c "-" || Ascii.eqb c ".".

(** [_WHATWG_C0_CONTROL_OR_SPACE]: the characters [\x00] to [\x20]. *)
Definition c0_or_space (c : ascii) : bool := Nat.leb (nat_of_ascii c) 32.

(** [_UNSAFE_URL_BYTES_TO_REMOVE = ['\t', '\r', '\n']] *)
Definition unsafe_byte (c : ascii) : bool :=
  let n := nat_of_ascii c in Nat.eqb n 9 || Nat.eqb n 13 || Nat.eqb n 10.

Fixpoint remove_chars (p : ascii -> bool) (s : string) : string :=
  match s with
  | EmptyString => EmptyString
  | String c s' => if p c then remove_chars p s' else String c (remove_chars p s')
  end.

Definition netloc_delim (c : ascii) : bool :=
  Ascii.eqb c "/" || Ascii.eqb c "?" || Ascii.eqb c "#".

(** [_splitnetloc(url, 2)], applied to [url[2:]]: the host part runs up to
    the first of ['/', '?', '#']. *)
Fixpoint splitnetloc (s : string) : string * string :=
  match s with
  | EmptyString => (EmptyString, EmptyString)
  | String c s' =>
      if netloc_delim c then (EmptyString, s)
      else let (a, b) := splitnetloc s' in (String c a, b)
  end.

Record SplitResult := mkSplit {
  sr_scheme : string; sr_netloc : string; sr_path : string;
  sr_query : string; sr_fragment : string }.

Record ParseResult := mkParse {
  pr_scheme : string; pr_netloc : string; pr_path : string;
  pr_params : string; pr_query : string; pr_fragment : string }.

(** The scheme test of [urlsplit]: [i = url.find(':')], [i > 0],
    [url[0]] an ASCII letter and every character of [url[:i]] a scheme
    character. *)
Definition split_scheme (url : string) : option (string * string) :=
  match find_char ":" url with
  | Some i =>
      match url with
      | String c0 _ =>
          if Nat.ltb 0 i && is_alpha c0 && forallb scheme_char (list_ascii_of_string (take i url))
          then Some (lower (take i url), drop (S i) url)
          else None
      | EmptyString => None
      end
  | None => None
  end.

(** [scheme.strip(_WHATWG_C0_CONTROL_OR_SPACE)] *)
Definition strip_c0 (s : string) : string :=
  rstrip_by c0_or_space (lstrip_by c0_or_space s).

(** [urlsplit(url, scheme)] (CPython 3.12), when it does not raise.  The
    [ValueError] raised for a netloc whose square brackets do not enclose a
    valid IPv6 or IPvFuture host is given by [UrlErrors.urlsplit_raises]. *)
Definition urlsplit (url scheme : string) : SplitResult :=
  let url := remove_chars unsafe_byte (lstrip_by c0_or_space url) in
  let scheme := remove_chars unsafe_byte (strip_c0 scheme) in
  let '(scheme, url) :=
    match split_scheme url with Some p => p | None => (scheme, url) end in
  let '(netloc, url) :=
    if startswith url "//" then splitnetloc (drop 2 url) else (EmptyString, url) in
  let '(url, fragment) :=
    match split_once "#" url with Some p => p | None => (url, EmptyString) end in
  let '(url, query) :=
    match split_once "?" url with Some p => p | None => (url, EmptyString) end in
  mkSplit scheme netloc url query fragment.

(** [s.rfind(c)] *)
Definition rfind_char (c : ascii) (s : string) : option nat :=
  match find_char c (rev_str s) with
  | Some j => Some (String.length s - 1 - j)
  | None => None
  end.

(** [s.find(c, start)] *)
Definition find_char_from (c : ascii) (start : nat) (s : string) : option nat :=
  option_map (Nat.add start) (find_char c (drop start s)).

(** [_splitparams(url)], called when [';' in url]. *)
Definition splitparams (url : string) : string * string :=
  let i := match rfind_char "/" url with
           | Some k => find_char_from ";" k url
           | None => find_char ";" url
           end in
  match i with
  | Some i => (take i url, drop (S i) url)
  | None => (url, EmptyString)
  end.

Definition urlparse (url scheme : string) : ParseResult :=
  let sr := urlsplit url scheme in
  let '(path, params) :=
    if mem (sr_scheme sr) uses_params && contains (sr_path sr) ";"
    then splitparams (sr_path sr) else (sr_path sr, EmptyString) in
  mkParse (sr_scheme sr) (sr_netloc sr) path params (sr_query sr) (sr_fragment sr).

Definition urlunsplit (scheme netloc url query fragment : string) : string :=
  let url :=
    if negb (is_empty netloc) then
      let url := if negb (is_empty url) && negb (startswith url "/") then "/" ++ url else url in
      "//" ++ netloc ++ url
    else if startswith url "//" then "//" ++ url
    else if negb (is_empty scheme) && mem scheme uses_netloc
            && (is_empty url || startswith url "/") then "//" ++ url
    else url in
  let url := if negb (is_empty scheme) then scheme ++ ":" ++ url else url in
  let url := if negb (is_empty query) then url ++ "?" ++ query else url in
  if negb (is_empty fragment) then url ++ "#" ++ fragment else url.

Definition urlunparse (scheme netloc url params query fragment : string) : string :=
  let url := if negb (is_empty params) then url ++ ";" ++ params else url in
  urlunsplit scheme netloc url query fragment.

(** [segments[1:-1] = filter(None, segments[1:-1])] *)
Definition filter_middle (segs : list string) : list string :=
  match segs with
  | [] => []
  | [x] => [x]
  | x :: rest =>
      x :: (filter (fun s => negb (is_empty s)) (removelast rest) ++ [last rest EmptyString])%list
  end.

(** The [for seg in segments] loop of [urljoin]; [resolved] is kept in
    reverse order. *)
Fixpoint resolve_dots (segs : list string) (resolved : list string) : list string :=
  match segs with
  | [] => resolved
  | seg :: rest =>
      if String.eqb seg ".." then
        resolve_dots rest (match resolved with [] => [] | _ :: r => r end)
      else if String.eqb seg "." then resolve_dots rest resolved
      else resolve_dots rest (seg :: resolved)
  end.

Definition urljoin (base url : string) : string :=
  if is_empty base then url else
  if is_empty url then base else
  let b := urlparse base "" in
  let u := urlparse url (pr_scheme b) in
  let scheme := pr_scheme u in
  if negb (String.eqb scheme (pr_scheme b)) || negb (mem scheme uses_relative) then url
  else
  if mem scheme uses_netloc && negb (is_empty (pr_netloc u)) then
    urlunparse scheme (pr_netloc u) (pr_path u) (pr_params u) (pr_query u) (pr_fragment u)
  else
  let netloc := if mem scheme uses_netloc then pr_netloc b else pr_netloc u in
  if is_empty (pr_path u) && is_empty (pr_params u) then
    let query := if is_empty (pr_query u) then pr_query b else pr_query u in
    urlunparse scheme netloc (pr_path b) (pr_params b) query (pr_fragment u)
  else
  let base_parts := split_all "/" (pr_path b) in
  let base_parts :=
    if negb (is_empty (last base_parts EmptyString)) then removelast base_parts else base_parts in
  let segments :=
    if startswith (pr_path u) "/" then split_all "/" (pr_path u)
    else filter_middle (base_parts ++ split_all "/" (pr_path u))%list in
  let resolved := rev (resolve_dots segments []) in
  let lastseg := last segments EmptyString in
  let resolved :=
    if String.eqb lastseg "." || String.eqb lastseg ".." then (resolved ++ [EmptyString])%list else resolved in
  let path := join "/" resolved in
  let path := if is_empty path then "/" else path in
  urlunparse scheme netloc path (pr_params u) (pr_query u) (pr_fragment u).

End UrlLib.

(* ------------------------------------------------------------------ *)
(** ** src/config.py and src/utils.py *)

Module Utils.
Import UrlLib.

(** [config.EXCLUDED_URL_PATTERNS] *)
Definition EXCLUDED_URL_PATTERNS : list string :=
  ["/blog"; "/news"; "/press"; "/career"; "/job"; "/apply";
   "/login"; "/signin"; "/register"; "/cart"; "/checkout";
   "/privacy"; "/terms"; "/legal"; "/cookie";
   ".pdf"; ".jpg"; ".jpeg"; ".png"; ".gif"; ".svg"; ".webp";
   ".mp4"; ".mp3"; ".avi"; ".mov";
   ".zip"; ".rar"; ".exe"; ".dmg";
   "facebook.com"; "twitter.com"; "linkedin.com"; "instagram.com";
   "youtube.com"; "mailto:"; "tel:"; "javascript:"].

(** [utils.normalize_url]; [None] is Python's [None]. *)
Definition normalize_url (url base_url : string) : option string :=
  if is_empty url || is_empty (strip url) then None else
  let url := strip url in
  let url_lower := lower url in
  if existsb (fun pattern => contains url_lower pattern) EXCLUDED_URL_PATTERNS then None else
  let url :=
    if startswith url "//" then "https:" ++ url
    else if startswith url "/" then urljoin base_url url
    else if negb (startswith url "http") then urljoin base_url url
    else url in
  let parsed := urlparse url "" in
  if negb (mem (pr_scheme parsed) ["http"; "https"]) then None else
  let normalized := pr_scheme parsed ++ "://" ++ lower (pr_netloc parsed) ++ pr_path parsed in
  let normalized :=
    if negb (is_empty (pr_query parsed)) then normalized ++ "?" ++ pr_query parsed
    else normalized in
  let normalized :=
    if endswith normalized "/" && negb (String.eqb (pr_path parsed) "/")
    then drop_last normalized else normalized in
  Some normalized.

(** [utils.is_same_domain] *)
Definition is_same_domain (url base_domain : string) : bool :=
  let url_domain := lower (pr_netloc (urlparse url "")) in
  let base_domain := lower base_domain in
  let url_domain := replace "www." "" url_domain in
  let base_domain := replace "www." "" base_domain in
  String.eqb url_domain base_domain || endswith url_domain ("." ++ base_domain).

(** [utils.extract_domain] *)
Definition extract_domain (url : string) : string :=
  replace "www." "" (lower (pr_netloc (urlparse url ""))).

End Utils.
Import Utils.

(* ------------------------------------------------------------------ *)
(** ** src/page_crawler.py: the crawl frontier of [PageCrawler] *)

Module Crawler.
Import UrlLib.

(** [config.MAX_PAGES_PER_SITE] *)
Definition MAX_PAGES_PER_SITE : nat := 200.

(** A Python [set] of strings, kept as a duplicate-free list in insertion
    order; [set_add] is [s.add(x)]. *)
Definition set_add (x : string) (s : list string) : list string :=
  if mem x s then s else (s ++ [x])%list.

(** Iterating over a Python set yields each element once. *)
Fixpoint set_of_list (xs : list string) : list string :=
  match xs with
  | [] => []
  | x :: xs' => let s := set_of_list xs' in if mem x s then s else x :: s
  end.

(** [PageCrawler._is_pdf_or_map] *)
Definition is_pdf_or_map (url : string) : bool :=
  let url_lower := lower url in
  if contains url_lower ".pdf" then
    existsb (contains url_lower)
      ["map"; "service"; "terminal"; "location"; "network"; "coverage"; "facility"; "directory"]
  else false.

(** [PageCrawler._is_tool_subdomain] *)
Definition is_tool_subdomain (url : string) : bool :=
  existsb (contains (lower url))
    ["ext-web."; "tools."; "apps."; "app."; "my."; "portal."; "locator."; "finder."; "search."].

(** [PageCrawler._is_same_site] ([self.base_url] is passed explicitly). *)
Definition is_same_site (self_base_url url : string) : bool :=
  let url_domain := lower (pr_netloc (urlparse url "")) in
  let base_domain := replace "www." "" (lower (pr_netloc (urlparse self_base_url ""))) in
  contains url_domain base_domain || endswith url_domain ("." ++ base_domain).

(** [PageCrawler._is_index_page] *)
Definition is_index_page (url : string) : bool :=
  let url_lower := rstrip_char "/" (lower url) in
  existsb (endswith url_lower)
    ["/locations"; "/locations.html"; "/our-locations";
     "/terminals"; "/terminal-locations"; "/all-locations";
     "/service-centers"; "/service-center"; "/service-center-locator";
     "/service-locations"; "/facilities"; "/branches";
     "/find-us"; "/find-location"; "/branch-locator";
     "/load-board/map"; "/loadboard/map"; "/map"; "/map.html";
     "/locator"; "/store-locator"; "/dealer-locator"]
  || (contains url_lower "servicemap" && contains url_lower ".pdf").

(** The render collaborator (Playwright): for a requested URL, either no
    usable response (no response object, or an exception such as a
    navigation timeout), or the HTTP status, the final URL after redirects
    and the [href] attributes of the rendered page's anchors. *)
Record response := mkResponse {
  resp_status : Z; resp_final_url : string; resp_hrefs : list string }.

Definition Render := string -> option response.

(** [PageCrawler._extract_links_js(page, final_url)] *)
Definition extract_links_js (domain final_url : string) (hrefs : list string) : list string :=
  set_of_list
    (flat_map (fun href =>
       if is_empty href then []
       else match normalize_url href final_url with
            | Some n => if is_same_domain n domain then [n] else []
            | None => []
            end) hrefs).

Record page_data := mkPageData {
  pd_url : string; pd_final_url : string; pd_status : Z; pd_links : list string }.

(** The state of one [PageCrawler].  [fetch_log] (every URL handed to
    [page.goto]) and [enqueue_log] (every URL placed in [urls_to_visit]) are
    ghost fields recording the crawler's effects. *)
Record crawler := mkCrawler {
  base_url : string;
  domain : string;
  urls_to_visit : list string;
  visited_urls : list string;
  failed_urls : list string;
  pages_data : list page_data;
  fetch_log : list string;
  enqueue_log : list string }.

Definition set_queue (st : crawler) (q : list string) (enq : list string) : crawler :=
  mkCrawler (base_url st) (domain st) q (visited_urls st) (failed_urls st)
            (pages_data st) (fetch_log st) enq.

(** [PageCrawler.__init__] *)
Definition new_crawler (base : string) : crawler :=
  mkCrawler (rstrip_char "/" base) (extract_domain base) [] [] [] [] [] [].

(** The seed set-up at the top of [PageCrawler.crawl]. *)
Definition seed_queue (self_base : string) (initial_urls : list string) : list string :=
  let seeds := filter (fun url => negb (String.eqb url self_base)
                                   && negb (String.eqb url (self_base ++ "/")))
                      (set_of_list initial_urls) in
  let index_urls := filter (fun url => is_index_page url || is_pdf_or_map url) seeds in
  let other_urls := filter (fun url => negb (is_index_page url || is_pdf_or_map url)) seeds in
  ([self_base] ++ index_urls ++ firstn 50 other_urls)%list.

Definition start_crawl (base : string) (initial_urls : list string) : crawler :=
  let st := new_crawler base in
  let q := seed_queue (base_url st) initial_urls in
  set_queue st q q.

(** [list.insert(1, x)] *)
Definition insert_at1 (x : string) (q : list string) : list string :=
  match q with
  | [] => [x]
  | y :: q' => y :: x :: q'
  end.

(** [PageCrawler._crawl_page]: marks [url] visited, fetches it, marks it
    failed on a missing response, an exception or a status of 400 or more. *)
Definition crawl_page (render : Render) (st : crawler) (url : string)
  : crawler * option page_data :=
  let visited := set_add url (visited_urls st) in
  let fetched := (fetch_log st ++ [url])%list in
  let fail := mkCrawler (base_url st) (domain st) (urls_to_visit st) visited
                        (set_add url (failed_urls st)) (pages_data st) fetched (enqueue_log st) in
  match render url with
  | None => (fail, None)
  | Some r =>
      if Z.leb 400 (resp_status r) then (fail, None)
      else
        let links := extract_links_js (domain st) (resp_final_url r) (resp_hrefs r) in
        (mkCrawler (base_url st) (domain st) (urls_to_visit st) visited (failed_urls st)
                   (pages_data st) fetched (enqueue_log st),
         Some (mkPageData url (resp_final_url r) (resp_status r) links))
  end.

(** The [for new_url in new_urls] loop of [PageCrawler.crawl]. *)
Fixpoint enqueue_links (st : crawler) (new_urls : list string) : crawler :=
  match new_urls with
  | [] => st
  | new_url :: rest =>
      let q := urls_to_visit st in
      let enq := (enqueue_log st ++ [new_url])%list in
      let st' :=
        if negb (mem new_url (visited_urls st)) && negb (mem new_url (failed_urls st))
           && negb (mem new_url q) then
          if is_index_page new_url || is_pdf_or_map new_url then set_queue st (new_url :: q) enq
          else if is_tool_subdomain new_url then set_queue st (insert_at1 new_url q) enq
          else if is_same_site (base_url st) new_url then set_queue st (q ++ [new_url])%list enq
          else st
        else st in
      enqueue_links st' rest
  end.

Definition add_page (st : crawler) (pd : page_data) : crawler :=
  mkCrawler (base_url st) (domain st) (urls_to_visit st) (visited_urls st) (failed_urls st)
            (pages_data st ++ [pd])%list (fetch_log st) (enqueue_log st).

(** One iteration of [while self.urls_to_visit and len(self.visited_urls) <
    MAX_PAGES_PER_SITE]; [None] when the loop condition is false. *)
Definition crawl_step (render : Render) (st : crawler) : option crawler :=
  match urls_to_visit st with
  | [] => None
  | url :: rest =>
      if Nat.ltb (length (visited_urls st)) MAX_PAGES_PER_SITE then
        let st := set_queue st rest (enqueue_log st) in
        if mem url (visited_urls st) || mem url (failed_urls st) then Some st
        else
          match crawl_page render st url with
          | (st, None) => Some st
          | (st, Some pd) => Some (enqueue_links (add_page st pd) (pd_links pd))
          end
      else None
  end.

(** The main loop, run for at most [fuel] iterations. *)
Fixpoint crawl_loop (render : Render) (fuel : nat) (st : crawler) : crawler :=
  match fuel with
  | 0 => st
  | S f => match crawl_step render st with
           | None => st
           | Some st' => crawl_loop render f st'
           end
  end.

(** [PageCrawler(base, name).crawl(browser, initial_urls)]. *)
Definition crawl (render : Render) (base : string) (initial_urls : list string) (fuel : nat)
  : crawler :=
  crawl_loop render fuel (start_crawl base initial_urls).

(** The frontier invariant of [PageCrawler.crawl]. *)
Record Inv (st : crawler) : Prop := {
  inv_queue_nodup : NoDup (urls_to_visit st);
  inv_visited_nodup : NoDup (visited_urls st);
  inv_fetch : fetch_log st = visited_urls st;
  inv_queue_fresh : forall u, In u (urls_to_visit st) -> ~ In u (visited_urls st);
  inv_failed_visited : forall u, In u (failed_urls st) -> In u (visited_urls st);
  inv_enq_nodup : NoDup (enqueue_log st);
  inv_enq : forall u, In u (enqueue_log st) <-> In u (urls_to_visit st) \/ In u (visited_urls st)
}.

End Crawler.

(* ------------------------------------------------------------------ *)
(** ** Absolute URLs built from components *)

(** Shapes of absolute URLs used to state what [normalize_url] computes;
    not part of the crawler. *)
Module UrlShapes.
Import UrlLib.

(** [all(pred(c) for c in s)] *)
Fixpoint all_chars (pred : ascii -> bool) (s : string) : bool :=
  match s with
  | EmptyString => true
  | String c s' => pred c && all_chars pred s'
  end.

(** Printable ASCII, space excluded. *)
Definition url_char (c : ascii) : bool :=
  Nat.leb 33 (nat_of_ascii c) && Nat.leb (nat_of_ascii c) 126.

Definition host_char (c : ascii) : bool :=
  url_char c && negb (netloc_delim c) && negb (Ascii.eqb c "[") && negb (Ascii.eqb c "]").

Definition path_char (c : ascii) : bool :=
  url_char c && negb (Ascii.eqb c "?") && negb (Ascii.eqb c "#") && negb (Ascii.eqb c ";").

Definition query_char (c : ascii) : bool := url_char c && negb (Ascii.eqb c "#").

Definition query_part (query : string) : string :=
  if is_empty query then EmptyString else "?" ++ query.

Definition fragment_part (fragment : option string) : string :=
  match fragment with Some f => "#" ++ f | None => EmptyString end.

Definition fragment_text (fragment : option string) : string :=
  match fragment with Some f => f | None => EmptyString end.

(** [scheme://host path ?query #fragment] *)
Definition assemble_url (scheme host path query : string) (fragment : option string) : string :=
  scheme ++ "://" ++ host ++ path ++ query_part query ++ fragment_part fragment.









End UrlShapes.

(* ------------------------------------------------------------------ *)
(** ** src/run_full_crawl.py: batches and checkpoints *)

Module FullCrawl.

(** The checkpoint file's JSON object (its timestamp left out); [R] is the
    type of one carrier's result dict. *)
Record checkpoint (R : Type) := mkCheckpoint {
  completed_count : nat;
  ck_start_idx : Z;
  last_idx : Z;
  ck_results : list R }.
Arguments mkCheckpoint {R}.
Arguments completed_count {R}.
Arguments ck_start_idx {R}.
Arguments last_idx {R}.
Arguments ck_results {R}.

(** [save_checkpoint(results, start_idx)]: the new content of the file. *)
Definition save_checkpoint {R} (results : list R) (start_idx : Z) : checkpoint R :=
  mkCheckpoint (length results) start_idx
               (start_idx + Z.of_nat (length results) - 1)%Z results.

(** [load_checkpoint()]; [None] is a missing file. *)
Definition load_checkpoint {R} (file : option (checkpoint R)) : Z * list R :=
  match file with
  | Some data => ((last_idx data + 1)%Z, ck_results data)
  | None => (0%Z, [])
  end.

(** [xs[i:]] for an integer [i]. *)
Definition slice_from {A} (i : Z) (xs : list A) : list A :=
  if Z.ltb i 0 then skipn (length xs - Z.to_nat (- i)%Z) xs else skipn (Z.to_nat i) xs.

Fixpoint chunks_fuel {A} (fuel size : nat) (xs : list A) : list (list A) :=
  match fuel with
  | 0 => []
  | S f => match xs with
           | [] => []
           | _ => firstn size xs :: chunks_fuel f size (skipn size xs)
           end
  end.

(** [[xs[b:b + size] for b in range(0, len(xs), size)]] for [size > 0]. *)
Definition batches {A} (size : nat) (xs : list A) : list (list A) :=
  chunks_fuel (length xs) size xs.

(** The [for batch_start ...] loop: [crawl_batch] gives the results of one
    batch in the order [asyncio.as_completed] yields them; [file] is the
    checkpoint file, rewritten after every batch. *)
Fixpoint run_batches {C R} (crawl_batch : list C -> list R) (start_idx : Z)
    (todo : list (list C)) (results : list R) (file : option (checkpoint R))
    : option (checkpoint R) * list R :=
  match todo with
  | [] => (file, results)
  | batch :: rest =>
      let results := (results ++ crawl_batch batch)%list in
      run_batches crawl_batch start_idx rest results (Some (save_checkpoint results start_idx))
  end.

(** [run_full_crawl(workers, start_idx, resume)] up to the checkpoint file
    and the results list, for a run that completes [completed_batches]
    batches before it ends or is interrupted. *)
Definition run_full_crawl {C R} (all_carriers : list C) (crawl_batch : list C -> list R)
    (start_idx : Z) (resume : bool) (file : option (checkpoint R)) (completed_batches : nat)
    : option (checkpoint R) * list R :=
  let '(start_idx, previous_results) :=
    if resume then load_checkpoint file else (start_idx, []) in
  let carriers := slice_from start_idx all_carriers in
  run_batches crawl_batch start_idx (firstn completed_batches (batches 20 carriers))
              previous_results file.

End FullCrawl.

(* ------------------------------------------------------------------ *)
(** ** Python regular expressions *)

(** The fragment of Python's [re] that the classifier's patterns use:
    character classes, concatenation, alternation, greedy repetition, the
    [$] anchor and capturing groups.  Matching follows [sre]'s backtracking
    order: alternatives are tried left to right and greedy repetitions
    longest first, and the first successful path is the match.  Character
    classes of a pattern compiled with [re.IGNORECASE] are written here
    case-insensitively. *)
Module PyRe.

Inductive regex :=
| RChar (p : ascii -> bool)
| RSeq (a b : regex)
| RAlt (a b : regex)
| RStar (a : regex)
| REmpty
| REnd
| RGroup (a : regex).

(** The state of a match is the rest of the subject and the captured groups
    so far, in the order of their opening parentheses. *)
Definition mstate := (string * list string)%type.

(** [mtch r s caps k]: match [r] at the start of [s], then hand the rest of
    the subject to the continuation [k]; the first success wins.  A starred
    body is repeated at most [length s] times: the bodies starred in the
    classifier's patterns always consume a character. *)
Fixpoint mtch (r : regex) (s : string) (caps : list string)
         (k : string -> list string -> option mstate) {struct r} : option mstate :=
  match r with
  | RChar p =>
      match s with
      | String c s' => if p c then k s' caps else None
      | EmptyString => None
      end
  | RSeq a b => mtch a s caps (fun s' caps' => mtch b s' caps' k)
  | RAlt a b =>
      match mtch a s caps k with
      | Some x => Some x
      | None => mtch b s caps k
      end
  | RStar a =>
      (fix star (fuel : nat) (s : string) (caps : list string) : option mstate :=
         match fuel with
         | 0 => k s caps
         | S f =>
             match mtch a s caps (fun s' caps' => star f s' caps') with
             | Some x => Some x
             | None => k s caps
             end
         end) (String.length s) s caps
  | REmpty => k s caps
  | REnd =>
      match s with
      | EmptyString => k s caps
      | String c EmptyString => if Ascii.eqb c "010"%char then k s caps else None
      | _ => None
      end
  | RGroup a =>
      mtch a s caps (fun s' caps' =>
        k s' (caps' ++ [take (String.length s - String.length s') s])%list)
  end.

(** [pattern.match(s)]: the rest of the subject and the groups. *)
Definition match_at (r : regex) (s : string) : option mstate :=
  mtch r s [] (fun s' caps => Some (s', caps)).

(** [pattern.search(s) is not None] *)
Fixpoint search (r : regex) (s : string) : bool :=
  match match_at r s with
  | Some _ => true
  | None =>
      match s with
      | EmptyString => false
      | String _ s' => search r s'
      end
  end.

(** [pattern.finditer(s)]: every match, left to right and without overlap,
    as the matched text and its groups.  Python's [findall] returns the
    matched text for a pattern without groups and the groups otherwise. *)
Fixpoint finditer_fuel (fuel : nat) (r : regex) (s : string) : list (string * list string) :=
  match fuel with
  | 0 => []
  | S f =>
      match match_at r s with
      | Some (s', caps) =>
          let m := take (String.length s - String.length s') s in
          if Nat.ltb (String.length s') (String.length s)
          then (m, caps) :: finditer_fuel f r s'
          else (m, caps) :: match s with
                            | EmptyString => []
                            | String _ t => finditer_fuel f r t
                            end
      | None =>
          match s with
          | EmptyString => []
          | String _ t => finditer_fuel f r t
          end
      end
  end.
Definition finditer (r : regex) (s : string) : list (string * list string) :=
  finditer_fuel (S (String.length s)) r s.

(** Building blocks. *)
Definition ch (c : ascii) : regex := RChar (fun d => Ascii.eqb d c).
(** A literal character under [re.IGNORECASE]. *)
Definition ich (c : ascii) : regex :=
  RChar (fun d => Ascii.eqb (lower_char d) (lower_char c)).
Fixpoint seqs (rs : list regex) : regex :=
  match rs with
  | [] => REmpty
  | [r] => r
  | r :: rs' => RSeq r (seqs rs')
  end.
Fixpoint alts (rs : list regex) : regex :=
  match rs with
  | [] => RChar (fun _ => false)
  | [r] => r
  | r :: rs' => RAlt r (alts rs')
  end.
Fixpoint lit (s : string) : regex :=
  match s with
  | EmptyString => REmpty
  | String c s' => RSeq (ch c) (lit s')
  end.
Fixpoint ilit (s : string) : regex :=
  match s with
  | EmptyString => REmpty
  | String c s' => RSeq (ich c) (ilit s')
  end.
(** [r?], [r+], [r{m,}] and [r{m,n}] (all greedy). *)
Definition opt (r : regex) : regex := RAlt r REmpty.
Definition plus (r : regex) : regex := RSeq r (RStar r).
Fixpoint copies (m : nat) (r : regex) : regex :=
  match m with 0 => REmpty | S m' => RSeq r (copies m' r) end.
Fixpoint upto (k : nat) (r : regex) : regex :=
  match k with 0 => REmpty | S k' => opt (RSeq r (upto k' r)) end.
Definition at_least (m : nat) (r : regex) : regex := RSeq (copies m r) (RStar r).
Definition rep (m n : nat) (r : regex) : regex := RSeq (copies m r) (upto (n - m) r).

(** [\d], [\s] and [\w] of a [str] pattern, on ASCII. *)
Definition digit : regex := RChar is_digit.
Definition space : regex := RChar is_space.
Definition is_word (c : ascii) : bool :=
  is_alpha c || is_digit c || Ascii.eqb c "_"%char.
Definition word : regex := RChar is_word.
(** [[A-Z]] and [[a-z]] under [re.IGNORECASE] *)
Definition letter_i : regex := RChar is_alpha.

End PyRe.
Import PyRe.

(* ------------------------------------------------------------------ *)
(** ** The classifier (src/classifier.py) *)

(** The parsed page.  BeautifulSoup is not modelled: a page is given by its
    HTML text, which the classifier reads directly, and by what the
    classifier reads from the parse tree, in document order.
    - [doc_title]: [soup.title.string] ([None] without a title string);
    - [doc_lang]: [soup.find('html').get('lang')];
    - [doc_main_text]: [soup_copy.get_text(separator=' ')] once the header,
      footer, nav and menu elements are removed (as [_count_real_addresses]
      computes it);
    - [doc_anchors], [doc_iframes], [doc_forms]: the [a], [iframe] and
      [form] tags with the attributes read from them ([None] for a missing
      attribute); [form_str] is [str(form)];
    - [doc_jsonld]: for each [application/ld+json] script,
      [json.dumps(json.loads(script.string or '{}'))], or [None] where
      [json.loads] raises;
    - the [content]/[href] attributes of the meta and link tags read by
      [_extract_url_from_html]. *)
Module Classifier.

Record anchor := mkAnchor { a_href : option string; a_text : string }.
Record iframe := mkIframe {
  if_src : option string; if_title : option string; if_name : option string }.
Record form := mkForm { form_str : string; form_action : option string; form_text : string }.
Record soup := mkSoup {
  doc_title : option string;
  doc_lang : option string;
  doc_main_text : string;
  doc_anchors : list anchor;
  doc_iframes : list iframe;
  doc_forms : list form;
  doc_jsonld : list (option string);
  doc_crawler_url : option string;
  doc_canonical : option string;
  doc_og_url : option string;
  doc_twitter_url : option string }.

Record LocationSignal := mkSignal {
  signal_type : string;
  confidence : string;
  points : Z;
  details : string;
  evidence : string }.

Record PageClassification := mkPage {
  url : string;
  title : string;
  signals : list LocationSignal;
  total_score : Z;
  is_location_page : bool;
  url_priority : string }.

Definition LOCATION_PAGE_THRESHOLD : Z := 3.

(** [x.get(k, '')] *)
Definition get_or_empty (o : option string) : string :=
  match o with Some v => v | None => EmptyString end.

(** The double quote character, as a one-character string. *)
Definition dq : string := String "034"%char EmptyString.

(** [str(n)] *)
Fixpoint digits_fuel (fuel n : nat) (acc : string) : string :=
  match fuel with
  | 0 => acc
  | S f =>
      let acc' := String (ascii_of_nat (48 + n mod 10)) acc in
      if Nat.ltb n 10 then acc' else digits_fuel f (n / 10) acc'
  end.
Definition str_of_nat (n : nat) : string := digits_fuel (S n) n EmptyString.

(** [len(set(xs))]: the distinct elements, in order of first occurrence. *)
Fixpoint dedup {A} (eqb : A -> A -> bool) (xs : list A) : list A :=
  match xs with
  | [] => []
  | x :: xs' => x :: filter (fun y => negb (eqb x y)) (dedup eqb xs')
  end.
Definition list_str_eqb (a b : list string) : bool :=
  (Nat.eqb (length a) (length b) && forallb (fun p => String.eqb (fst p) (snd p)) (combine a b))%bool.

(** [s.count(sub)] for a non-empty [sub]. *)
Fixpoint count_sub_fuel (fuel : nat) (s sub : string) : nat :=
  match fuel with
  | 0 => 0
  | S f =>
      if startswith s sub then S (count_sub_fuel f (drop (String.length sub) s) sub)
      else match s with
           | EmptyString => 0
           | String _ s' => count_sub_fuel f s' sub
           end
  end.
Definition count_sub (s sub : string) : nat := count_sub_fuel (S (String.length s)) s sub.

Definition sum_points (sigs : list LocationSignal) : Z :=
  fold_left (fun acc sg => (acc + points sg)%Z) sigs 0%Z.

(** [LocationClassifier.INDEX_URL_PATTERNS], compiled with [re.IGNORECASE]. *)
Definition slash_end (w : string) : regex := seqs [ilit w; opt (ich "/"); REnd].
Definition INDEX_URL_PATTERNS : list regex :=
  [ slash_end "/locations"; ilit "/locations.html"; ilit "/Our-Locations";
    slash_end "/our-locations"; slash_end "/all-locations"; ilit "centersResult";
    ilit "/coverage"; slash_end "/terminals"; RSeq (ilit "/terminals") REnd;
    slash_end "terminals"; slash_end "/service-centers"; slash_end "/service-center";
    ilit "service-center-locator"; ilit "/service-locations"; slash_end "/facilities";
    slash_end "/branches"; slash_end "/find-us"; slash_end "/terminal-locations";
    ilit "/branch-locator"; ilit "/map.html"; ilit "servicemap.pdf";
    slash_end "/locator"; ilit "/find-location"; ilit "/store-locator";
    ilit "/dealer-locator" ].

(** [LocationClassifier.ADDRESS_PATTERNS], compiled with [re.IGNORECASE]. *)
Definition street_suffix : regex :=
  alts (map ilit ["Street"; "St"; "Avenue"; "Ave"; "Road"; "Rd"; "Drive"; "Dr";
                  "Boulevard"; "Blvd"; "Way"; "Lane"; "Ln"; "Highway"; "Hwy";
                  "Parkway"; "Pkwy"]).
Definition word_or_space : regex := RChar (fun c => is_word c || is_space c).
Definition ADDRESS_PATTERNS : list regex :=
  [ (* \d{1,5}\s+[\w\s]+(?:Street|...)\.?[,\s]+[\w\s]+,?\s*[A-Z]{2}\s*\d{5} *)
    seqs [ rep 1 5 digit; plus space; plus word_or_space; street_suffix; opt (ch ".");
           plus (RChar (fun c => Ascii.eqb c ","%char || is_space c));
           plus word_or_space; opt (ch ","); RStar space; copies 2 letter_i;
           RStar space; copies 5 digit ];
    (* [A-Z][a-z]+(?:\s+[A-Z][a-z]+)*,\s*[A-Z]{2}\s+\d{5} *)
    seqs [ letter_i; plus letter_i; RStar (seqs [plus space; letter_i; plus letter_i]);
           ch ","; RStar space; copies 2 letter_i; plus space; copies 5 digit ] ].

(** The coordinate patterns of [_count_coordinates]:
    [(?:lat|latitude)], an optional double or single quote, then
    [\s*[:=]\s*(-?\d{1,3}\.\d{3,})], with [re.IGNORECASE]; and
    [LatLng\s*\(\s*(-?\d{1,3}\.\d+)\s*,\s*(-?\d{1,3}\.\d+)\s*\)]. *)
Definition coord_number (frac : nat) : regex :=
  seqs [opt (ch "-"); rep 1 3 digit; ch "."; at_least frac digit].
Definition coord_pattern : regex :=
  seqs [ RAlt (ilit "lat") (ilit "latitude");
         opt (RChar (fun c => Ascii.eqb c "034"%char || Ascii.eqb c "'"%char));
         RStar space; RChar (fun c => Ascii.eqb c ":"%char || Ascii.eqb c "="%char);
         RStar space; RGroup (coord_number 3) ].
Definition coord_pattern2 : regex :=
  seqs [ lit "LatLng"; RStar space; ch "("; RStar space; RGroup (coord_number 1);
         RStar space; ch ","; RStar space; RGroup (coord_number 1); RStar space; ch ")" ].

(** [re.compile(r'google\.com/maps|maps\.google\.com', re.I)] *)
Definition maps_href_pattern : regex :=
  RAlt (ilit "google.com/maps") (ilit "maps.google.com").
(** [r'latlng\s*\('] *)
Definition latlng_call_pattern : regex := seqs [lit "latlng"; RStar space; ch "("].

Definition disqualified (details evidence : string) : LocationSignal :=
  mkSignal "DISQUALIFIED" "high" 0 details evidence.

(** [LocationClassifier._is_error_page] *)
Definition error_titles : list string :=
  ["404"; "not found"; "page not found"; "error"; "oops";
   "page does not exist"; "page doesn't exist"].
Definition _is_error_page (html : string) (doc : soup) (title : string) : bool :=
  let title_lower := lower title in
  if existsb (contains title_lower) error_titles then true
  else let html_lower := lower html in
  if contains html_lower "<h1>404" || contains html_lower "<h1>page not found" then true
  else if Nat.ltb (String.length html) 2000 then true
  else false.

(** [LocationClassifier._is_non_english] *)
Definition _is_non_english (doc : soup) : bool :=
  match doc_lang doc with
  | Some l =>
      let lang := lower l in
      negb (is_empty lang) && negb (startswith lang "en")
  | None => false
  end.

(** [LocationClassifier._has_location_url] *)
Definition location_keywords : list string :=
  ["location"; "terminal"; "service-center"; "service-location"; "facility";
   "branch"; "find-us"; "depot"; "yard"; "loadboard"; "load-board"; "/map";
   "locator"; "finder"; "servicemap"; "branch-locator"; "store-locator"].
Definition _has_location_url (url_lower : string) : bool :=
  existsb (contains url_lower) location_keywords.

(** [LocationClassifier._is_excluded_page_type] *)
Definition exclude_patterns : list string :=
  ["quote"; "get-a-quote"; "instant-quote"; "request-quote";
   "career"; "job"; "apply"; "hiring";
   "login"; "signin"; "register"; "signup";
   "blog"; "news"; "press-release"; "article";
   "investor"; "annual-report"; "earnings";
   "privacy"; "terms"; "cookie"; "legal";
   "cart"; "checkout"; "order"].
Definition _is_excluded_page_type (url_lower title : string) : bool :=
  let title_lower := lower title in
  if existsb (contains url_lower) exclude_patterns then true
  else if existsb (contains title_lower) exclude_patterns then true
  else false.

(** [LocationClassifier._count_real_addresses]: the distinct stripped
    matches longer than 15 characters, pattern by pattern. *)
Definition addresses_found (doc : soup) : list string :=
  let text := doc_main_text doc in
  fold_left (fun found pattern =>
      fold_left (fun found m =>
          let clean := strip (fst m) in
          if Nat.ltb 15 (String.length clean)
          then (if mem clean found then found else (found ++ [clean])%list)
          else found)
        (finditer pattern text) found)
    ADDRESS_PATTERNS [].
Definition _count_real_addresses (html : string) (doc : soup) : nat * option LocationSignal :=
  let found := addresses_found doc in
  let count := length found in
  if Nat.leb 5 count then
    (count, Some (mkSignal "ADDRESS_LIST" "high" 10
                   (str_of_nat count ++ " addresses found - location listing page")
                   (join "; " (firstn 3 found))))
  else if Nat.leb 2 count then
    (count, Some (mkSignal "ADDRESS_PAIR" "medium" 3
                   (str_of_nat count ++ " addresses found")
                   (join "; " (firstn 2 found))))
  else (count, None).

(** [LocationClassifier._count_coordinates] *)
Definition _count_coordinates (html : string) : nat * option LocationSignal :=
  let lat_matches := map snd (finditer coord_pattern html) in
  let latlng_matches := map snd (finditer coord_pattern2 html) in
  let count := length (dedup list_str_eqb lat_matches)
               + length (dedup list_str_eqb latlng_matches) in
  if Nat.leb 3 count then
    (count, Some (mkSignal "COORDINATE_DATA" "high" 8
                   (str_of_nat count ++ " coordinate markers found")
                   "Multiple lat/lng coordinates"))
  else if Nat.leb 1 count then
    (count, Some (mkSignal "COORDINATE_DATA" "medium" 2
                   (str_of_nat count ++ " coordinate(s) found") "lat/lng data"))
  else (count, None).

(** [LocationClassifier._detect_google_maps_strict] *)
Definition real_map_patterns : list string :=
  ["google.com/maps/embed"; "/maps/d/embed"; "maps.google.com/maps?";
   "google.com/maps?q="; "google.com/maps/place"].
Definition maps_exclude_patterns : list string :=
  ["googletagmanager"; "recaptcha"; "analytics"; "gtag"; "fonts.googleapis";
   "ajax.googleapis"].
Definition map_init_patterns : list string :=
  ["new google.maps.map"; "google.maps.marker"; "google.maps.infowindow";
   "initmap"; "mapinit"; "loadmap"].
Definition maps_links (doc : soup) : list anchor :=
  filter (fun a => match a_href a with
                   | Some h => search maps_href_pattern h
                   | None => false
                   end) (doc_anchors doc).
Definition map_embed_src (i : iframe) : bool :=
  let src := lower (get_or_empty (if_src i)) in
  existsb (contains src) real_map_patterns
  && negb (existsb (contains src) maps_exclude_patterns).
Definition _detect_google_maps_strict (html : string) (doc : soup) : option LocationSignal :=
  let html_lower := lower html in
  let has_real_map := existsb (contains html_lower) real_map_patterns in
  let maps_link_count := length (maps_links doc) in
  let from_links :=
    if has_real_map then
      match find map_embed_src (doc_iframes doc) with
      | Some i =>
          let src := lower (get_or_empty (if_src i)) in
          let pts := if Nat.ltb maps_link_count 3 then 3%Z else 5%Z in
          Some (mkSignal "GOOGLE_MAPS_EMBED" (if Z.eqb pts 3%Z then "medium" else "high") pts
                  ("Google Maps embed iframe (links=" ++ str_of_nat maps_link_count ++ ")")
                  (take 80 src))
      | None =>
          if Nat.leb 3 maps_link_count then
            Some (mkSignal "GOOGLE_MAPS_LINK" "high" 5
                    (str_of_nat maps_link_count ++ " Google Maps links")
                    "Multiple maps.google.com links")
          else if Nat.eqb maps_link_count 1 then
            Some (mkSignal "GOOGLE_MAPS_LINK" "low" 1
                    "Single Google Maps link (likely HQ only)" "maps.google.com link")
          else None
      end
    else None in
  match from_links with
  | Some sg => Some sg
  | None =>
      if contains html_lower "maps.googleapis.com/maps/api/js"
         && existsb (contains html_lower) map_init_patterns then
        let marker_count := count_sub html_lower "google.maps.marker"
                            + count_sub html_lower "addmarker"
                            + count_sub html_lower "new marker" in
        let latlng_count := length (finditer latlng_call_pattern html_lower) in
        if Nat.leb 3 marker_count || Nat.leb 3 latlng_count then
          Some (mkSignal "GOOGLE_MAPS_API" "high" 5
                  ("Google Maps API with multiple markers (~"
                     ++ str_of_nat (Nat.max marker_count latlng_count) ++ ")")
                  "maps.googleapis.com with multiple markers")
        else
          Some (mkSignal "GOOGLE_MAPS_API" "low" 2
                  "Google Maps API (possibly single marker)" "maps.googleapis.com")
      else None
  end.

(** [LocationClassifier._detect_location_finder_form]: the first form that is
    not a quote form and has finder vocabulary or a radius term. *)
Definition finder_keywords : list string :=
  ["find location"; "find terminal"; "find facility"; "locate"; "search location";
   "find near"; "nearby"; "service center locator"; "terminal locator"].
Definition radius_terms : list string := ["radius"; "distance"; "miles"; "within"].
Definition quote_terms : list string := ["quote"; "lead"; "contact"; "order"; "ship"].
Definition has_finder_language (f : form) : bool :=
  let form_html := lower (form_str f) in
  let form_text := lower (form_text f) in
  existsb (fun kw => contains form_html kw || contains form_text kw) finder_keywords.
Definition has_radius (f : form) : bool :=
  let form_html := lower (form_str f) in
  existsb (contains form_html) radius_terms.
Definition is_quote_form (f : form) : bool :=
  let form_html := lower (form_str f) in
  let form_action := lower (get_or_empty (form_action f)) in
  existsb (fun q => contains form_html q || contains form_action q) quote_terms.
Fixpoint detect_forms (forms : list form) : option LocationSignal :=
  match forms with
  | [] => None
  | f :: rest =>
      if has_finder_language f && negb (is_quote_form f) then
        Some (mkSignal "LOCATION_FINDER" "high" 8 "Location finder/locator form"
                "Form with location search capability")
      else if has_radius f && negb (is_quote_form f) then
        Some (mkSignal "LOCATION_SEARCH" "medium" 4 "Search form with radius/distance"
                "Form with radius search")
      else detect_forms rest
  end.
Definition _detect_location_finder_form (html : string) (doc : soup) : option LocationSignal :=
  detect_forms (doc_forms doc).

(** [LocationClassifier._detect_json_ld_strict] *)
Definition _detect_json_ld_strict (html : string) (doc : soup) : option LocationSignal :=
  let location_count :=
    fold_left (fun n script =>
        match script with
        | Some data =>
            let data_str := lower data in
            n + count_sub data_str (dq ++ "streetaddress" ++ dq)
              + count_sub data_str (dq ++ "postalcode" ++ dq)
        | None => n
        end) (doc_jsonld doc) 0 in
  if Nat.leb 4 location_count then
    Some (mkSignal "JSON_LD_LOCATIONS" "high" 5
            ("JSON-LD with " ++ str_of_nat (location_count / 2) ++ "+ locations")
            "Structured data with multiple addresses")
  else None.

(** [str.upper()] and [str.title()] on ASCII. *)
Definition upper_char (c : ascii) : ascii :=
  if is_lower c then ascii_of_nat (nat_of_ascii c - 32) else c.
Fixpoint upper (s : string) : string :=
  match s with
  | EmptyString => EmptyString
  | String c s' => String (upper_char c) (upper s')
  end.
Fixpoint title_from (prev_cased : bool) (s : string) : string :=
  match s with
  | EmptyString => EmptyString
  | String c s' =>
      String (if is_alpha c then (if prev_cased then lower_char c else upper_char c) else c)
             (title_from (is_alpha c) s')
  end.

(** [LocationClassifier.MAP_LIBRARIES], in the dictionary's order. *)
Definition MAP_LIBRARIES : list (string * list string) :=
  [("google_maps", ["maps.google.com"; "maps.googleapis.com"; "google.com/maps"]);
   ("mapbox", ["mapbox.com"; "mapboxgl"; "mapbox-gl"]);
   ("leaflet", ["leafletjs.com"; "L.map"; "leaflet.js"]);
   ("arcgis", ["arcgis.com"; "esri.com"; "FeatureServer"; "MapServer"])].

(** [LocationClassifier._detect_interactive_maps] *)
Definition _detect_interactive_maps (html : string) (doc : soup) : list LocationSignal :=
  let html_lower := lower html in
  flat_map (fun lib : string * list string =>
      let (lib_name, signatures) := lib in
      if String.eqb lib_name "google_maps" then []
      else match find (fun sig => contains html_lower (lower sig)) signatures with
           | Some sig =>
               [mkSignal ("MAP_" ++ upper lib_name) "high" 3
                  (title_from false (replace "_" " " lib_name) ++ " map detected") sig]
           | None => []
           end) MAP_LIBRARIES.

(** [LocationClassifier._detect_location_iframes] *)
Definition iframe_keywords : list string :=
  ["map"; "location"; "store"; "dealer"; "terminal"; "branch"; "office"; "locator"].
Definition location_iframe (i : iframe) : bool :=
  let src := lower (get_or_empty (if_src i)) in
  let title := lower (get_or_empty (if_title i)) in
  let name := lower (get_or_empty (if_name i)) in
  if contains src "google.com/maps" || contains src "maps.google" then false
  else existsb (fun kw => contains src kw || contains title kw || contains name kw)
               iframe_keywords.
Definition _detect_location_iframes (html : string) (doc : soup) : list LocationSignal :=
  let location_iframes := filter location_iframe (doc_iframes doc) in
  match location_iframes with
  | [] => []
  | _ =>
      [mkSignal "LOCATION_IFRAME" "medium" 3
         (str_of_nat (length location_iframes) ++ " location-related iframe(s)")
         ("Sources: " ++ join ", " (map (fun i => take 60 (get_or_empty (if_src i)))
                                        (firstn 2 location_iframes)))]
  end.

(** [LocationClassifier._detect_pdf_links] *)
Definition high_value_keywords : list string :=
  ["servicemap"; "service-map"; "terminal-map"; "location-map"; "coverage-map";
   "network-map"; "facility-map"; "directory"].
Definition regular_keywords : list string :=
  ["location"; "terminal"; "service"; "facility"; "map"].
Definition pdf_hrefs (doc : soup) : list string * list string :=
  fold_left (fun (acc : list string * list string) (a : anchor) =>
      let (high_value_pdfs, regular_pdfs) := acc in
      match a_href a with
      | None => acc
      | Some h =>
          let href := lower h in
          let text := lower (a_text a) in
          if contains href ".pdf" then
            if existsb (contains href) high_value_keywords
            then ((high_value_pdfs ++ [href])%list, regular_pdfs)
            else if existsb (fun kw => contains href kw || contains text kw) regular_keywords
            then (high_value_pdfs, (regular_pdfs ++ [href])%list)
            else acc
          else acc
      end) (doc_anchors doc) ([], []).
Definition _detect_pdf_links (html : string) (doc : soup) : list LocationSignal :=
  let (high_value_pdfs, regular_pdfs) := pdf_hrefs doc in
  match high_value_pdfs, regular_pdfs with
  | h :: _, _ =>
      [mkSignal "PDF_SERVICEMAP" "high" 8 ("Service/location map PDF: " ++ take 50 h)
         (join "; " (firstn 2 high_value_pdfs))]
  | [], _ :: _ =>
      [mkSignal "PDF_LOCATIONS" "medium" 2
         (str_of_nat (length regular_pdfs) ++ " location-related PDF(s)")
         (join "; " (firstn 2 regular_pdfs))]
  | [], [] => []
  end.

(** [signals.append(s)] for a detector's result that is not [None]. *)
Definition app_opt (sigs : list LocationSignal) (o : option LocationSignal) : list LocationSignal :=
  match o with Some sg => (sigs ++ [sg])%list | None => sigs end.

(** Steps 2 and 3 of [classify_html]: the signals collected and
    [has_primary_signal]. *)
Definition primary_signals (html : string) (doc : soup) (url url_lower : string)
  : list LocationSignal * bool :=
  (* PRIMARY 1: location index URL *)
  let is_index_page := existsb (fun p => search p url_lower) INDEX_URL_PATTERNS in
  let signals :=
    if is_index_page
    then [mkSignal "INDEX_PAGE" "high" 15 "URL is a location index page" (take 80 url)]
    else [] in
  let has_primary_signal := is_index_page in
  (* PRIMARY 2: addresses *)
  let (address_count, address_signal) := _count_real_addresses html doc in
  let signals :=
    if Nat.leb 5 address_count then app_opt signals address_signal
    else if Nat.leb 2 address_count then app_opt signals address_signal
    else signals in
  let has_primary_signal := has_primary_signal || Nat.leb 5 address_count in
  (* PRIMARY 3: coordinates *)
  let (coord_count, coord_signal) := _count_coordinates html in
  let signals :=
    if Nat.leb 3 coord_count then app_opt signals coord_signal
    else if Nat.leb 1 coord_count then app_opt signals coord_signal
    else signals in
  let has_primary_signal := has_primary_signal || Nat.leb 3 coord_count in
  (* PRIMARY 4: Google Maps *)
  let (signals, has_primary_signal) :=
    match _detect_google_maps_strict html doc with
    | Some maps_signal =>
        if Z.leb 5 (points maps_signal)
        then ((signals ++ [maps_signal])%list, true)
        else ((signals ++ [maps_signal])%list, has_primary_signal)
    | None => (signals, has_primary_signal)
    end in
  (* PRIMARY 5: location finder form *)
  let (signals, has_primary_signal) :=
    match _detect_location_finder_form html doc with
    | Some locator_signal => ((signals ++ [locator_signal])%list, true)
    | None => (signals, has_primary_signal)
    end in
  (* STEP 3: URL context *)
  if negb has_primary_signal && _has_location_url url_lower then
    ((signals ++ [mkSignal "URL_CONTEXT" "medium" 3 "URL suggests location content"
                    (take 60 url)])%list, true)
  else (signals, has_primary_signal).

(** Step 5 of [classify_html]: the secondary signals. *)
Definition secondary_signals (html : string) (doc : soup) : list LocationSignal :=
  app_opt [] (_detect_json_ld_strict html doc)
  ++ _detect_interactive_maps html doc
  ++ _detect_location_iframes html doc
  ++ _detect_pdf_links html doc.

(** The page's title, as [classify_html] reads it. *)
Definition page_title (doc : soup) : string :=
  match doc_title doc with
  | Some t => if is_empty t then EmptyString else strip t
  | None => EmptyString
  end.
(** [url or filename] *)
Definition page_url (url filename : string) : string :=
  if is_empty url then filename else url.

(** [LocationClassifier.classify_html] *)
Definition classify_html (html : string) (doc : soup) (url filename : string) : PageClassification :=
  let title := page_title doc in
  let page_url := page_url url filename in
  let url_lower := lower page_url in
  (* STEP 1: disqualifiers *)
  if _is_error_page html doc title then
    mkPage page_url title [disqualified "Error/404 page" (take 50 title)] 0 false ""
  else if _is_non_english doc && negb (_has_location_url url_lower) then
    mkPage page_url title [disqualified "Non-English page" "lang attribute or content"]
           0 false ""
  else if _is_excluded_page_type url_lower title then
    mkPage page_url title [disqualified "Quote/career/excluded page type" (take 50 url)]
           0 false ""
  else
  let (signals, has_primary_signal) := primary_signals html doc url url_lower in
  (* STEP 4: no primary signal *)
  if negb has_primary_signal then
    mkPage page_url title
           (match signals with
            | [] => [mkSignal "NO_LOCATION_CONTENT" "high" 0
                       "No primary location signals found" ""]
            | _ => signals
            end) 0 false ""
  else
  (* STEP 5: secondary signals and the total *)
  let signals := (signals ++ secondary_signals html doc)%list in
  let total_score := sum_points signals in
  mkPage page_url title signals (Z.max 0 total_score)
         (Z.leb LOCATION_PAGE_THRESHOLD total_score) "".

(** Whether one of the disqualifiers of Step 1 rejects the page. *)
Definition stage1_rejects (html : string) (doc : soup) (url filename : string) : bool :=
  let title := page_title doc in
  let url_lower := lower (page_url url filename) in
  _is_error_page html doc title
  || (_is_non_english doc && negb (_has_location_url url_lower))
  || _is_excluded_page_type url_lower title.

Record CarrierReport := mkReport {
  carrier_name : string;
  report_domain : string;
  total_pages : nat;
  location_pages : nat;
  modalities_found : list (string * nat);
  top_pages : list PageClassification;
  recommended_approach : string }.

(** [LocationClassifier._extract_url_from_html] *)
Definition _extract_url_from_html (html : string) (doc : soup) : string :=
  let present o := match o with Some v => negb (is_empty v) | None => false end in
  if present (doc_crawler_url doc) then get_or_empty (doc_crawler_url doc)
  else if present (doc_canonical doc) then get_or_empty (doc_canonical doc)
  else if present (doc_og_url doc) then get_or_empty (doc_og_url doc)
  else if present (doc_twitter_url doc) then get_or_empty (doc_twitter_url doc)
  else EmptyString.

(** [modality_counts[k] += 1] on a [defaultdict(int)], which keeps the order
    in which keys were first inserted. *)
Fixpoint incr_count (k : string) (m : list (string * nat)) : list (string * nat) :=
  match m with
  | [] => [(k, 1)]
  | (k', n) :: m' => if String.eqb k k' then (k', S n) :: m' else (k', n) :: incr_count k m'
  end.
(** [modality_counts.get(k)] is truthy *)
Definition count_of (k : string) (m : list (string * nat)) : nat :=
  match find (fun p => String.eqb (fst p) k) m with Some (_, n) => n | None => 0 end.

(** [LocationClassifier._generate_recommendation] *)
Definition _generate_recommendation (modality_counts : list (string * nat)) : string :=
  match modality_counts with
  | [] => "No location data detected - manual review needed"
  | _ =>
    let has k := Nat.ltb 0 (count_of k modality_counts) in
    let recommendations :=
      ((if has "ADDRESS_LIST" || has "ADDRESS_PAIR" then ["Parse addresses from HTML"] else [])
       ++ (if has "GOOGLE_MAPS_EMBED" || has "GOOGLE_MAPS_API"
           then ["Extract from Google Maps embed"] else [])
       ++ (if has "GOOGLE_MAPS_LINKS" then ["Parse Google Maps URLs"] else [])
       ++ (if existsb (fun p => contains (fst p) "MAP_") modality_counts
           then ["Query map API/data source"] else [])
       ++ (if has "PDF_LOCATIONS" then ["Parse PDF documents"] else [])
       ++ (if has "LOCATION_SEARCH" then ["Automate location search form"] else [])
       ++ (if has "JSON_LD_LOCATION" then ["Parse JSON-LD structured data"] else []))%list in
    match recommendations with
    | [] => "Manual review needed"
    | _ => join "; " recommendations
    end
  end.

(** [list.sort(key=lambda x: x.total_score, reverse=True)]: a stable sort,
    by insertion, that places each page after the pages already placed
    with a score at least its own. *)
Fixpoint insert_by_score (p : PageClassification) (ps : list PageClassification)
  : list PageClassification :=
  match ps with
  | [] => [p]
  | q :: ps' =>
      if Z.ltb (total_score q) (total_score p) then p :: ps
      else q :: insert_by_score p ps'
  end.
Definition sort_by_score (ps : list PageClassification) : list PageClassification :=
  fold_left (fun acc p => insert_by_score p acc) ps [].

(** [LocationClassifier.classify_carrier].  The saved pages of
    [pages_dir.glob('*.html')] are given, in the order of the glob, as their
    file stem, their text and their parse; reading them does not fail. *)
Definition classify_carrier (carrier_name : string) (pages_dir_name : string)
           (html_files : list (string * string * soup)) : CarrierReport :=
  let '(location_pages, modality_counts, all_classifications) :=
    fold_left (fun acc (file : string * string * soup) =>
        let '(location_pages, modality_counts, all_classifications) := acc in
        let '(stem, html, doc) := file in
        let actual_url := _extract_url_from_html html doc in
        let actual_url := if is_empty actual_url then stem else actual_url in
        let classification := classify_html html doc actual_url stem in
        if is_location_page classification then
          (S location_pages,
           fold_left (fun m sg => if Z.ltb 0 (points sg) then incr_count (signal_type sg) m else m)
                     (signals classification) modality_counts,
           (all_classifications ++ [classification])%list)
        else acc)
      html_files (0, [], []) in
  mkReport carrier_name pages_dir_name (length html_files) location_pages modality_counts
           (firstn 20 (sort_by_score all_classifications))
           (_generate_recommendation modality_counts).

(** JSON values, as [json.dumps] writes them and [json.loads] reads them
    back: the report holds only strings, integers, lists and objects with
    string keys, on which the two are inverse. *)
#[warnings="-register-all"]
Inductive json :=
| JStr (s : string)
| JInt (z : Z)
| JList (xs : list json)
| JObj (kvs : list (string * json)).

(** [asdict(s)] *)
Definition signal_json (s : LocationSignal) : json :=
  JObj [("signal_type", JStr (signal_type s)); ("confidence", JStr (confidence s));
        ("points", JInt (points s)); ("details", JStr (details s));
        ("evidence", JStr (evidence s))].
Definition page_json (p : PageClassification) : json :=
  JObj [("url", JStr (url p)); ("title", JStr (title p)); ("score", JInt (total_score p));
        ("signals", JList (map signal_json (filter (fun s => Z.ltb 0 (points s)) (signals p))))].
Definition report_json (r : CarrierReport) : json :=
  JObj [("carrier_name", JStr (carrier_name r));
        ("domain", JStr (report_domain r));
        ("total_pages", JInt (Z.of_nat (total_pages r)));
        ("location_pages", JInt (Z.of_nat (location_pages r)));
        ("modalities_found",
           JObj (map (fun kv => (fst kv, JInt (Z.of_nat (snd kv)))) (modalities_found r)));
        ("recommended_approach", JStr (recommended_approach r));
        ("top_pages", JList (map page_json (firstn 10 (top_pages r))))].

(** The [json_data] written by [generate_modality_report] (its text report is
    not modelled): one entry per carrier of the [reports] dictionary. *)
Definition modality_report_json (reports : list (string * CarrierReport)) : json :=
  JObj (map (fun cr => (fst cr, report_json (snd cr))) reports).

End Classifier.

(* ------------------------------------------------------------------ *)
(** ** Concrete inputs *)

Module Scenarios.
Import Crawler.

(** A render where the homepage links to ["/about/"]'s slash-less form and
    every other page renders empty. *)
Definition about_render : Render :=
  fun u => if String.eqb u "https://x.com"
           then Some (mkResponse 200 "https://x.com" ["/about/"])
           else Some (mkResponse 200 u []).

(** A render where every navigation fails. *)
Definition dead_render : Render := fun _ => None.

(** A render where the homepage links to [/coverage], which redirects to a
    PDF viewer page whose only link is a fragment. *)
Definition pdf_render : Render :=
  fun u => if String.eqb u "https://x.com"
           then Some (mkResponse 200 "https://x.com" ["/coverage"])
           else if String.eqb u "https://x.com/coverage"
           then Some (mkResponse 200 "https://x.com/viewer?file=terminal-map.pdf" ["#zoom"])
           else Some (mkResponse 200 u []).

(** Sixty carriers, each result recording the carrier's index. *)
Definition carriers60 : list nat := seq 0 60.
Definition crawl_ids (batch : list nat) : list nat := batch.

End Scenarios.

(** Saved pages for the classifier.  Each page's HTML is padded with a
    comment to the 2000 characters below which [_is_error_page] rejects it,
    and its parse lists the tags the HTML holds. *)
Module ClassifierInputs.
Import Classifier.

Definition page_html (body : string) : string :=
  "<html><head><title>Our network</title></head><body>" ++ body
  ++ "<!-- " ++ repeat_str 2000 "x" ++ " --></body></html>".

Definition page_doc (main_text : string) (anchors : list anchor) (forms : list form) : soup :=
  mkSoup (Some "Our network") None main_text anchors [] forms [] None None None None.

Definition about_url : string := "https://x.com/about-us".

(** One link to Google Maps, and nothing else. *)
Definition hq_link : anchor := mkAnchor (Some "https://www.google.com/maps/place/Dallas") "HQ".
Definition hq_map_html : string :=
  page_html "<p>Visit our headquarters.</p><a href='https://www.google.com/maps/place/Dallas'>HQ</a>".
Definition hq_map_doc : soup := page_doc "Visit our headquarters. HQ" [hq_link] [].

(** Five addresses, written with and without commas, and one address. *)
Definition five_addresses : string :=
  "1200 Main St, Dallas, TX 75201 300 Oak Avenue, Austin, TX 78701 45 Elm Rd, Houston, TX 77002 9 Pine Dr, El Paso, TX 79901 77 Lake Blvd, Waco, TX 76701".
Definition five_addresses_no_commas : string :=
  "1200 Main St Dallas TX 75201 300 Oak Avenue Austin TX 78701 45 Elm Rd Houston TX 77002 9 Pine Dr El Paso TX 79901 77 Lake Blvd Waco TX 76701".
Definition one_address : string := "1200 Main St, Dallas, TX 75201".
Definition text_page_html (text : string) : string := page_html ("<p>" ++ text ++ "</p>").
Definition text_page_doc (text : string) : soup := page_doc text [] [].

(** A form with finder words and no radius field, and one with a radius
    field only. *)
Definition finder_form : form :=
  mkForm "<form action='/search'><input name='zip'>Find terminal</form>" (Some "/search")
         "Find terminal".
Definition radius_form : form :=
  mkForm "<form action='/search'><select name='radius'></select></form>" (Some "/search") "".
Definition form_page_html (f : form) : string := page_html (form_str f).
Definition form_page_doc (f : form) : soup := page_doc "" [] [f].

(** Eleven saved pages of index URLs ([p0-terminals], ...). *)
Definition index_pages : list (string * string * soup) :=
  map (fun i => ("p" ++ str_of_nat i ++ "-terminals", text_page_html "Terminals",
                 text_page_doc "Terminals")) (seq 0 11).

End ClassifierInputs.

(* ------------------------------------------------------------------ *)
(** ** Reading the JSON report back *)

(** The reader of a carrier's entry in the JSON report that a round trip
    through the structured report needs: it recovers the [top_pages]
    (url, title and score of each page, in order) and the
    [modalities_found] counts.  The classifier has no such reader; this one
    follows the field names [generate_modality_report] writes. *)
Module ReportReader.
Import Classifier.

Definition json_get (k : string) (j : json) : option json :=
  match j with
  | JObj kvs =>
      match find (fun kv => String.eqb (fst kv) k) kvs with
      | Some (_, v) => Some v
      | None => None
      end
  | _ => None
  end.

Fixpoint map_option {A B} (f : A -> option B) (xs : list A) : option (list B) :=
  match xs with
  | [] => Some []
  | x :: xs' =>
      match f x, map_option f xs' with
      | Some y, Some ys => Some (y :: ys)
      | _, _ => None
      end
  end.

Definition page_summary (p : PageClassification) : string * string * Z :=
  (url p, title p, total_score p).

Definition read_page (j : json) : option (string * string * Z) :=
  match json_get "url" j, json_get "title" j, json_get "score" j with
  | Some (JStr u), Some (JStr t), Some (JInt z) => Some (u, t, z)
  | _, _, _ => None
  end.
Definition read_top_pages (j : json) : option (list (string * string * Z)) :=
  match json_get "top_pages" j with
  | Some (JList ps) => map_option read_page ps
  | _ => None
  end.

Definition read_count (kv : string * json) : option (string * nat) :=
  match snd kv with JInt z => Some (fst kv, Z.to_nat z) | _ => None end.
Definition read_modalities (j : json) : option (list (string * nat)) :=
  match json_get "modalities_found" j with
  | Some (JObj kvs) => map_option read_count kvs
  | _ => None
  end.

(** [reports.get(c)] *)
Definition report_lookup (c : string) (reports : list (string * CarrierReport))
  : option CarrierReport :=
  match find (fun cr => String.eqb (fst cr) c) reports with
  | Some (_, r) => Some r
  | None => None
  end.

(** Pages in order of non-increasing [total_score]. *)
Fixpoint sorted_by_score (ps : list PageClassification) : bool :=
  match ps with
  | p :: ((q :: _) as rest) => Z.leb (total_score q) (total_score p) && sorted_by_score rest
  | _ => true
  end.

End ReportReader.

(* ------------------------------------------------------------------ *)
(** ** The crawl summary and the saved HTML of src/page_crawler.py *)

Module CrawlReport.
Import UrlLib Crawler Classifier.

(** [PageCrawler._detect_location_signals]: always the empty dictionary. *)
Definition _detect_location_signals (html : string) : list (string * string) := [].

(** The fields of a page dictionary built by [PageCrawler._crawl_page] that
    [_generate_summary] reads.  The rendered HTML and title of a page come
    from the browser; the render model above does not carry them, so they
    are given. *)
Record page_dict := mkPageDict {
  pdict_url : string;
  pdict_title : string;
  pdict_location_signals : list (string * string);
  pdict_has_location_data : bool }.

Definition page_dict_of (pd : page_data) (html title : string) : page_dict :=
  let signals := _detect_location_signals html in
  mkPageDict (pd_url pd) title signals
             (match signals with [] => false | _ => true end).

(** [PageCrawler._generate_summary], without its timing fields
    ([duration_seconds], [pages_per_second], [crawled_at]). *)
Record crawl_summary := mkSummary {
  summary_carrier_name : string;
  summary_base_url : string;
  summary_domain : string;
  pages_crawled : nat;
  pages_failed : nat;
  pages_with_location_signals : nat;
  signal_summary : list (string * nat);
  pages_with_signals : list (string * string * list (string * string)) }.

Definition _generate_summary (carrier_name : string)
           (rendered : page_data -> string * string) (st : crawler) : crawl_summary :=
  let pages := map (fun pd => let '(html, title) := rendered pd in page_dict_of pd html title)
                   (pages_data st) in
  let pages_with_signals := filter pdict_has_location_data pages in
  let signal_types :=
    fold_left (fun m page =>
        fold_left (fun m signal => incr_count signal m)
                  (map fst (pdict_location_signals page)) m)
      pages_with_signals [] in
  mkSummary carrier_name (base_url st) (domain st)
            (length (visited_urls st)) (length (failed_urls st))
            (length pages_with_signals) signal_types
            (map (fun p => (pdict_url p, pdict_title p, pdict_location_signals p))
                 pages_with_signals).

Definition nl : string := String "010"%char EmptyString.

(** [s.find(sub)]; [None] stands for [-1]. *)
Fixpoint find_sub (s sub : string) : option nat :=
  if startswith s sub then Some 0
  else match s with
       | EmptyString => None
       | String _ s' => option_map S (find_sub s' sub)
       end.

(** [s.replace(old, new, 1)] *)
Definition replace_first (old new s : string) : string :=
  match find_sub s old with
  | Some i => take i s ++ new ++ drop (i + String.length old) s
  | None => s
  end.

Definition crawler_meta_open : string :=
  "<meta name=" ++ dq ++ "crawler-original-url" ++ dq.
Definition inject_tag (url : string) : string :=
  crawler_meta_open ++ " content=" ++ dq ++ url ++ dq ++ ">" ++ nl.

(** [PageCrawler._save_page_html]: the text written to the page's file. *)
Definition _save_page_html (url html : string) : string :=
  if negb (contains html crawler_meta_open) then
    let inject_tag := inject_tag url in
    if contains html "<head>" then
      replace_first "<head>" ("<head>" ++ nl ++ inject_tag) html
    else if contains html "<head " then
      (* [html.find('<head ')] is found here *)
      let head_start := match find_sub html "<head " with Some i => i | None => 0 end in
      let head_end := match find_char_from ">" head_start html with
                      | Some j => S j
                      | None => 0
                      end in
      take head_end html ++ nl ++ inject_tag ++ drop head_end html
    else html
  else html.

End CrawlReport.

(* ------------------------------------------------------------------ *)
(** ** When [urllib.parse] and [utils.normalize_url] raise [ValueError] *)

Module UrlErrors.
Import UrlLib.

(** [c.isascii()] *)
Definition is_ascii_char (c : ascii) : bool := Nat.ltb (nat_of_ascii c) 128.

(** The netloc checks of [urlsplit] that raise [ValueError]: an unmatched
    ['['] or [']'] always raises ("Invalid IPv6 URL"); a netloc with both
    brackets goes through [_check_bracketed_host] and a non-ASCII netloc
    through [_checknetloc] (NFKC normalisation), which may raise; those two
    checks are the parameter [netloc_rejected]. *)
Definition netloc_raises (netloc_rejected : string -> bool) (netloc : string) : bool :=
  let o := contains netloc "[" in
  let c := contains netloc "]" in
  (o && negb c) || (c && negb o)
  || ((o && c) || negb (forallb is_ascii_char (list_ascii_of_string netloc)))
     && netloc_rejected netloc.

(** [urlsplit(url, scheme)] raises [ValueError]; the netloc does not
    depend on the default scheme. *)
Definition urlsplit_raises (netloc_rejected : string -> bool) (url : string) : bool :=
  netloc_raises netloc_rejected (sr_netloc (urlsplit url "")).



End UrlErrors.

(* ------------------------------------------------------------------ *)
(** ** src/url_discovery.py *)

Module Discovery.
Import Crawler Classifier UrlErrors.







End Discovery.

(* ------------------------------------------------------------------ *)
(** ** [utils.clean_text] *)

Module TextUtils.

(** [text.split()]: the maximal runs of non-whitespace characters. *)
Fixpoint split_ws_acc (s cur : string) : list string :=
  match s with
  | EmptyString => if is_empty cur then [] else [cur]
  | String c s' =>
      if is_space c then
        (if is_empty cur then split_ws_acc s' EmptyString else cur :: split_ws_acc s' EmptyString)
      else split_ws_acc s' (cur ++ String c EmptyString)
  end.
Definition split_ws (s : string) : list string := split_ws_acc s EmptyString.

(** [utils.clean_text] *)
Definition clean_text (text : string) : string :=
  if is_empty text then EmptyString else join " " (split_ws text).

End TextUtils.

(* ================================================================== *)
(** * Properties *)

Module UtilsExamples.

Example normalize_ex1 :
  normalize_url "HTTPS://WWW.X.com/Locations/#top" "https://www.x.com" = Some "https://www.x.com/Locations".
Proof. vm_compute. reflexivity. Qed.
Example normalize_ex2 :
  normalize_url "../terminals/./dallas?id=4#map" "https://x.com/a/b/c" = Some "https://x.com/a/terminals/dallas?id=4".
Proof. vm_compute. reflexivity. Qed.
Example normalize_ex3 :
  normalize_url "#zoom" "https://x.com/viewer?file=terminal-map.pdf" = Some "https://x.com/viewer?file=terminal-map.pdf".
Proof. vm_compute. reflexivity. Qed.
Example normalize_ex4 : normalize_url "/about/" "https://x.com" = Some "https://x.com/about".
Proof. vm_compute. reflexivity. Qed.

End UtilsExamples.

Module StrFacts.

Lemma str_app_assoc (a b c : string) : (a ++ b) ++ c = a ++ (b ++ c).
Proof. induction a as [|x a IH]; simpl; [reflexivity | rewrite IH; reflexivity]. Qed.

Lemma str_app_nil_r (a : string) : a ++ "" = a.
Proof. induction a as [|x a IH]; simpl; [reflexivity | rewrite IH; reflexivity]. Qed.

Lemma rev_str_app (a b : string) : rev_str (a ++ b) = rev_str b ++ rev_str a.
Proof.
  induction a as [|x a IH]; simpl.
  - rewrite str_app_nil_r. reflexivity.
  - rewrite IH, str_app_assoc. reflexivity.
Qed.

Lemma rev_str_involutive (s : string) : rev_str (rev_str s) = s.
Proof.
  induction s as [|x s IH]; simpl; [reflexivity|].
  rewrite rev_str_app, IH. reflexivity.
Qed.

Lemma startswith_iff (s p : string) : startswith s p = true <-> exists b, s = p ++ b.
Proof.
  revert s. induction p as [|c p IH]; intros s.
  - simpl. split; [intros _; exists s; reflexivity | intros _; destruct s; reflexivity].
  - destruct s as [|d s]; simpl.
    + split; [discriminate | intros [b Hb]; discriminate Hb].
    + rewrite andb_true_iff, Ascii.eqb_eq, IH. split.
      * intros [-> [b ->]]. exists b. reflexivity.
      * intros [b Hb]. injection Hb as Hd Hs. subst. split; [reflexivity | exists b; reflexivity].
Qed.

Lemma contains_cons (c : ascii) (s p : string) :
  contains (String c s) p = startswith (String c s) p || contains s p.
Proof. reflexivity. Qed.

Lemma contains_iff (s p : string) : contains s p = true <-> exists a b, s = a ++ p ++ b.
Proof.
  induction s as [|c s IH].
  - change (contains "" p) with (startswith "" p || false).
    rewrite orb_false_r, startswith_iff. split.
    + intros [b Hb]. exists "", b. exact Hb.
    + intros [a [b Hab]]. destruct a; [exists b; exact Hab | discriminate Hab].
  - rewrite contains_cons, orb_true_iff, startswith_iff, IH. split.
    + intros [[b Hb] | [a [b Hab]]].
      * exists "", b. exact Hb.
      * exists (String c a), b. rewrite Hab. reflexivity.
    + intros [a [b Hab]]. destruct a as [|d a].
      * left. exists b. exact Hab.
      * right. injection Hab as Hd Hs. exists a, b. exact Hs.
Qed.

Lemma contains_rev (s p : string) : contains (rev_str s) (rev_str p) = contains s p.
Proof.
  apply Bool.eq_iff_eq_true. rewrite !contains_iff. split; intros [a [b H]].
  - exists (rev_str b), (rev_str a).
    rewrite <- (rev_str_involutive s), H, !rev_str_app, rev_str_involutive, str_app_assoc.
    reflexivity.
  - exists (rev_str b), (rev_str a). rewrite H, !rev_str_app, str_app_assoc. reflexivity.
Qed.

Lemma contains_lstrip (q : ascii -> bool) (s : string) (d : ascii) (p : string) :
  q d = false -> contains (lstrip_by q s) (String d p) = contains s (String d p).
Proof.
  intros Hd. induction s as [|c s IH]; simpl lstrip_by; [reflexivity|].
  destruct (q c) eqn:Ec; [|reflexivity].
  rewrite IH, contains_cons. simpl startswith.
  destruct (Ascii.eqb d c) eqn:E; [|reflexivity].
  apply Ascii.eqb_eq in E. subst. congruence.
Qed.

Lemma contains_rstrip (q : ascii -> bool) (s : string) (p : string) (d : ascii) :
  q d = false -> contains (rstrip_by q s) (p ++ String d "") = contains s (p ++ String d "").
Proof.
  intros Hd. unfold rstrip_by.
  rewrite <- (rev_str_involutive (p ++ String d "")), contains_rev.
  rewrite rev_str_app. simpl rev_str at 2. simpl.
  rewrite contains_lstrip by exact Hd.
  change (String d (rev_str p)) with (rev_str (String d "") ++ rev_str p).
  rewrite <- rev_str_app, contains_rev, rev_str_involutive. reflexivity.
Qed.

Lemma is_space_lower_char (c : ascii) : is_space (lower_char c) = is_space c.
Proof. destruct c as [[] [] [] [] [] [] [] []]; reflexivity. Qed.

Lemma lower_app (a b : string) : lower (a ++ b) = lower a ++ lower b.
Proof. induction a as [|x a IH]; simpl; [reflexivity | rewrite IH; reflexivity]. Qed.

Lemma lower_rev (s : string) : lower (rev_str s) = rev_str (lower s).
Proof. induction s as [|x s IH]; simpl; [reflexivity|]. rewrite lower_app, IH. reflexivity. Qed.

Lemma lower_lstrip_space (s : string) :
  lower (lstrip_by is_space s) = lstrip_by is_space (lower s).
Proof.
  induction s as [|c s IH]; simpl; [reflexivity|].
  rewrite is_space_lower_char. destruct (is_space c); [exact IH | reflexivity].
Qed.

Lemma lower_strip (s : string) : lower (strip s) = strip (lower s).
Proof.
  unfold strip, rstrip_by.
  rewrite lower_rev, lower_lstrip_space, lower_rev, lower_lstrip_space. reflexivity.
Qed.

(** A needle with no space at either end occurs in [strip s] iff in [s]. *)
Lemma contains_strip (s : string) (d : ascii) (p : string) (e : ascii) :
  is_space d = false -> is_space e = false ->
  contains (strip s) (String d (p ++ String e "")) = contains s (String d (p ++ String e "")).
Proof.
  intros Hd He. unfold strip.
  change (String d (p ++ String e "")) with (String d p ++ String e "").
  rewrite contains_rstrip by exact He. simpl append.
  apply contains_lstrip. exact Hd.
Qed.

End StrFacts.

Module UrlFacts.
Import UrlLib UrlShapes StrFacts.

Lemma existsb_In_true {A} (f : A -> bool) (l : list A) (x : A) :
  In x l -> f x = true -> existsb f l = true.
Proof. intros Hx Hf. apply existsb_exists. exists x. split; assumption. Qed.

(** [normalize_url] rejects every string containing [".pdf"] in any case. *)
Lemma normalize_url_pdf_none (url base : string) :
  contains (lower url) ".pdf" = true -> normalize_url url base = None.
Proof.
  intros H. unfold normalize_url.
  destruct (is_empty url || is_empty (strip url)); [reflexivity|].
  rewrite (existsb_In_true _ _ ".pdf"); [reflexivity | simpl; tauto |].
  rewrite lower_strip. change ".pdf" with (String "." ("pd" ++ String "f" "")).
  rewrite contains_strip by reflexivity. exact H.
Qed.

Lemma all_chars_app (f : ascii -> bool) (a b : string) :
  all_chars f (a ++ b) = all_chars f a && all_chars f b.
Proof. induction a as [|c a IH]; simpl; [reflexivity|]. rewrite IH, andb_assoc. reflexivity. Qed.

Lemma all_chars_impl (f g : ascii -> bool) (s : string) :
  (forall c, f c = true -> g c = true) -> all_chars f s = true -> all_chars g s = true.
Proof.
  intros Hfg. induction s as [|c s IH]; simpl; [reflexivity|].
  rewrite !andb_true_iff. intros [H1 H2]. split; [apply Hfg; exact H1 | apply IH; exact H2].
Qed.


Lemma lstrip_by_id (q : ascii -> bool) (s : string) :
  all_chars (fun c => negb (q c)) s = true -> lstrip_by q s = s.
Proof.
  destruct s as [|c s]; simpl; [reflexivity|].
  intros H. apply andb_true_iff in H as [H _]. destruct (q c); [discriminate H | reflexivity].
Qed.


Lemma remove_chars_id (q : ascii -> bool) (s : string) :
  all_chars (fun c => negb (q c)) s = true -> remove_chars q s = s.
Proof.
  induction s as [|c s IH]; simpl; [reflexivity|].
  rewrite andb_true_iff. intros [H1 H2]. destruct (q c); [discriminate H1|].
  rewrite IH by exact H2. reflexivity.
Qed.

Ltac by_char_table :=
  let c := fresh "c" in let H := fresh "H" in
  intros c H; destruct c as [[] [] [] [] [] [] [] []];
  vm_compute in H |- *; first [reflexivity | discriminate H].


Lemma url_char_not_c0 : forall c, url_char c = true -> negb (c0_or_space c) = true.
Proof. by_char_table. Qed.

Lemma url_char_not_unsafe : forall c, url_char c = true -> negb (unsafe_byte c) = true.
Proof. by_char_table. Qed.

Lemma host_char_url : forall c, host_char c = true -> url_char c = true.
Proof. by_char_table. Qed.

Lemma host_char_not_delim : forall c, host_char c = true -> negb (netloc_delim c) = true.
Proof. by_char_table. Qed.


Lemma path_char_url : forall c, path_char c = true -> url_char c = true.
Proof. by_char_table. Qed.

Lemma path_char_not_hash : forall c, path_char c = true -> negb (Ascii.eqb "#" c) = true.
Proof. by_char_table. Qed.

Lemma path_char_not_qmark : forall c, path_char c = true -> negb (Ascii.eqb "?" c) = true.
Proof. by_char_table. Qed.

Lemma path_char_not_semi : forall c, path_char c = true -> negb (Ascii.eqb c ";") = true.
Proof. by_char_table. Qed.

Lemma query_char_url : forall c, query_char c = true -> url_char c = true.
Proof. by_char_table. Qed.

Lemma query_char_not_hash : forall c, query_char c = true -> negb (Ascii.eqb "#" c) = true.
Proof. by_char_table. Qed.

Lemma splitnetloc_app (h r : string) :
  all_chars (fun c => negb (netloc_delim c)) h = true ->
  match r with EmptyString => True | String c _ => netloc_delim c = true end ->
  splitnetloc (h ++ r) = (h, r).
Proof.
  intros Hh Hr. induction h as [|c h IH]; simpl.
  - destruct r as [|c r]; simpl; [reflexivity|]. rewrite Hr. reflexivity.
  - simpl in Hh. apply andb_true_iff in Hh as [H1 H2].
    destruct (netloc_delim c); [discriminate H1|]. rewrite IH by exact H2. reflexivity.
Qed.

Lemma split_once_app (c : ascii) (a b : string) :
  all_chars (fun d => negb (Ascii.eqb c d)) a = true ->
  split_once c (a ++ b) =
  match split_once c b with Some (x, y) => Some (a ++ x, y) | None => None end.
Proof.
  intros Ha. induction a as [|d a IH]; simpl.
  - destruct (split_once c b) as [[x y]|]; reflexivity.
  - simpl in Ha. apply andb_true_iff in Ha as [H1 H2].
    destruct (Ascii.eqb c d); [discriminate H1|].
    rewrite IH by exact H2. destruct (split_once c b) as [[x y]|]; reflexivity.
Qed.

Lemma split_once_hit (c : ascii) (b : string) : split_once c (String c b) = Some ("", b).
Proof. simpl. rewrite Ascii.eqb_refl. reflexivity. Qed.

Lemma contains_no_char (c : ascii) (s : string) :
  all_chars (fun d => negb (Ascii.eqb d c)) s = true -> contains s (String c "") = false.
Proof.
  intros H. destruct (contains s (String c "")) eqn:E; [|reflexivity].
  apply contains_iff in E as [a [b ->]]. rewrite !all_chars_app in H. simpl in H.
  rewrite Ascii.eqb_refl, andb_false_r in H. discriminate H.
Qed.

Lemma str_length_app (a b : string) :
  String.length (a ++ b) = String.length a + String.length b.
Proof. induction a as [|c a IH]; simpl; [reflexivity | rewrite IH; reflexivity]. Qed.

Lemma startswith_nil (s : string) : startswith s "" = true.
Proof. destruct s; reflexivity. Qed.









Lemma assemble_url_chars (sch h p q : string) (frag : option string) :
  all_chars url_char sch = true -> all_chars host_char h = true ->
  all_chars path_char p = true -> all_chars query_char q = true ->
  all_chars url_char (fragment_text frag) = true ->
  all_chars url_char (assemble_url sch h p q frag) = true.
Proof.
  intros Hs Hh Hp Hq Hf. unfold assemble_url, query_part, fragment_part.
  rewrite !all_chars_app, Hs.
  rewrite (all_chars_impl _ _ _ host_char_url Hh), (all_chars_impl _ _ _ path_char_url Hp).
  destruct (is_empty q); [|rewrite all_chars_app, (all_chars_impl _ _ _ query_char_url Hq)];
    (destruct frag as [f|]; simpl in Hf |- *; [rewrite Hf|]); reflexivity.
Qed.

Lemma startswith_dslash (r : string) : startswith ("//" ++ r) "//" = true.
Proof. simpl. apply startswith_nil. Qed.

Lemma drop2_dslash (r : string) : drop 2 ("//" ++ r) = r.
Proof. reflexivity. Qed.

Lemma query_part_no_hash (q : string) :
  all_chars query_char q = true ->
  all_chars (fun d => negb (Ascii.eqb "#" d)) (query_part q) = true.
Proof.
  intros Hq. unfold query_part. destruct (is_empty q); [reflexivity|].
  simpl. exact (all_chars_impl _ _ _ query_char_not_hash Hq).
Qed.

Lemma split_fragment_components (p q : string) (frag : option string) :
  all_chars path_char p = true -> all_chars query_char q = true ->
  match split_once "#" (p ++ query_part q ++ fragment_part frag) with
  | Some p0 => p0
  | None => (p ++ query_part q ++ fragment_part frag, "")
  end = (p ++ query_part q, fragment_text frag).
Proof.
  intros Hp Hq.
  rewrite split_once_app by exact (all_chars_impl _ _ _ path_char_not_hash Hp).
  rewrite split_once_app by exact (query_part_no_hash q Hq).
  destruct frag as [f|]; simpl fragment_part; simpl fragment_text.
  - change ("#" ++ f) with (String "#" f). rewrite split_once_hit, str_app_nil_r. reflexivity.
  - simpl. rewrite str_app_nil_r. reflexivity.
Qed.

Lemma split_query_components (p q : string) :
  all_chars path_char p = true ->
  match split_once "?" (p ++ query_part q) with
  | Some p0 => p0
  | None => (p ++ query_part q, "")
  end = (p, q).
Proof.
  intros Hp.
  rewrite split_once_app by exact (all_chars_impl _ _ _ path_char_not_qmark Hp).
  unfold query_part. destruct q as [|c q]; simpl is_empty; cbv iota.
  - simpl. rewrite str_app_nil_r. reflexivity.
  - change ("?" ++ String c q) with (String "?" (String c q)).
    rewrite split_once_hit, str_app_nil_r. reflexivity.
Qed.



Lemma assemble_url_prefix (sch h p q : string) (frag : option string) :
  (sch = "http" \/ sch = "https") ->
  is_empty (assemble_url sch h p q frag) = false /\
  startswith (assemble_url sch h p q frag) "//" = false /\
  startswith (assemble_url sch h p q frag) "/" = false /\
  startswith (assemble_url sch h p q frag) "http" = true.
Proof. intros [-> | ->]; repeat split. Qed.


End UrlFacts.

(* ------------------------------------------------------------------ *)
(** ** [urlsplit] and [normalize_url] on [href]s of every form *)

Module UrlCaseFacts.
Import UrlLib UrlShapes StrFacts UrlFacts.

Lemma alpha_url_char : forall c, is_alpha c = true -> url_char c = true.
Proof. by_char_table. Qed.

Lemma alpha_scheme_char : forall c, is_alpha c = true -> scheme_char c = true.
Proof. by_char_table. Qed.

Lemma alpha_not_colon : forall c, is_alpha c = true -> negb (Ascii.eqb ":" c) = true.
Proof. by_char_table. Qed.

Lemma is_alpha_lower_char (c : ascii) : is_alpha (lower_char c) = is_alpha c.
Proof. destruct c as [[] [] [] [] [] [] [] []]; reflexivity. Qed.

Lemma all_alpha_lower (s : string) : all_chars is_alpha (lower s) = all_chars is_alpha s.
Proof. induction s as [|c s IH]; simpl; [reflexivity|]. rewrite is_alpha_lower_char, IH. reflexivity. Qed.

Lemma is_empty_lower (s : string) : is_empty (lower s) = is_empty s.
Proof. destruct s; reflexivity. Qed.

Lemma http_scheme (s : string) : mem s ["http"; "https"] = true -> s = "http" \/ s = "https".
Proof.
  unfold mem. simpl. rewrite orb_false_r, orb_true_iff, !String.eqb_eq. tauto.
Qed.

Lemma http_scheme_alpha (sch : string) :
  mem (lower sch) ["http"; "https"] = true ->
  all_chars is_alpha sch = true /\ is_empty sch = false.
Proof.
  intros H. apply http_scheme in H.
  rewrite <- all_alpha_lower, <- is_empty_lower.
  destruct H as [H|H]; rewrite H; split; reflexivity.
Qed.

Lemma find_char_app (c : ascii) (a b : string) :
  all_chars (fun d => negb (Ascii.eqb c d)) a = true ->
  find_char c (a ++ b) = option_map (Nat.add (String.length a)) (find_char c b).
Proof.
  induction a as [|d a IH]; simpl; intros H.
  - destruct (find_char c b); reflexivity.
  - apply andb_true_iff in H as [H1 H2]. destruct (Ascii.eqb c d); [discriminate H1|].
    rewrite IH by exact H2. destruct (find_char c b); reflexivity.
Qed.

Lemma take_app_length (a b : string) : take (String.length a) (a ++ b) = a.
Proof.
  unfold take. induction a as [|c a IH]; simpl; [destruct b; reflexivity|]. rewrite IH. reflexivity.
Qed.

Lemma drop_scheme_sep (a r : string) : drop (S (String.length a)) (a ++ "://" ++ r) = "//" ++ r.
Proof. induction a as [|c a IH]; [reflexivity | exact IH]. Qed.

Lemma forallb_scheme_alpha (s : string) :
  all_chars is_alpha s = true -> forallb scheme_char (list_ascii_of_string s) = true.
Proof.
  induction s as [|c s IH]; simpl; [reflexivity|].
  rewrite !andb_true_iff. intros [H1 H2]. split; [apply alpha_scheme_char, H1 | apply IH, H2].
Qed.

(** [urlsplit] reads a scheme in any letter case and lower-cases it. *)
Lemma split_scheme_alpha (sch r : string) :
  all_chars is_alpha sch = true -> is_empty sch = false ->
  split_scheme (sch ++ "://" ++ r) = Some (lower sch, "//" ++ r).
Proof.
  intros Ha Hne. unfold split_scheme.
  rewrite find_char_app by exact (all_chars_impl _ _ _ alpha_not_colon Ha).
  change (find_char ":" ("://" ++ r)) with (Some 0). cbn [option_map]. rewrite Nat.add_0_r.
  rewrite take_app_length, drop_scheme_sep, (forallb_scheme_alpha _ Ha).
  destruct sch as [|c0 s]; [discriminate Hne|].
  cbn [all_chars] in Ha. apply andb_true_iff in Ha as [Hc _].
  change (String c0 s ++ "://" ++ r) with (String c0 (s ++ "://" ++ r)).
  cbv iota. rewrite Hc. reflexivity.
Qed.

Lemma alpha_chars_url (sch : string) : all_chars is_alpha sch = true -> all_chars url_char sch = true.
Proof. apply all_chars_impl, alpha_url_char. Qed.

(** [urlsplit] on [scheme://host path ?query #fragment] with a scheme in
    any letter case, whatever the default scheme. *)
Lemma urlsplit_ci (sch h p q : string) (frag : option string) (d : string) :
  all_chars is_alpha sch = true -> is_empty sch = false -> all_chars host_char h = true ->
  (is_empty p || startswith p "/") = true -> all_chars path_char p = true ->
  all_chars query_char q = true -> all_chars url_char (fragment_text frag) = true ->
  urlsplit (assemble_url sch h p q frag) d = mkSplit (lower sch) h p q (fragment_text frag).
Proof.
  intros Ha Hne Hh Hp0 Hp Hq Hf.
  assert (Hall : all_chars url_char (assemble_url sch h p q frag) = true)
    by (apply assemble_url_chars; try assumption; apply alpha_chars_url, Ha).
  unfold urlsplit.
  rewrite (lstrip_by_id _ _ (all_chars_impl _ _ _ url_char_not_c0 Hall)).
  rewrite (remove_chars_id _ _ (all_chars_impl _ _ _ url_char_not_unsafe Hall)).
  unfold assemble_url at 1. rewrite split_scheme_alpha by assumption.
  cbv beta iota zeta.
  rewrite startswith_dslash, drop2_dslash.
  rewrite splitnetloc_app.
  - cbv beta iota zeta. rewrite split_fragment_components by assumption.
    cbv beta iota zeta. rewrite split_query_components by assumption. reflexivity.
  - exact (all_chars_impl _ _ _ host_char_not_delim Hh).
  - destruct p as [|c p].
    + unfold query_part. destruct (is_empty q); [destruct frag|]; simpl; reflexivity.
    + change (Ascii.eqb "/" c && startswith p "" = true) in Hp0.
      apply andb_true_iff in Hp0 as [Hc _]. apply Ascii.eqb_eq in Hc.
      subst c. reflexivity.
Qed.

Lemma urlparse_ci (sch h p q : string) (frag : option string) (d : string) :
  all_chars is_alpha sch = true -> is_empty sch = false -> all_chars host_char h = true ->
  (is_empty p || startswith p "/") = true -> all_chars path_char p = true ->
  all_chars query_char q = true -> all_chars url_char (fragment_text frag) = true ->
  urlparse (assemble_url sch h p q frag) d = mkParse (lower sch) h p "" q (fragment_text frag).
Proof.
  intros Ha Hne Hh Hp0 Hp Hq Hf. unfold urlparse.
  rewrite urlsplit_ci by assumption.
  cbn [sr_scheme sr_netloc sr_path sr_query sr_fragment].
  rewrite (contains_no_char ";" p (all_chars_impl _ _ _ path_char_not_semi Hp)), andb_false_r.
  reflexivity.
Qed.







End UrlCaseFacts.

Module NormalizeFacts.
Import UrlLib UrlShapes StrFacts UrlFacts UrlCaseFacts.















End NormalizeFacts.

(* ------------------------------------------------------------------ *)
(** ** Facts about the crawl frontier *)

Module CrawlerFacts.
Import Crawler.

Lemma mem_In (x : string) (xs : list string) : mem x xs = true <-> In x xs.
Proof.
  unfold mem. rewrite existsb_exists. split.
  - intros [y [Hy Heq]]. apply String.eqb_eq in Heq. subst. exact Hy.
  - intros H. exists x. split; [exact H | apply String.eqb_refl].
Qed.

Lemma mem_false (x : string) (xs : list string) : mem x xs = false <-> ~ In x xs.
Proof.
  rewrite <- mem_In. destruct (mem x xs); split; congruence.
Qed.

Lemma set_of_list_In (x : string) (xs : list string) :
  In x (set_of_list xs) <-> In x xs.
Proof.
  induction xs as [|y ys IH]; simpl; [tauto|].
  destruct (mem y (set_of_list ys)) eqn:E.
  - apply mem_In in E. rewrite IH in *. split; [tauto|].
    intros [<-|H]; tauto.
  - simpl. rewrite IH. tauto.
Qed.

Lemma set_of_list_NoDup (xs : list string) : NoDup (set_of_list xs).
Proof.
  induction xs as [|y ys IH]; simpl; [constructor|].
  destruct (mem y (set_of_list ys)) eqn:E; [exact IH|].
  constructor; [apply mem_false; exact E | exact IH].
Qed.

Lemma NoDup_app_single (xs : list string) (x : string) :
  NoDup xs -> ~ In x xs -> NoDup (xs ++ [x]).
Proof.
  intros Hn Hx. apply NoDup_app; [exact Hn | constructor; [intros [] | constructor] |].
  intros y Hy [<-|[]]. exact (Hx Hy).
Qed.

Lemma set_add_fresh (x : string) (s : list string) :
  ~ In x s -> set_add x s = (s ++ [x])%list.
Proof. intros H. unfold set_add. apply mem_false in H. rewrite H. reflexivity. Qed.

Lemma set_add_In (x y : string) (s : list string) :
  In y (set_add x s) <-> In y s \/ y = x.
Proof.
  unfold set_add. destruct (mem x s) eqn:E.
  - apply mem_In in E. split; [tauto|]. intros [H| ->]; assumption.
  - rewrite in_app_iff. simpl. split.
    + intros [H|[<-|[]]]; auto.
    + intros [H| ->]; auto.
Qed.

Lemma insert_at1_perm (x : string) (q : list string) :
  Permutation.Permutation (insert_at1 x q) (x :: q).
Proof.
  destruct q as [|y q]; simpl; [reflexivity|]. apply Permutation.perm_swap.
Qed.

Lemma In_firstn {A} (n : nat) (l : list A) (x : A) : In x (firstn n l) -> In x l.
Proof.
  intros H. rewrite <- (firstn_skipn n l). apply in_app_iff. left. exact H.
Qed.

Lemma NoDup_firstn' {A} (n : nat) (l : list A) : NoDup l -> NoDup (firstn n l).
Proof.
  intros H. rewrite <- (firstn_skipn n l) in H. exact (NoDup_app_remove_r _ _ H).
Qed.

Lemma seed_queue_nodup (b : string) (seeds : list string) : NoDup (seed_queue b seeds).
Proof.
  unfold seed_queue. cbn [app]. constructor.
  - intros H. apply in_app_iff in H.
    destruct H as [H|H]; [|apply In_firstn in H]; apply filter_In in H;
      destruct H as [H _]; apply filter_In in H; destruct H as [_ H];
      rewrite String.eqb_refl in H; discriminate.
  - apply NoDup_app.
    + apply NoDup_filter, NoDup_filter, set_of_list_NoDup.
    + apply NoDup_firstn', NoDup_filter, NoDup_filter, set_of_list_NoDup.
    + intros x Hx Hy. apply In_firstn in Hy.
      apply filter_In in Hx. apply filter_In in Hy.
      destruct Hx as [_ Hx], Hy as [_ Hy]. rewrite Hx in Hy. discriminate.
Qed.

Lemma start_inv (b : string) (seeds : list string) : Inv (start_crawl b seeds).
Proof.
  pose proof (seed_queue_nodup (rstrip_char "/" b) seeds) as Hn.
  unfold start_crawl, set_queue, new_crawler.
  split; cbn -[seed_queue]; solve [exact Hn | constructor | reflexivity | tauto].
Qed.

Lemma enqueue_inv (st : crawler) (links : list string) :
  Inv st -> Inv (enqueue_links st links).
Proof.
  revert st. induction links as [|x links IH]; intros st HI; simpl; [exact HI|].
  apply IH.
  destruct (negb (mem x (visited_urls st)) && negb (mem x (failed_urls st))
            && negb (mem x (urls_to_visit st))) eqn:Hfresh; [|exact HI].
  apply andb_true_iff in Hfresh as [Hfresh Hq].
  apply andb_true_iff in Hfresh as [Hv _].
  apply negb_true_iff, mem_false in Hv. apply negb_true_iff, mem_false in Hq.
  assert (Hnotenq : ~ In x (enqueue_log st)).
  { intros H. apply (inv_enq _ HI) in H. tauto. }
  assert (Hgen : forall q', Permutation.Permutation q' (x :: urls_to_visit st) ->
            Inv (set_queue st q' (enqueue_log st ++ [x])%list)).
  { intros q' Hp. destruct HI. split; simpl.
    - eapply Permutation.Permutation_NoDup; [symmetry; exact Hp|]. constructor; assumption.
    - assumption.
    - assumption.
    - intros u Hu. apply (Permutation.Permutation_in _ Hp) in Hu.
      destruct Hu as [<-|Hu]; [exact Hv | auto].
    - assumption.
    - apply NoDup_app_single; assumption.
    - intros u. rewrite in_app_iff.
      split.
      + intros [Hu|[<-|[]]].
        * apply inv_enq0 in Hu. destruct Hu as [Hu|Hu]; [left|right; exact Hu].
          apply (Permutation.Permutation_in _ (Permutation.Permutation_sym Hp)). right. exact Hu.
        * left. apply (Permutation.Permutation_in _ (Permutation.Permutation_sym Hp)). left. reflexivity.
      + intros [Hu|Hu].
        * apply (Permutation.Permutation_in _ Hp) in Hu. destruct Hu as [<-|Hu]; [right; left; reflexivity|].
          left. apply inv_enq0. left. exact Hu.
        * left. apply inv_enq0. right. exact Hu. }
  destruct (is_index_page x || is_pdf_or_map x).
  - apply Hgen. reflexivity.
  - destruct (is_tool_subdomain x).
    + apply Hgen. apply insert_at1_perm.
    + destruct (is_same_site (base_url st) x); [|exact HI].
      apply Hgen. symmetry. apply Permutation.Permutation_cons_append.
Qed.

Lemma visit_inv (st : crawler) (url : string) (rest f : list string) (pd : list page_data) :
  Inv st -> urls_to_visit st = url :: rest ->
  (forall u, In u f -> In u (visited_urls st) \/ u = url) ->
  Inv (mkCrawler (base_url st) (domain st) rest (set_add url (visited_urls st)) f pd
                 (fetch_log st ++ [url])%list (enqueue_log st)).
Proof.
  intros HI Hq Hf.
  assert (Hurl : ~ In url (visited_urls st)).
  { apply (inv_queue_fresh _ HI). rewrite Hq. left. reflexivity. }
  pose proof (inv_queue_nodup _ HI) as Hnd. rewrite Hq in Hnd.
  inversion Hnd as [|? ? Hnotin Hrest]; subst.
  rewrite (set_add_fresh _ _ Hurl).
  destruct HI. split; simpl.
  - exact Hrest.
  - apply NoDup_app_single; assumption.
  - rewrite inv_fetch0. reflexivity.
  - intros u Hu. rewrite in_app_iff. intros [H|[<-|[]]].
    + apply (inv_queue_fresh0 u); [rewrite Hq; right; exact Hu | exact H].
    + exact (Hnotin Hu).
  - intros u Hu. apply in_app_iff. destruct (Hf u Hu) as [H| ->]; [left; exact H | right; left; reflexivity].
  - exact inv_enq_nodup0.
  - intros u. rewrite inv_enq0, Hq, in_app_iff. simpl. split.
    + intros [[<-|H]|H]; tauto.
    + intros [H|[H|[<-|[]]]]; tauto.
Qed.

Lemma add_page_inv (st : crawler) (pd : page_data) : Inv st -> Inv (add_page st pd).
Proof. intros []. split; assumption. Qed.

Lemma step_inv (render : Render) (st st' : crawler) :
  Inv st -> crawl_step render st = Some st' -> Inv st'.
Proof.
  intros HI Hs. unfold crawl_step in Hs.
  destruct (urls_to_visit st) as [|url rest] eqn:Hq; [discriminate|].
  destruct (Nat.ltb (length (visited_urls st)) MAX_PAGES_PER_SITE); [|discriminate].
  assert (Hurl : ~ In url (visited_urls st)).
  { apply (inv_queue_fresh _ HI). rewrite Hq. left. reflexivity. }
  cbn [set_queue visited_urls failed_urls] in Hs.
  destruct (mem url (visited_urls st) || mem url (failed_urls st)) eqn:Hskip.
  { exfalso. apply orb_true_iff in Hskip as [H|H]; apply mem_In in H;
      [exact (Hurl H) | exact (Hurl (inv_failed_visited _ HI _ H))]. }
  unfold crawl_page in Hs.
  cbn [set_queue base_url domain urls_to_visit visited_urls failed_urls pages_data fetch_log enqueue_log] in Hs.
  assert (Hfail : Inv (mkCrawler (base_url st) (domain st) rest (set_add url (visited_urls st))
                         (set_add url (failed_urls st)) (pages_data st)
                         (fetch_log st ++ [url])%list (enqueue_log st))).
  { apply visit_inv; [exact HI | exact Hq |].
    intros u Hu. apply set_add_In in Hu. destruct Hu as [Hu| ->]; [|right; reflexivity].
    left. exact (inv_failed_visited _ HI _ Hu). }
  destruct (render url) as [r|].
  - destruct (Z.leb 400 (resp_status r)).
    + injection Hs as <-. exact Hfail.
    + injection Hs as <-. apply enqueue_inv, add_page_inv, visit_inv; [exact HI | exact Hq |].
      intros u Hu. left. exact (inv_failed_visited _ HI _ Hu).
  - injection Hs as <-. exact Hfail.
Qed.

Lemma loop_inv (render : Render) (fuel : nat) (st : crawler) :
  Inv st -> Inv (crawl_loop render fuel st).
Proof.
  revert st. induction fuel as [|f IH]; intros st HI; simpl; [exact HI|].
  destruct (crawl_step render st) as [st'|] eqn:E; [|exact HI].
  apply IH. exact (step_inv render st st' HI E).
Qed.

Lemma crawl_inv (render : Render) (base : string) (seeds : list string) (fuel : nat) :
  Inv (crawl render base seeds fuel).
Proof. apply loop_inv, start_inv. Qed.

End CrawlerFacts.

(* ------------------------------------------------------------------ *)
(** ** Claims about the crawl frontier *)

Module FrontierClaims.
Import Crawler CrawlerFacts Scenarios.

(** C1 (amended): within one site crawl, every exact URL string is fetched at
    most once and placed in the frontier at most once, for any rendering
    behaviour, seed set and number of iterations. *)
Theorem crawl_fetches_each_url_once (render : Render) (base : string)
  (initial_urls : list string) (fuel : nat) :
  NoDup (fetch_log (crawl render base initial_urls fuel)) /\
  NoDup (enqueue_log (crawl render base initial_urls fuel)).
Proof.
  pose proof (crawl_inv render base initial_urls fuel) as HI.
  split.
  - rewrite (inv_fetch _ HI). exact (inv_visited_nodup _ HI).
  - exact (inv_enq_nodup _ HI).
Qed.

(** C1 counterexample: the sitemap seed ["https://x.com/about/"] is queued
    unnormalized, the homepage's link normalizes to ["https://x.com/about"],
    and both are fetched although they normalize to the same URL. *)
Lemma crawl_fetches_same_normalized_url_twice :
  fetch_log (crawl about_render "https://x.com" ["https://x.com/about/"] 10)
    = ["https://x.com"; "https://x.com/about/"; "https://x.com/about"] /\
  normalize_url "https://x.com/about/" "https://x.com" = Some "https://x.com/about" /\
  normalize_url "https://x.com/about" "https://x.com" = Some "https://x.com/about".
Proof. vm_compute. repeat split. Qed.

Lemma crawl_step_none (render : Render) (st : crawler) :
  crawl_step render st = None <->
  urls_to_visit st = [] \/ MAX_PAGES_PER_SITE <= length (visited_urls st).
Proof.
  unfold crawl_step. destruct (urls_to_visit st) as [|url rest].
  - tauto.
  - destruct (Nat.ltb (length (visited_urls st)) MAX_PAGES_PER_SITE) eqn:E.
    + apply Nat.ltb_lt in E. split.
      * cbn [set_queue visited_urls failed_urls].
        destruct (mem url (visited_urls st) || mem url (failed_urls st));
          [intros H; discriminate H|].
        destruct (crawl_page render _ url) as [s [pd|]]; intros H; discriminate H.
      * intros [H|H]; [discriminate H | lia].
    + apply Nat.ltb_ge in E. split; [intros _; right; exact E | reflexivity].
Qed.

(** C5 (amended): after any crawl, a URL was fetched exactly when it is in
    [visited_urls]; every failed URL is also in [visited_urls] (a failed URL
    is in both sets); no queued URL is visited; and the main loop stops
    exactly when the frontier is empty or [visited_urls], failed URLs
    included, has reached the page budget. *)
Theorem crawl_terminal_states (render : Render) (base : string)
  (initial_urls : list string) (fuel : nat) :
  let st := crawl render base initial_urls fuel in
  (forall u, In u (fetch_log st) <-> In u (visited_urls st)) /\
  (forall u, In u (failed_urls st) -> In u (visited_urls st)) /\
  (forall u, In u (urls_to_visit st) -> ~ In u (visited_urls st)) /\
  (forall st0, crawl_step render st0 = None <->
     urls_to_visit st0 = [] \/ MAX_PAGES_PER_SITE <= length (visited_urls st0)).
Proof.
  intros st. assert (HI : Inv st) by apply crawl_inv.
  split; [|split; [|split]].
  - intros u. rewrite (inv_fetch _ HI). reflexivity.
  - exact (inv_failed_visited _ HI).
  - exact (inv_queue_fresh _ HI).
  - intros st0. apply crawl_step_none.
Qed.

(** C5 counterexample: a homepage whose navigation fails ends up both in
    [visited_urls] and in [failed_urls]. *)
Lemma failed_url_is_also_visited :
  visited_urls (crawl dead_render "https://x.com" [] 5) = ["https://x.com"] /\
  failed_urls (crawl dead_render "https://x.com" [] 5) = ["https://x.com"].
Proof. vm_compute. split; reflexivity. Qed.

End FrontierClaims.

(* ------------------------------------------------------------------ *)
(** ** Where enqueued links come from *)

Module LinkFacts.
Import Crawler CrawlerFacts UrlFacts.

Lemma enqueue_links_enq (st : crawler) (links : list string) (u : string) :
  In u (enqueue_log (enqueue_links st links)) -> In u (enqueue_log st) \/ In u links.
Proof.
  revert st. induction links as [|x rest IH]; intros st H; simpl in H; [left; exact H|].
  repeat match type of H with context [if ?b then _ else _] => destruct b end;
    apply IH in H; simpl in H; rewrite ?in_app_iff in H; simpl in H; simpl; tauto.
Qed.

Lemma extract_links_src (dom final : string) (hrefs : list string) (u : string) :
  In u (extract_links_js dom final hrefs) ->
  exists href, In href hrefs /\ normalize_url href final = Some u.
Proof.
  unfold extract_links_js. rewrite set_of_list_In, in_flat_map.
  intros [href [Hin Hu]]. exists href. split; [exact Hin|].
  destruct (is_empty href); [destruct Hu|].
  destruct (normalize_url href final) as [n|]; [|destruct Hu].
  destruct (is_same_domain n dom); [|destruct Hu].
  destruct Hu as [<-|[]]. reflexivity.
Qed.

Lemma step_enq (render : Render) (st st' : crawler) (u : string) :
  crawl_step render st = Some st' -> In u (enqueue_log st') ->
  In u (enqueue_log st) \/
  exists v r, render v = Some r /\ In u (extract_links_js (domain st) (resp_final_url r) (resp_hrefs r)).
Proof.
  intros Hs Hu. unfold crawl_step in Hs.
  destruct (urls_to_visit st) as [|url rest]; [discriminate|].
  destruct (Nat.ltb (length (visited_urls st)) MAX_PAGES_PER_SITE); [|discriminate].
  cbn [set_queue visited_urls failed_urls] in Hs.
  destruct (mem url (visited_urls st) || mem url (failed_urls st)).
  { injection Hs as <-. left. exact Hu. }
  unfold crawl_page in Hs.
  cbn [set_queue base_url domain urls_to_visit visited_urls failed_urls pages_data fetch_log enqueue_log] in Hs.
  destruct (render url) as [r|] eqn:Er.
  - destruct (Z.leb 400 (resp_status r)).
    + injection Hs as <-. left. exact Hu.
    + injection Hs as <-. apply enqueue_links_enq in Hu. destruct Hu as [Hu|Hu].
      * left. exact Hu.
      * right. exists url, r. split; [exact Er | exact Hu].
  - injection Hs as <-. left. exact Hu.
Qed.

(** Every URL in the frontier log is a seed or the normalization of an href
    of some rendered page against its final URL. *)
Lemma loop_enq_src (render : Render) (seeds : list string) (fuel : nat) (st : crawler) :
  (forall u, In u (enqueue_log st) -> In u seeds \/
     exists v r href, render v = Some r /\ In href (resp_hrefs r) /\
       normalize_url href (resp_final_url r) = Some u) ->
  forall u, In u (enqueue_log (crawl_loop render fuel st)) -> In u seeds \/
     exists v r href, render v = Some r /\ In href (resp_hrefs r) /\
       normalize_url href (resp_final_url r) = Some u.
Proof.
  revert st. induction fuel as [|f IH]; intros st HP; simpl; [exact HP|].
  destruct (crawl_step render st) as [st'|] eqn:E; [|exact HP].
  apply IH. intros u Hu. destruct (step_enq render st st' u E Hu) as [H|[v [r [Hr Hl]]]].
  - exact (HP u H).
  - apply extract_links_src in Hl. destruct Hl as [href [Hin Hn]].
    right. exists v, r, href. auto.
Qed.

End LinkFacts.

(* ------------------------------------------------------------------ *)
(** ** Claims about PDF links *)

Module PdfClaims.
Import Crawler CrawlerFacts UrlFacts LinkFacts Scenarios.

(** C10 (amended): [normalize_url] returns [None] for every raw string
    containing [".pdf"] in any letter case; hence every URL that a crawl
    places in its frontier is either a seed or the normalization, against a
    rendered page's final URL, of an href of that page that does not
    contain [".pdf"]. *)
Theorem pdf_links_never_enqueued (render : Render) (base : string)
  (initial_urls : list string) (fuel : nat) :
  (forall url b, contains (lower url) ".pdf" = true -> normalize_url url b = None) /\
  (forall u, In u (enqueue_log (crawl render base initial_urls fuel)) ->
     In u (seed_queue (rstrip_char "/" base) initial_urls) \/
     exists v r href, render v = Some r /\ In href (resp_hrefs r) /\
       contains (lower href) ".pdf" = false /\ normalize_url href (resp_final_url r) = Some u).
Proof.
  split; [exact normalize_url_pdf_none|].
  intros u Hu. unfold crawl in Hu.
  apply (loop_enq_src render (seed_queue (rstrip_char "/" base) initial_urls)) in Hu.
  - destruct Hu as [H|[v [r [href [Hr [Hin Hn]]]]]]; [left; exact H | right].
    exists v, r, href. repeat split; try assumption.
    destruct (contains (lower href) ".pdf") eqn:E; [|reflexivity].
    rewrite (normalize_url_pdf_none _ _ E) in Hn. discriminate Hn.
  - intros w Hw. left. exact Hw.
Qed.

(** C10 counterexample: with no seeds at all, a fragment-only link on a page
    whose final URL names a map PDF normalizes to that URL, which
    [_is_pdf_or_map] accepts; it is put at the front of the frontier and
    fetched. *)
Lemma pdf_branch_reached_without_seeds :
  is_pdf_or_map "https://x.com/viewer?file=terminal-map.pdf" = true /\
  urls_to_visit (crawl pdf_render "https://x.com" [] 2)
    = ["https://x.com/viewer?file=terminal-map.pdf"] /\
  fetch_log (crawl pdf_render "https://x.com" [] 10)
    = ["https://x.com"; "https://x.com/coverage"; "https://x.com/viewer?file=terminal-map.pdf"].
Proof. vm_compute. repeat split. Qed.

End PdfClaims.

(* ------------------------------------------------------------------ *)
(** ** Claims about [normalize_url] *)

Module NormalizeClaims.
Import UrlLib UrlShapes StrFacts UrlFacts UrlCaseFacts NormalizeFacts.




End NormalizeClaims.

(* ------------------------------------------------------------------ *)
(** ** Claims about resuming a full crawl *)

Module ResumeClaims.
Import FullCrawl Scenarios.

Lemma run_batches_checkpoint {C R} (crawl_batch : list C -> list R) (s : Z)
  (todo : list (list C)) (results : list R) (file : option (checkpoint R)) :
  todo <> [] ->
  fst (run_batches crawl_batch s todo results file)
    = Some (save_checkpoint (snd (run_batches crawl_batch s todo results file)) s).
Proof.
  revert results file. induction todo as [|b rest IH]; intros results file H; [congruence|].
  simpl. destruct rest as [|b' rest'].
  - reflexivity.
  - apply IH. discriminate.
Qed.

Lemma run_batches_prefix {C R} (crawl_batch : list C -> list R) (s : Z)
  (todo : list (list C)) (results : list R) (file : option (checkpoint R)) :
  exists more, snd (run_batches crawl_batch s todo results file) = (results ++ more)%list.
Proof.
  revert results file. induction todo as [|b rest IH]; intros results file; simpl.
  - exists []. rewrite app_nil_r. reflexivity.
  - destruct (IH (results ++ crawl_batch b)%list (Some (save_checkpoint (results ++ crawl_batch b)%list s)))
      as [more Hm].
    rewrite Hm, <- app_assoc. eexists. reflexivity.
Qed.

(** C6: after resuming from a checkpoint whose last index is [k] and
    completing at least one batch, the checkpoint written holds the whole
    results list, old results first, with the resumed start [k + 1] as
    [start_idx]; the next resume therefore starts at [k + 1] plus the length
    of the whole list, old results included, although only the new results
    were produced from carrier [k + 1] on. *)
Theorem resume_checkpoint_overcounts {C R} (all_carriers : list C)
  (crawl_batch : list C -> list R) (s : Z) (c : checkpoint R) (n : nat) :
  (0 < n)%nat -> (0 <= last_idx c + 1)%Z ->
  (Z.to_nat (last_idx c + 1) < length all_carriers)%nat ->
  let run := run_full_crawl all_carriers crawl_batch s true (Some c) n in
  fst run = Some (save_checkpoint (snd run) (last_idx c + 1)) /\
  firstn (length (ck_results c)) (snd run) = ck_results c /\
  fst (load_checkpoint (fst run)) = (last_idx c + 1 + Z.of_nat (length (snd run)))%Z.
Proof.
  intros Hn Hk Hlen run.
  assert (Hne : slice_from (last_idx c + 1) all_carriers <> []).
  { unfold slice_from. destruct (Z.ltb_spec (last_idx c + 1) 0) as [H|H]; [lia|].
    intros E. apply (f_equal (@length C)) in E. rewrite length_skipn in E. simpl in E. lia. }
  assert (Hb : firstn n (batches 20 (slice_from (last_idx c + 1) all_carriers)) <> []).
  { unfold batches. destruct (slice_from (last_idx c + 1) all_carriers) as [|x xs]; [congruence|].
    destruct n as [|n]; [lia|]. simpl. discriminate. }
  assert (Hrun : run = run_batches crawl_batch (last_idx c + 1)
                         (firstn n (batches 20 (slice_from (last_idx c + 1) all_carriers)))
                         (ck_results c) (Some c)) by reflexivity.
  assert (Hf : fst run = Some (save_checkpoint (snd run) (last_idx c + 1))).
  { rewrite Hrun. apply run_batches_checkpoint. exact Hb. }
  split; [exact Hf | split].
  - rewrite Hrun. destruct (run_batches_prefix crawl_batch (last_idx c + 1)
      (firstn n (batches 20 (slice_from (last_idx c + 1) all_carriers))) (ck_results c) (Some c))
      as [more Hm].
    rewrite Hm, firstn_app, Nat.sub_diag, firstn_O, app_nil_r, firstn_all. reflexivity.
  - rewrite Hf. simpl. lia.
Qed.

(** The theorem at a concrete resume: sixty carriers, a checkpoint after
    carriers 0 to 19, one more batch. *)
Lemma resume_checkpoint_overcounts_witness :
  let run := run_full_crawl carriers60 crawl_ids 0 true
               (Some (mkCheckpoint 20 0 19 (seq 0 20))) 1 in
  fst run = Some (save_checkpoint (snd run) 20) /\
  firstn 20 (snd run) = seq 0 20 /\
  fst (load_checkpoint (fst run)) = (20 + Z.of_nat (length (snd run)))%Z.
Proof.
  exact (resume_checkpoint_overcounts carriers60 crawl_ids 0 (mkCheckpoint 20 0 19 (seq 0 20)) 1
           ltac:(lia) ltac:(vm_compute; discriminate) ltac:(vm_compute; lia)).
Defined.

(** C6 failing input: a fresh run over sixty carriers stops after carriers 0
    to 19; a resume runs carriers 20 to 39 and writes [last_idx = 59]; the
    next resume starts at carrier 60 and never crawls carriers 40 to 59. *)
Lemma second_resume_skips_carriers :
  let run1 := run_full_crawl carriers60 crawl_ids 0 false None 1 in
  let run2 := run_full_crawl carriers60 crawl_ids 0 true (fst run1) 1 in
  let run3 := run_full_crawl carriers60 crawl_ids 0 true (fst run2) 3 in
  fst (load_checkpoint (fst run1)) = 20%Z /\
  snd run2 = seq 0 40 /\
  fst (load_checkpoint (fst run2)) = 60%Z /\
  snd run3 = seq 0 40.
Proof. vm_compute. repeat split. Qed.

End ResumeClaims.

(* ------------------------------------------------------------------ *)
(** ** The classifier's scores *)

Module ClassifierFacts.
Import Classifier.

Definition nonneg (sg : LocationSignal) : Prop := (0 <= points sg)%Z.

Lemma fold_points_shift (l : list LocationSignal) (a : Z) :
  fold_left (fun acc sg => (acc + points sg)%Z) l a
  = (a + fold_left (fun acc sg => (acc + points sg)%Z) l 0)%Z.
Proof.
  revert a; induction l as [|s l IH]; intros a; cbn [fold_left]; [lia|].
  rewrite (IH (a + points s)%Z), (IH (0 + points s)%Z). lia.
Qed.

Lemma sum_points_cons (s : LocationSignal) (l : list LocationSignal) :
  sum_points (s :: l) = (points s + sum_points l)%Z.
Proof. unfold sum_points; cbn [fold_left]. rewrite fold_points_shift. lia. Qed.

Lemma sum_points_app (l1 l2 : list LocationSignal) :
  sum_points (l1 ++ l2) = (sum_points l1 + sum_points l2)%Z.
Proof.
  induction l1 as [|s l1 IH]; [reflexivity|].
  simpl. rewrite !sum_points_cons, IH. lia.
Qed.

Lemma sum_points_nonneg (l : list LocationSignal) :
  Forall nonneg l -> (0 <= sum_points l)%Z.
Proof.
  induction 1 as [|s l Hs _ IH]; [reflexivity|].
  rewrite sum_points_cons. unfold nonneg in Hs. lia.
Qed.

Lemma sum_points_ge (l : list LocationSignal) (s : LocationSignal) :
  Forall nonneg l -> In s l -> (points s <= sum_points l)%Z.
Proof.
  induction 1 as [|x l Hx Hl IH]; [intros []|].
  intros [<- | Hin]; rewrite sum_points_cons.
  - pose proof (sum_points_nonneg l Hl). lia.
  - specialize (IH Hin). unfold nonneg in Hx. lia.
Qed.

Lemma Forall_app_opt (P : LocationSignal -> Prop) l o :
  Forall P l -> (forall s, o = Some s -> P s) -> Forall P (app_opt l o).
Proof.
  intros Hl Ho. destruct o as [s|]; simpl; [|exact Hl].
  apply Forall_app; split; [exact Hl|]. constructor; [apply Ho; reflexivity|constructor].
Qed.

Lemma In_app_opt s l o : o = Some s -> In s (app_opt l o).
Proof. intros ->. simpl. apply in_or_app. right. left. reflexivity. Qed.

Lemma In_app_opt_l s l o : In s l -> In s (app_opt l o).
Proof. intros H. destruct o; simpl; [apply in_or_app; left|]; exact H. Qed.

(** The signals of each detector. *)
Lemma count_real_addresses_points html doc sg :
  snd (_count_real_addresses html doc) = Some sg -> points sg = 10%Z \/ points sg = 3%Z.
Proof.
  unfold _count_real_addresses; cbv zeta.
  destruct (Nat.leb 5 _); [|destruct (Nat.leb 2 _)]; simpl; intros H;
    inversion H; subst; simpl; auto; discriminate.
Qed.

Lemma count_real_addresses_list html doc :
  5 <= fst (_count_real_addresses html doc) ->
  exists d e, snd (_count_real_addresses html doc) = Some (mkSignal "ADDRESS_LIST" "high" 10 d e).
Proof.
  unfold _count_real_addresses; cbv zeta.
  destruct (Nat.leb 5 (length (addresses_found doc))) eqn:E.
  - intros _. simpl. eauto.
  - apply Nat.leb_gt in E. destruct (Nat.leb 2 _); simpl; lia.
Qed.

Lemma count_real_addresses_some html doc :
  2 <= fst (_count_real_addresses html doc) ->
  exists sg, snd (_count_real_addresses html doc) = Some sg.
Proof.
  unfold _count_real_addresses; cbv zeta.
  destruct (Nat.leb 5 _); [simpl; eauto|].
  destruct (Nat.leb 2 (length (addresses_found doc))) eqn:E; simpl; [eauto|].
  apply Nat.leb_gt in E. lia.
Qed.

Lemma count_coordinates_points html sg :
  snd (_count_coordinates html) = Some sg -> points sg = 8%Z \/ points sg = 2%Z.
Proof.
  unfold _count_coordinates; cbv zeta.
  destruct (Nat.leb 3 _); [|destruct (Nat.leb 1 _)]; simpl; intros H;
    inversion H; subst; simpl; auto; discriminate.
Qed.

Lemma count_coordinates_high html :
  3 <= fst (_count_coordinates html) ->
  exists sg, snd (_count_coordinates html) = Some sg /\ points sg = 8%Z.
Proof.
  unfold _count_coordinates; cbv zeta.
  match goal with |- context [Nat.leb 3 ?n] => destruct (Nat.leb 3 n) eqn:E end.
  - intros _. simpl. eauto.
  - apply Nat.leb_gt in E. destruct (Nat.leb 1 _); simpl; lia.
Qed.


Lemma google_maps_strict_nonneg html doc sg :
  _detect_google_maps_strict html doc = Some sg -> nonneg sg.
Proof.
  unfold _detect_google_maps_strict, nonneg; cbv zeta.
  destruct (find map_embed_src (doc_iframes doc)).
  all: repeat (cbv beta iota;
          match goal with
          | |- context [if ?b then _ else _] =>
              lazymatch b with context [if _ then _ else _] => fail | _ => destruct b end
          | |- context [match ?x with Some _ => _ | None => _ end] =>
              lazymatch x with context [if _ then _ else _] => fail | _ => destruct x end
          end); intros H; inversion H; subst; simpl; lia.
Qed.

Lemma detect_forms_points forms sg :
  detect_forms forms = Some sg -> points sg = 8%Z \/ points sg = 4%Z.
Proof.
  induction forms as [|f rest IH]; simpl; [discriminate|].
  destruct (has_finder_language f && negb (is_quote_form f)).
  - intros H; inversion H; auto.
  - destruct (has_radius f && negb (is_quote_form f)); [intros H; inversion H; auto|exact IH].
Qed.

Lemma json_ld_points html doc sg :
  _detect_json_ld_strict html doc = Some sg -> points sg = 5%Z.
Proof.
  unfold _detect_json_ld_strict; cbv zeta.
  destruct (Nat.leb 4 _); intros H; inversion H; reflexivity.
Qed.

Lemma interactive_maps_points html doc sg :
  In sg (_detect_interactive_maps html doc) -> points sg = 3%Z.
Proof.
  unfold _detect_interactive_maps. intros H. apply in_flat_map in H.
  destruct H as [[lib_name sigs] [_ H]].
  destruct (String.eqb lib_name "google_maps"); [destruct H|].
  destruct (find _ sigs); [|destruct H].
  destruct H as [<- | []]. reflexivity.
Qed.

Lemma location_iframes_points html doc sg :
  In sg (_detect_location_iframes html doc) -> points sg = 3%Z.
Proof.
  unfold _detect_location_iframes; cbv zeta.
  destruct (filter location_iframe (doc_iframes doc)); [intros []|].
  intros [<- | []]. reflexivity.
Qed.

Lemma pdf_links_points html doc sg :
  In sg (_detect_pdf_links html doc) -> points sg = 8%Z \/ points sg = 2%Z.
Proof.
  unfold _detect_pdf_links.
  destruct (pdf_hrefs doc) as [[|h hs] [|r rs]]; simpl;
    intros H; repeat destruct H as [<- | H]; simpl; auto; destruct H.
Qed.

Lemma secondary_nonneg html doc : Forall nonneg (secondary_signals html doc).
Proof.
  unfold secondary_signals, nonneg.
  apply Forall_app; split; [|apply Forall_app; split; [|apply Forall_app; split]].
  - apply Forall_app_opt; [constructor|]. intros s Hs.
    rewrite (json_ld_points _ _ _ Hs). lia.
  - apply Forall_forall. intros s Hs. rewrite (interactive_maps_points _ _ _ Hs). lia.
  - apply Forall_forall. intros s Hs. rewrite (location_iframes_points _ _ _ Hs). lia.
  - apply Forall_forall. intros s Hs.
    destruct (pdf_links_points _ _ _ Hs) as [-> | ->]; lia.
Qed.


Ltac destruct_ifs :=
  repeat (cbv beta iota zeta delta [negb andb orb];
          match goal with |- context [if ?b then _ else _] => destruct b end).

Lemma primary_nonneg html doc url url_lower :
  Forall nonneg (fst (primary_signals html doc url url_lower)).
Proof.
  unfold primary_signals.
  destruct (_count_real_addresses html doc) as [ac asg] eqn:Ea.
  destruct (_count_coordinates html) as [cc csg] eqn:Ec.
  assert (HA : forall s, asg = Some s -> nonneg s).
  { intros s Hs. pose proof (count_real_addresses_points html doc s) as P.
    rewrite Ea in P. unfold nonneg. destruct (P Hs) as [-> | ->]; lia. }
  assert (HC : forall s, csg = Some s -> nonneg s).
  { intros s Hs. pose proof (count_coordinates_points html s) as P.
    rewrite Ec in P. unfold nonneg. destruct (P Hs) as [-> | ->]; lia. }
  destruct (_detect_google_maps_strict html doc) as [m|] eqn:Em;
  destruct (_detect_location_finder_form html doc) as [l|] eqn:El;
  destruct_ifs; cbn [fst];
  repeat first [ apply Forall_app; split | apply Forall_app_opt | apply Forall_cons
               | apply Forall_nil | assumption ];
  unfold nonneg; simpl; try lia.
  all: first [ exact (google_maps_strict_nonneg _ _ _ Em)
             | destruct (detect_forms_points _ _ El) as [-> | ->]; lia ].
Qed.


Ltac in_tac :=
  solve [simpl; repeat (first [ left; reflexivity | right ])].

Lemma primary_has html doc url url_lower :
  snd (primary_signals html doc url url_lower) = true ->
  exists sg, In sg (fst (primary_signals html doc url url_lower)) /\ (3 <= points sg)%Z.
Proof.
  unfold primary_signals.
  destruct (_count_real_addresses html doc) as [ac asg] eqn:Ea.
  destruct (_count_coordinates html) as [cc csg] eqn:Ec.
  assert (HA : Nat.leb 5 ac = true -> exists s, asg = Some s /\ points s = 10%Z).
  { intros H. apply Nat.leb_le in H.
    pose proof (count_real_addresses_list html doc) as P. rewrite Ea in P.
    destruct (P H) as [d [e He]]. simpl in He. subst asg. eexists; split; reflexivity. }
  assert (HC : Nat.leb 3 cc = true -> exists s, csg = Some s /\ points s = 8%Z).
  { intros H. apply Nat.leb_le in H.
    pose proof (count_coordinates_high html) as P. rewrite Ec in P.
    destruct (P H) as [s [Hs Hp]]. simpl in Hs. eauto. }
  destruct (Nat.leb 5 ac) eqn:E5;
    [destruct (HA eq_refl) as [sa [-> Hsa]] | destruct asg as [sa|]];
  (destruct (Nat.leb 3 cc) eqn:E3;
    [destruct (HC eq_refl) as [sc [-> Hsc]] | destruct csg as [sc|]]);
  destruct (_detect_google_maps_strict html doc) as [m|] eqn:Em;
  destruct (_detect_location_finder_form html doc) as [l|] eqn:El;
  try (assert (Hl : points l = 8%Z \/ points l = 4%Z) by exact (detect_forms_points _ _ El));
  try (destruct (Z.leb 5 (points m)) eqn:Em5; [apply Z.leb_le in Em5|]);
  destruct (existsb (fun p => search p url_lower) INDEX_URL_PATTERNS);
  destruct_ifs; cbn [fst snd]; intros H; try discriminate H;
  first [ exists l; split; [in_tac | lia]
        | exists m; split; [in_tac | lia]
        | exists sc; split; [in_tac | lia]
        | exists sa; split; [in_tac | lia]
        | exists (mkSignal "INDEX_PAGE" "high" 15 "URL is a location index page" (take 80 url));
          split; [in_tac | simpl; lia]
        | exists (mkSignal "URL_CONTEXT" "medium" 3 "URL suggests location content" (take 60 url));
          split; [in_tac | simpl; lia] ].
Qed.


(** The three ways out of [classify_html]. *)
Lemma classify_stage1 html doc url filename :
  stage1_rejects html doc url filename = true ->
  let r := classify_html html doc url filename in
  total_score r = 0%Z /\ is_location_page r = false
  /\ Forall (fun s => points s = 0%Z) (signals r).
Proof.
  unfold stage1_rejects, classify_html; cbv zeta.
  destruct (_is_error_page _ _ _); simpl; [intros _; repeat constructor|].
  destruct (_is_non_english doc && negb _); simpl; [intros _; repeat constructor|].
  destruct (_is_excluded_page_type _ _); simpl; [intros _; repeat constructor|].
  discriminate.
Qed.

Lemma classify_unscored html doc url filename :
  stage1_rejects html doc url filename = false ->
  snd (primary_signals html doc url (lower (page_url url filename))) = false ->
  let r := classify_html html doc url filename in
  total_score r = 0%Z /\ is_location_page r = false
  /\ signals r = match fst (primary_signals html doc url (lower (page_url url filename))) with
                 | [] => [mkSignal "NO_LOCATION_CONTENT" "high" 0
                            "No primary location signals found" ""]
                 | sigs => sigs
                 end.
Proof.
  unfold stage1_rejects, classify_html; cbv zeta.
  destruct (_is_error_page _ _ _); [discriminate|].
  destruct (_is_non_english doc && negb _); [discriminate|].
  destruct (_is_excluded_page_type _ _); [discriminate|].
  intros _.
  destruct (primary_signals html doc url (lower (page_url url filename))) as [sigs has].
  simpl. intros ->. simpl. destruct sigs; auto.
Qed.

Lemma classify_scored html doc url filename :
  stage1_rejects html doc url filename = false ->
  snd (primary_signals html doc url (lower (page_url url filename))) = true ->
  let r := classify_html html doc url filename in
  signals r = (fst (primary_signals html doc url (lower (page_url url filename)))
               ++ secondary_signals html doc)%list
  /\ total_score r = sum_points (signals r) /\ is_location_page r = true
  /\ (3 <= total_score r)%Z.
Proof.
  intros Hs Hp.
  pose proof (primary_has html doc url (lower (page_url url filename)) Hp) as [sg [Hin Hsg]].
  pose proof (primary_nonneg html doc url (lower (page_url url filename))) as Hn.
  pose proof (secondary_nonneg html doc) as Hn2.
  revert Hs Hp Hin Hn.
  unfold stage1_rejects, classify_html; cbv zeta.
  destruct (_is_error_page _ _ _); [discriminate|].
  destruct (_is_non_english doc && negb _); [discriminate|].
  destruct (_is_excluded_page_type _ _); [discriminate|].
  intros _.
  destruct (primary_signals html doc url (lower (page_url url filename))) as [sigs has].
  simpl. intros -> Hin Hn. simpl.
  assert (Hall : Forall nonneg (sigs ++ secondary_signals html doc))
    by (apply Forall_app; auto).
  assert (Hge : (points sg <= sum_points (sigs ++ secondary_signals html doc))%Z)
    by (apply sum_points_ge; [exact Hall | apply in_or_app; left; exact Hin]).
  unfold LOCATION_PAGE_THRESHOLD.
  destruct (Z.leb_spec 3 (sum_points (sigs ++ secondary_signals html doc))); [|lia].
  repeat split; lia.
Qed.


Lemma count_real_addresses_none html doc :
  fst (_count_real_addresses html doc) < 2 -> snd (_count_real_addresses html doc) = None.
Proof.
  unfold _count_real_addresses; cbv zeta.
  destruct (Nat.leb 5 (length (addresses_found doc))) eqn:E5; cbn [fst snd];
    [apply Nat.leb_le in E5; intros; lia|].
  destruct (Nat.leb 2 (length (addresses_found doc))) eqn:E2; cbn [fst snd];
    [apply Nat.leb_le in E2; intros; lia|reflexivity].
Qed.

Lemma count_coordinates_none html :
  fst (_count_coordinates html) = 0 -> snd (_count_coordinates html) = None.
Proof.
  unfold _count_coordinates; cbv zeta.
  match goal with |- context [Nat.leb 3 ?n] => destruct n as [|k] end; [reflexivity|].
  destruct (Nat.leb 3 (S k)); simpl; intros H; discriminate H.
Qed.

(** The primary signals of the three kinds the claims single out. *)
Lemma primary_address html doc url url_lower :
  5 <= fst (_count_real_addresses html doc) ->
  snd (primary_signals html doc url url_lower) = true
  /\ exists sa, snd (_count_real_addresses html doc) = Some sa
                /\ In sa (fst (primary_signals html doc url url_lower)).
Proof.
  intros H5.
  destruct (count_real_addresses_list html doc H5) as [d [e He]].
  split; [|exists (mkSignal "ADDRESS_LIST" "high" 10 d e); split; [exact He|]];
  unfold primary_signals;
  destruct (_count_real_addresses html doc) as [ac asg] eqn:Ea; simpl in H5, He; subst asg;
  apply Nat.leb_le in H5; rewrite H5;
  destruct (_count_coordinates html) as [cc csg];
  destruct csg as [sc|];
  destruct (_detect_google_maps_strict html doc) as [m|];
  destruct (_detect_location_finder_form html doc) as [l|];
  destruct (existsb (fun p => search p url_lower) INDEX_URL_PATTERNS);
  destruct_ifs; cbn [fst snd]; first [reflexivity | in_tac].
Qed.

Lemma primary_locator html doc url url_lower sg :
  _detect_location_finder_form html doc = Some sg ->
  snd (primary_signals html doc url url_lower) = true
  /\ In sg (fst (primary_signals html doc url url_lower)).
Proof.
  intros Hl. unfold primary_signals.
  destruct (_count_real_addresses html doc) as [ac asg].
  destruct (_count_coordinates html) as [cc csg].
  rewrite Hl.
  destruct asg as [sa|]; destruct csg as [sc|];
  destruct (_detect_google_maps_strict html doc) as [m|];
  destruct (existsb (fun p => search p url_lower) INDEX_URL_PATTERNS);
  destruct_ifs; cbn [fst snd]; (split; [reflexivity | in_tac]).
Qed.

Lemma primary_none html doc url url_lower :
  existsb (fun p => search p url_lower) INDEX_URL_PATTERNS = false ->
  fst (_count_real_addresses html doc) < 5 ->
  fst (_count_coordinates html) < 3 ->
  (forall m, _detect_google_maps_strict html doc = Some m -> (points m < 5)%Z) ->
  _detect_location_finder_form html doc = None ->
  _has_location_url url_lower = false ->
  snd (primary_signals html doc url url_lower) = false.
Proof.
  intros Hi Ha Hc Hm Hl Hu. unfold primary_signals.
  rewrite Hi, Hl, Hu.
  destruct (_count_real_addresses html doc) as [ac asg]; simpl in Ha.
  destruct (_count_coordinates html) as [cc csg]; simpl in Hc.
  assert (E5 : Nat.leb 5 ac = false) by (apply Nat.leb_gt; lia).
  assert (E3 : Nat.leb 3 cc = false) by (apply Nat.leb_gt; lia).
  rewrite E5, E3.
  destruct (_detect_google_maps_strict html doc) as [m|].
  - assert (Em : Z.leb 5 (points m) = false) by (apply Z.leb_gt; apply Hm; reflexivity).
    rewrite Em. destruct_ifs; reflexivity.
  - destruct_ifs; reflexivity.
Qed.

Lemma primary_single_link html doc url url_lower m :
  _detect_google_maps_strict html doc = Some m -> (points m < 5)%Z ->
  existsb (fun p => search p url_lower) INDEX_URL_PATTERNS = false ->
  _has_location_url url_lower = false ->
  fst (_count_real_addresses html doc) < 2 ->
  fst (_count_coordinates html) = 0 ->
  _detect_location_finder_form html doc = None ->
  primary_signals html doc url url_lower = ([m], false).
Proof.
  intros Hm Hp Hi Hu Ha Hc Hl. unfold primary_signals.
  pose proof (count_real_addresses_none html doc Ha) as Na.
  pose proof (count_coordinates_none html Hc) as Nc.
  rewrite Hi, Hm, Hl, Hu.
  destruct (_count_real_addresses html doc) as [ac asg]; simpl in Ha, Na; subst asg.
  destruct (_count_coordinates html) as [cc csg]; simpl in Hc, Nc; subst cc csg.
  assert (E5 : Nat.leb 5 ac = false) by (apply Nat.leb_gt; lia).
  assert (E2 : Nat.leb 2 ac = false) by (apply Nat.leb_gt; lia).
  assert (Em : Z.leb 5 (points m) = false) by (apply Z.leb_gt; lia).
  rewrite E5, E2, Em. reflexivity.
Qed.

(** [_detect_location_finder_form] returns the signal of the first form that
    is not a quote form and has finder words or a radius term. *)
Lemma detect_forms_some forms sg :
  detect_forms forms = Some sg ->
  exists f, In f forms /\ is_quote_form f = false
            /\ (has_finder_language f || has_radius f) = true
            /\ sg = (if has_finder_language f
                     then mkSignal "LOCATION_FINDER" "high" 8 "Location finder/locator form"
                            "Form with location search capability"
                     else mkSignal "LOCATION_SEARCH" "medium" 4 "Search form with radius/distance"
                            "Form with radius search").
Proof.
  induction forms as [|f rest IH]; simpl; [discriminate|].
  destruct (has_finder_language f) eqn:Ef; destruct (is_quote_form f) eqn:Eq;
    destruct (has_radius f) eqn:Er; simpl;
    try (intros H; inversion H; subst; exists f; rewrite Ef, Eq, Er; auto; fail);
    intros H; destruct (IH H) as [g [Hg Hrest]]; exists g; auto.
Qed.

Lemma detect_forms_none forms :
  forallb (fun f => is_quote_form f || negb (has_finder_language f || has_radius f)) forms = true ->
  detect_forms forms = None.
Proof.
  induction forms as [|f rest IH]; simpl; [reflexivity|].
  intros H. apply andb_true_iff in H. destruct H as [Hf Hr].
  destruct (has_finder_language f), (is_quote_form f), (has_radius f);
    simpl in *; try discriminate Hf; apply IH; exact Hr.
Qed.

Lemma accepted_total_ge3 html doc url filename :
  is_location_page (classify_html html doc url filename) = true ->
  (3 <= total_score (classify_html html doc url filename))%Z.
Proof.
  destruct (stage1_rejects html doc url filename) eqn:Hs.
  - destruct (classify_stage1 html doc url filename Hs) as [_ [-> _]]. discriminate.
  - destruct (snd (primary_signals html doc url (lower (page_url url filename)))) eqn:Hh.
    + destruct (classify_scored html doc url filename Hs Hh) as [_ [_ [_ H3]]]. auto.
    + destruct (classify_unscored html doc url filename Hs Hh) as [_ [-> _]]. discriminate.
Qed.

(** A form that is not a quote form and has a radius term makes
    [detect_forms] return a signal (its own or an earlier form's). *)
Lemma detect_forms_radius forms f :
  In f forms -> is_quote_form f = false -> has_radius f = true ->
  exists sg, detect_forms forms = Some sg.
Proof.
  induction forms as [|g rest IH]; simpl; [contradiction|].
  intros Hin Hq Hr.
  destruct (has_finder_language g && negb (is_quote_form g)); [eauto|].
  destruct (has_radius g && negb (is_quote_form g)) eqn:Eg; [eauto|].
  destruct Hin as [->|Hin].
  - rewrite Hq, Hr in Eg. discriminate Eg.
  - exact (IH Hin Hq Hr).
Qed.

End ClassifierFacts.

(* ------------------------------------------------------------------ *)
(** ** Scores of a classified page *)

Module ScoreClaims.
Import Classifier ClassifierFacts ClassifierInputs.

(** C9: every signal [classify_html] emits carries points of at least 0.
    An accepted page's [total_score] is the plain sum of its signals'
    points, at least 3, so the [max(0, ...)] clamp does not change it.  A
    rejected page gets [total_score] 0, and [url_priority] stays [""]:
    [_get_url_priority] is never called. *)
Theorem classify_html_score_invariant html doc url filename :
  let r := classify_html html doc url filename in
  Forall (fun sg => (0 <= points sg)%Z) (signals r)
  /\ (if is_location_page r
      then total_score r = sum_points (signals r) /\ (3 <= total_score r)%Z
      else total_score r = 0%Z)
  /\ url_priority r = "".
Proof.
  cbv zeta.
  assert (Hp : url_priority (classify_html html doc url filename) = "").
  { unfold classify_html; cbv zeta.
    destruct (_is_error_page _ _ _); [reflexivity|].
    destruct (_is_non_english doc && negb _); [reflexivity|].
    destruct (_is_excluded_page_type _ _); [reflexivity|].
    destruct (primary_signals _ _ _ _) as [sigs has].
    destruct (negb has); reflexivity. }
  destruct (stage1_rejects html doc url filename) eqn:Hs.
  - destruct (classify_stage1 html doc url filename Hs) as [Ht [Ha Hz]].
    rewrite Ha. split; [|split; [exact Ht | exact Hp]].
    eapply Forall_impl; [|exact Hz]. intros a Ha0; simpl in Ha0; lia.
  - destruct (snd (primary_signals html doc url (lower (page_url url filename)))) eqn:Hh.
    + destruct (classify_scored html doc url filename Hs Hh) as [Hsig [Ht [Ha H3]]].
      rewrite Ha. split; [|split; [split; assumption | exact Hp]].
      rewrite Hsig. apply Forall_app; split;
        [apply primary_nonneg | apply secondary_nonneg].
    + destruct (classify_unscored html doc url filename Hs Hh) as [Ht [Ha Hsig]].
      rewrite Ha. split; [|split; [exact Ht | exact Hp]].
      rewrite Hsig. pose proof (primary_nonneg html doc url (lower (page_url url filename))) as Hn.
      destruct (fst (primary_signals _ _ _ _)); [repeat constructor; simpl; lia | exact Hn].
Qed.

(** C9, counterexample: a rejected page keeps its signals.  The page with
    one address gets the 3-point [ADDRESS_PAIR] signal, so its signals sum
    to 3, yet its [total_score] is 0. *)
Lemma rejected_page_total_differs_from_sum :
  let r := classify_html (text_page_html one_address) (text_page_doc one_address) about_url "" in
  sum_points (signals r) = 3%Z /\ total_score r = 0%Z /\ is_location_page r = false.
Proof. vm_compute. repeat split. Qed.

End ScoreClaims.

(* ------------------------------------------------------------------ *)
(** ** A single Google Maps link *)

Module MapsLinkClaims.
Import Classifier ClassifierFacts ClassifierInputs.

Definition single_link_signal : LocationSignal :=
  mkSignal "GOOGLE_MAPS_LINK" "low" 1 "Single Google Maps link (likely HQ only)"
           "maps.google.com link".

(** C4: take a page whose only evidence is the 1-point single Google Maps
    link: no address or coordinate signal, no finder form, and a URL that
    matches no index pattern and has no location keyword.  [classify_html]
    gives it [total_score] 0 and rejects it.  If Step 1 did not reject the
    page, the link's signal is the page's only recorded signal.  And for
    every page, acceptance means a [total_score] of at least 3. *)
Theorem single_maps_link_rejected :
  (forall html doc url filename,
     let url_lower := lower (page_url url filename) in
     _detect_google_maps_strict html doc = Some single_link_signal ->
     existsb (fun p => search p url_lower) INDEX_URL_PATTERNS = false ->
     _has_location_url url_lower = false ->
     fst (_count_real_addresses html doc) < 2 ->
     fst (_count_coordinates html) = 0 ->
     _detect_location_finder_form html doc = None ->
     let r := classify_html html doc url filename in
     total_score r = 0%Z /\ is_location_page r = false
     /\ (stage1_rejects html doc url filename = false -> signals r = [single_link_signal]))
  /\ (forall html doc url filename,
        let r := classify_html html doc url filename in
        is_location_page r = true -> (3 <= total_score r)%Z).
Proof.
  split.
  - intros html doc url filename url_lower Hm Hi Hu Ha Hc Hl. cbv zeta.
    destruct (stage1_rejects html doc url filename) eqn:Hs.
    + destruct (classify_stage1 html doc url filename Hs) as [Ht [Hn _]].
      repeat split; auto. discriminate.
    + assert (Hp : primary_signals html doc url (lower (page_url url filename))
                   = ([single_link_signal], false))
        by (apply primary_single_link; auto; reflexivity).
      assert (Hh : snd (primary_signals html doc url (lower (page_url url filename))) = false)
        by (rewrite Hp; reflexivity).
      destruct (classify_unscored html doc url filename Hs Hh) as [Ht [Hn Hsig]].
      rewrite Hp in Hsig. repeat split; auto.
  - intros html doc url filename. cbv zeta. intros Ha.
    exact (accepted_total_ge3 html doc url filename Ha).
Qed.

(** Witness for C4: the hq_map page meets every hypothesis. *)
Lemma single_maps_link_rejected_witness :
  total_score (classify_html hq_map_html hq_map_doc about_url "") = 0%Z
  /\ is_location_page (classify_html hq_map_html hq_map_doc about_url "") = false.
Proof.
  destruct (proj1 single_maps_link_rejected hq_map_html hq_map_doc about_url "")
    as [Ht [Hn _]].
  - vm_compute. reflexivity.
  - vm_compute. reflexivity.
  - vm_compute. reflexivity.
  - vm_compute. lia.
  - vm_compute. reflexivity.
  - vm_compute. reflexivity.
  - split; [exact Ht | exact Hn].
Defined.

(** Counterexample for C4: a page with only a single Google Maps link
    keeps the 1-point GOOGLE_MAPS_LINK signal but scores 0, not 1. *)
Lemma single_maps_link_page_scores_zero :
  let r := classify_html hq_map_html hq_map_doc about_url "" in
  signals r = [single_link_signal] /\ total_score r = 0%Z
  /\ is_location_page r = false.
Proof. vm_compute. repeat split. Qed.

End MapsLinkClaims.

(* ------------------------------------------------------------------ *)
Module AddressClaims.
Import Classifier ClassifierFacts ClassifierInputs.

(** C3: the address count is the number of distinct stripped matches of
    [ADDRESS_PATTERNS] longer than 15 characters in the main text.  If Step 1
    keeps a page and that count is at least 5, the page is accepted with a
    high-confidence 10-point ADDRESS_LIST signal.  If the count is below 5
    and no other primary signal fires (no index URL, fewer than 3
    coordinates, no strong map, no finder form, no location keyword in the
    URL), the page is rejected with [total_score] 0. *)
Theorem address_count_classification :
  (forall html doc url filename,
     stage1_rejects html doc url filename = false ->
     5 <= fst (_count_real_addresses html doc) ->
     let r := classify_html html doc url filename in
     is_location_page r = true
     /\ exists d e, In (mkSignal "ADDRESS_LIST" "high" 10 d e) (signals r))
  /\ (forall html doc url filename,
        let url_lower := lower (page_url url filename) in
        fst (_count_real_addresses html doc) < 5 ->
        existsb (fun p => search p url_lower) INDEX_URL_PATTERNS = false ->
        _has_location_url url_lower = false ->
        fst (_count_coordinates html) < 3 ->
        (forall m, _detect_google_maps_strict html doc = Some m -> (points m < 5)%Z) ->
        _detect_location_finder_form html doc = None ->
        let r := classify_html html doc url filename in
        total_score r = 0%Z /\ is_location_page r = false).
Proof.
  split.
  - intros html doc url filename Hs H5. cbv zeta.
    destruct (primary_address html doc url (lower (page_url url filename)) H5)
      as [Hh [sa [Hsa Hin]]].
    destruct (classify_scored html doc url filename Hs Hh) as [Hsig [_ [Hacc _]]].
    split; [exact Hacc|].
    destruct (count_real_addresses_list html doc H5) as [d [e He]].
    exists d, e. rewrite Hsig. apply in_or_app. left.
    rewrite Hsa in He. injection He as <-. exact Hin.
  - intros html doc url filename url_lower Ha Hi Hu Hc Hm Hl. cbv zeta.
    destruct (stage1_rejects html doc url filename) eqn:Hs.
    + destruct (classify_stage1 html doc url filename Hs) as [Ht [Hn _]]. auto.
    + pose proof (primary_none html doc url url_lower Hi Ha Hc Hm Hl Hu) as Hh.
      destruct (classify_unscored html doc url filename Hs Hh) as [Ht [Hn _]]. auto.
Qed.

(** Witness for C3: the page of five comma-separated addresses meets the
    first part, the page of one address the second. *)
Lemma address_count_classification_witness :
  is_location_page (classify_html (text_page_html five_addresses)
                      (text_page_doc five_addresses) about_url "") = true
  /\ total_score (classify_html (text_page_html one_address)
                    (text_page_doc one_address) about_url "") = 0%Z.
Proof.
  split.
  - destruct (proj1 address_count_classification (text_page_html five_addresses)
                (text_page_doc five_addresses) about_url "") as [Hacc _].
    + vm_compute. reflexivity.
    + vm_compute. lia.
    + exact Hacc.
  - destruct (proj2 address_count_classification (text_page_html one_address)
                (text_page_doc one_address) about_url "") as [Ht _].
    + vm_compute. lia.
    + vm_compute. reflexivity.
    + vm_compute. reflexivity.
    + vm_compute. lia.
    + intros m Hm. vm_compute in Hm. discriminate Hm.
    + vm_compute. reflexivity.
    + exact Ht.
Defined.

(** Counterexample for C3: five postal addresses written without commas.
    The greedy [[\w\s]+] of the first pattern runs across all five, so the
    page has one match, no address signal, and is rejected with score 0
    although Step 1 keeps it. *)
Lemma five_addresses_without_commas_rejected :
  let html := text_page_html five_addresses_no_commas in
  let doc := text_page_doc five_addresses_no_commas in
  let r := classify_html html doc about_url "" in
  stage1_rejects html doc about_url "" = false
  /\ addresses_found doc = [five_addresses_no_commas]
  /\ is_location_page r = false /\ total_score r = 0%Z.
Proof. vm_compute. repeat split. Qed.

End AddressClaims.

(* ------------------------------------------------------------------ *)
Module FormClaims.
Import Classifier ClassifierFacts ClassifierInputs.

Definition location_search_signal : LocationSignal :=
  mkSignal "LOCATION_SEARCH" "medium" 4 "Search form with radius/distance"
           "Form with radius search".

(** C2: [_detect_location_finder_form] returns a signal only for a form that
    is not a quote form (no quote, lead, contact, order or ship in its HTML
    or action) and has finder words or a radius term; the signal is
    LOCATION_FINDER (8 points) when the form has finder words, else
    LOCATION_SEARCH (4 points).  If Step 1 keeps the page, that signal is
    recorded and the page is accepted.  A non-quote form with a radius term
    always yields a signal, with or without finder words, and a page whose
    forms are all quote forms or have neither finder words nor a radius
    term yields none. *)
Theorem finder_form_signal :
  (forall html doc url filename sg,
     _detect_location_finder_form html doc = Some sg ->
     (exists f, In f (doc_forms doc) /\ is_quote_form f = false
                /\ (has_finder_language f || has_radius f) = true
                /\ sg = (if has_finder_language f
                         then mkSignal "LOCATION_FINDER" "high" 8 "Location finder/locator form"
                                "Form with location search capability"
                         else location_search_signal))
     /\ (stage1_rejects html doc url filename = false ->
         let r := classify_html html doc url filename in
         is_location_page r = true /\ In sg (signals r)))
  /\ (forall html doc f,
        In f (doc_forms doc) -> is_quote_form f = false -> has_radius f = true ->
        exists sg, _detect_location_finder_form html doc = Some sg)
  /\ (forall html doc,
        forallb (fun f => is_quote_form f || negb (has_finder_language f || has_radius f))
                (doc_forms doc) = true ->
        _detect_location_finder_form html doc = None).
Proof.
  split; [|split].
  - intros html doc url filename sg Hd. split.
    + exact (detect_forms_some (doc_forms doc) sg Hd).
    + intros Hs. cbv zeta.
      destruct (primary_locator html doc url (lower (page_url url filename)) sg Hd)
        as [Hh Hin].
      destruct (classify_scored html doc url filename Hs Hh) as [Hsig [_ [Hacc _]]].
      split; [exact Hacc|]. rewrite Hsig. apply in_or_app. left. exact Hin.
  - intros html doc f. exact (detect_forms_radius (doc_forms doc) f).
  - intros html doc. exact (detect_forms_none (doc_forms doc)).
Qed.

(** Witness for C2: the page whose one form has a radius field. *)
Lemma finder_form_signal_witness :
  In location_search_signal
     (signals (classify_html (form_page_html radius_form) (form_page_doc radius_form)
                 about_url ""))
  /\ _detect_location_finder_form (text_page_html one_address)
       (text_page_doc one_address) = None.
Proof.
  split.
  - destruct (proj2 (proj1 finder_form_signal (form_page_html radius_form)
                       (form_page_doc radius_form) about_url "" location_search_signal
                       ltac:(vm_compute; reflexivity)))
      as [_ Hin].
    + vm_compute. reflexivity.
    + exact Hin.
  - apply (proj2 (proj2 finder_form_signal)). vm_compute. reflexivity.
Defined.

(** Counterexample for C2: a form with a radius field and no finder words
    gives the LOCATION_SEARCH signal, and the page is accepted with score 4. *)
Lemma radius_only_form_accepted :
  let html := form_page_html radius_form in
  let doc := form_page_doc radius_form in
  let r := classify_html html doc about_url "" in
  has_finder_language radius_form = false /\ has_radius radius_form = true
  /\ is_quote_form radius_form = false
  /\ _detect_location_finder_form html doc = Some location_search_signal
  /\ is_location_page r = true /\ total_score r = 4%Z.
Proof. vm_compute. repeat split. Qed.

End FormClaims.

(* ------------------------------------------------------------------ *)
Module ReportFacts.
Import Classifier ReportReader.

Lemma read_page_json p : read_page (page_json p) = Some (page_summary p).
Proof. reflexivity. Qed.

Lemma read_pages_json ps :
  map_option read_page (map page_json ps) = Some (map page_summary ps).
Proof.
  induction ps as [|p ps IH]; [reflexivity|].
  cbn [map map_option]. rewrite read_page_json, IH. reflexivity.
Qed.

Lemma read_counts_json (m : list (string * nat)) :
  map_option read_count (map (fun kv => (fst kv, JInt (Z.of_nat (snd kv)))) m) = Some m.
Proof.
  induction m as [|[k n] m IH]; [reflexivity|].
  cbn [map map_option]. rewrite IH. unfold read_count; cbn [fst snd].
  rewrite Nat2Z.id. reflexivity.
Qed.

Lemma json_get_entries c (reports : list (string * CarrierReport)) :
  json_get c (modality_report_json reports) = option_map report_json (report_lookup c reports).
Proof.
  unfold modality_report_json, json_get, report_lookup.
  induction reports as [|[c' r] reports IH]; [reflexivity|].
  cbn [map find fst snd]. destruct (String.eqb c' c); [reflexivity|exact IH].
Qed.

(** The score of the head of a list is at most [x]. *)
Definition hd_le (x : Z) (ps : list PageClassification) : bool :=
  match ps with q :: _ => Z.leb (total_score q) x | [] => true end.

Lemma sorted_cons p ps :
  sorted_by_score (p :: ps) = hd_le (total_score p) ps && sorted_by_score ps.
Proof. destruct ps as [|q ps]; reflexivity. Qed.

Lemma hd_le_insert x p ps :
  (total_score p <= x)%Z -> hd_le x ps = true -> hd_le x (insert_by_score p ps) = true.
Proof.
  intros Hp Hps. destruct ps as [|q ps]; simpl.
  - apply Z.leb_le. exact Hp.
  - destruct (Z.ltb (total_score q) (total_score p)); simpl; [apply Z.leb_le; exact Hp|exact Hps].
Qed.

Lemma sorted_insert p ps :
  sorted_by_score ps = true -> sorted_by_score (insert_by_score p ps) = true.
Proof.
  induction ps as [|q ps IH]; [reflexivity|].
  intros Hs. cbn [insert_by_score].
  destruct (Z.ltb (total_score q) (total_score p)) eqn:E.
  - rewrite sorted_cons, Hs. simpl. apply Z.ltb_lt in E.
    rewrite andb_true_r. apply Z.leb_le. lia.
  - rewrite sorted_cons in Hs |- *. apply andb_true_iff in Hs as [Hh Hs].
    apply Z.ltb_ge in E.
    rewrite hd_le_insert, IH by assumption. reflexivity.
Qed.

Lemma sorted_sort ps : sorted_by_score (sort_by_score ps) = true.
Proof.
  unfold sort_by_score.
  assert (H : forall acc, sorted_by_score acc = true ->
                sorted_by_score (fold_left (fun acc p => insert_by_score p acc) ps acc) = true).
  { induction ps as [|p ps IH]; intros acc Hacc; [exact Hacc|].
    cbn [fold_left]. apply IH. apply sorted_insert. exact Hacc. }
  apply H. reflexivity.
Qed.

Lemma hd_le_firstn x n ps : hd_le x ps = true -> hd_le x (firstn n ps) = true.
Proof. destruct n, ps; auto. Qed.

Lemma sorted_firstn n ps : sorted_by_score ps = true -> sorted_by_score (firstn n ps) = true.
Proof.
  revert ps. induction n as [|n IH]; intros ps Hs; [reflexivity|].
  destruct ps as [|p ps]; [reflexivity|].
  cbn [firstn]. rewrite sorted_cons in Hs |- *. apply andb_true_iff in Hs as [Hh Hs].
  rewrite hd_le_firstn, IH by assumption. reflexivity.
Qed.

Lemma carrier_top_pages name dom files :
  exists all, top_pages (classify_carrier name dom files) = firstn 20 (sort_by_score all).
Proof.
  unfold classify_carrier.
  destruct (fold_left _ files _) as [[lp mc] all]. eexists. reflexivity.
Qed.

End ReportFacts.

(* ------------------------------------------------------------------ *)
Module ReportClaims.
Import Classifier ReportReader ReportFacts ClassifierInputs.

(** C8: reading back the JSON entry that [generate_modality_report] writes
    for a carrier gives the url, title and score of the first
    [min(10, n)] of the report's [n] top pages, in the report's order, and
    exactly its [modalities_found] counts; each carrier's entry is the JSON
    of its own report.  The [top_pages] of [classify_carrier] are in order
    of non-increasing [total_score] and number at most 20. *)
Theorem report_json_round_trip :
  (forall r : CarrierReport,
     read_top_pages (report_json r) = Some (map page_summary (firstn 10 (top_pages r)))
     /\ read_modalities (report_json r) = Some (modalities_found r))
  /\ (forall c reports,
        json_get c (modality_report_json reports)
        = option_map report_json (report_lookup c reports))
  /\ (forall name dom files,
        let r := classify_carrier name dom files in
        sorted_by_score (top_pages r) = true /\ length (top_pages r) <= 20).
Proof.
  split; [|split].
  - intros r. split.
    + unfold read_top_pages. exact (read_pages_json (firstn 10 (top_pages r))).
    + unfold read_modalities. exact (read_counts_json (modalities_found r)).
  - exact json_get_entries.
  - intros name dom files. cbv zeta.
    destruct (carrier_top_pages name dom files) as [all ->]. split.
    + apply sorted_firstn, sorted_sort.
    + rewrite length_firstn. lia.
Qed.

(** Counterexample for C8: a carrier with eleven accepted pages has eleven
    top pages, but its JSON entry reads back only ten. *)
Lemma eleven_top_pages_read_back_ten :
  let r := classify_carrier "X" "x.com" index_pages in
  length (top_pages r) = 11
  /\ option_map (@length _) (read_top_pages (report_json r)) = Some 10.
Proof. vm_compute. split; reflexivity. Qed.

End ReportClaims.

(* ------------------------------------------------------------------ *)
(** ** Further properties of the crawl loop *)

Module CrawlLoopFacts.
Import Crawler CrawlerFacts.

Lemma enqueue_links_fields (st : crawler) (links : list string) :
  let st' := enqueue_links st links in
  base_url st' = base_url st /\ domain st' = domain st
  /\ visited_urls st' = visited_urls st /\ failed_urls st' = failed_urls st
  /\ pages_data st' = pages_data st /\ fetch_log st' = fetch_log st.
Proof.
  revert st. induction links as [|x links IH]; intros st; [repeat split|].
  cbn [enqueue_links].
  match goal with |- context [enqueue_links ?s links] =>
    assert (Hs : base_url s = base_url st /\ domain s = domain st
                 /\ visited_urls s = visited_urls st /\ failed_urls s = failed_urls st
                 /\ pages_data s = pages_data st /\ fetch_log s = fetch_log st)
      by (repeat match goal with |- context [if ?b then _ else _] => destruct b end;
          repeat split);
    destruct (IH s) as (H1 & H2 & H3 & H4 & H5 & H6)
  end.
  cbv zeta in *. destruct Hs as (E1 & E2 & E3 & E4 & E5 & E6).
  rewrite H1, H2, H3, H4, H5, H6, E1, E2, E3, E4, E5, E6. repeat split.
Qed.

(** One iteration either skips a URL already seen, leaving the recorded
    state unchanged, or visits a fresh URL, which then ends either in
    [failed_urls] or in exactly one new page record. *)
Lemma step_cases (render : Render) (st st' : crawler) :
  crawl_step render st = Some st' ->
  (visited_urls st' = visited_urls st /\ failed_urls st' = failed_urls st
   /\ pages_data st' = pages_data st /\ fetch_log st' = fetch_log st)
  \/ exists url, ~ In url (visited_urls st) /\ ~ In url (failed_urls st)
       /\ length (visited_urls st) < MAX_PAGES_PER_SITE
       /\ visited_urls st' = (visited_urls st ++ [url])%list
       /\ fetch_log st' = (fetch_log st ++ [url])%list
       /\ ((failed_urls st' = (failed_urls st ++ [url])%list /\ pages_data st' = pages_data st)
           \/ (failed_urls st' = failed_urls st
               /\ exists pd, pd_url pd = url /\ pages_data st' = (pages_data st ++ [pd])%list)).
Proof.
  unfold crawl_step. destruct (urls_to_visit st) as [|url rest]; [discriminate|].
  destruct (Nat.ltb (length (visited_urls st)) MAX_PAGES_PER_SITE) eqn:Hlt; [|discriminate].
  apply Nat.ltb_lt in Hlt.
  cbn [set_queue visited_urls failed_urls].
  destruct (mem url (visited_urls st) || mem url (failed_urls st)) eqn:Hskip.
  - intros H. injection H as <-. left. repeat split.
  - apply orb_false_iff in Hskip as [Hv Hf].
    apply mem_false in Hv. apply mem_false in Hf.
    intros H. right. exists url.
    do 3 (split; [assumption|]).
    unfold crawl_page in H.
    cbn [set_queue base_url domain urls_to_visit visited_urls failed_urls pages_data
         fetch_log enqueue_log] in H.
    rewrite (set_add_fresh _ _ Hv) in H. rewrite (set_add_fresh _ _ Hf) in H.
    destruct (render url) as [r|].
    + destruct (Z.leb 400 (resp_status r)).
      * injection H as <-. repeat split. left. split; reflexivity.
      * injection H as <-.
        match goal with |- context [enqueue_links ?s ?l] =>
          destruct (enqueue_links_fields s l) as (_ & _ & -> & -> & -> & ->) end.
        cbn [add_page visited_urls failed_urls pages_data fetch_log].
        repeat split. right. split; [reflexivity|]. eexists. split; [|reflexivity]. reflexivity.
    + injection H as <-. repeat split. left. split; reflexivity.
Qed.

Lemma loop_preserves (P : crawler -> Prop) (render : Render) :
  (forall st st', P st -> crawl_step render st = Some st' -> P st') ->
  forall fuel st, P st -> P (crawl_loop render fuel st).
Proof.
  intros Hstep fuel. induction fuel as [|f IH]; intros st H; simpl; [exact H|].
  destruct (crawl_step render st) as [st'|] eqn:E; [|exact H].
  apply IH. exact (Hstep st st' H E).
Qed.

Lemma loop_visited_bound (render : Render) (fuel : nat) (st : crawler) :
  length (visited_urls st) <= MAX_PAGES_PER_SITE ->
  length (visited_urls (crawl_loop render fuel st)) <= MAX_PAGES_PER_SITE.
Proof.
  intros H0. apply loop_preserves; [|exact H0]. intros s s' Hs E.
  destruct (step_cases render s s' E) as [(-> & _) | (url & _ & _ & Hlt & -> & _)];
    [exact Hs|].
  rewrite length_app. unfold MAX_PAGES_PER_SITE in *. simpl. lia.
Qed.

Lemma loop_fetch_prefix (render : Render) (fuel : nat) (st : crawler) :
  exists more, fetch_log (crawl_loop render fuel st) = (fetch_log st ++ more)%list.
Proof.
  revert st. induction fuel as [|f IH]; intros st; simpl.
  - exists []. rewrite app_nil_r. reflexivity.
  - destruct (crawl_step render st) as [st'|] eqn:E; [|exists []; rewrite app_nil_r; reflexivity].
    destruct (IH st') as [more Hm]. rewrite Hm.
    destruct (step_cases render st st' E) as [(_ & _ & _ & ->) | (url & _ & _ & _ & _ & -> & _)].
    + eauto.
    + rewrite <- app_assoc. eauto.
Qed.

(** Visited URLs split into page records and failures. *)
Definition partitioned (st : crawler) : Prop :=
  Permutation (visited_urls st) (map pd_url (pages_data st) ++ failed_urls st).

Lemma loop_partitioned (render : Render) (fuel : nat) (st : crawler) :
  partitioned st -> partitioned (crawl_loop render fuel st).
Proof.
  intros H0. apply loop_preserves; [|exact H0]. unfold partitioned. intros s s' Hs E.
  destruct (step_cases render s s' E)
    as [(-> & -> & -> & _) | (url & _ & _ & _ & -> & _ & [(-> & ->) | (-> & pd & Hpd & ->)])].
  - exact Hs.
  - rewrite app_assoc. apply Permutation_app_tail. exact Hs.
  - rewrite map_app. cbn [map]. rewrite Hpd, <- app_assoc. cbn [app].
    eapply Permutation_trans; [apply Permutation_app_comm|]. cbn [app].
    apply Permutation_cons_app. exact Hs.
Qed.

Lemma crawl_partitioned (render : Render) (base : string) (seeds : list string) (fuel : nat) :
  partitioned (crawl render base seeds fuel).
Proof. apply loop_partitioned. unfold partitioned. reflexivity. Qed.

(** The first iteration of a fresh crawl fetches the base URL. *)
Lemma start_step (render : Render) (base : string) (seeds : list string) :
  exists st1, crawl_step render (start_crawl base seeds) = Some st1
              /\ fetch_log st1 = [rstrip_char "/" base].
Proof.
  unfold crawl_step, start_crawl, seed_queue, set_queue, new_crawler. cbn [app urls_to_visit].
  cbn [visited_urls failed_urls length Nat.ltb Nat.leb MAX_PAGES_PER_SITE mem orb].
  unfold crawl_page. cbn [base_url domain urls_to_visit visited_urls failed_urls pages_data
                          fetch_log enqueue_log set_add mem app].
  destruct (render (rstrip_char "/" base)) as [r|].
  - destruct (Z.leb 400 (resp_status r)).
    + eexists. split; reflexivity.
    + eexists. split; [reflexivity|].
      match goal with |- fetch_log (enqueue_links ?s ?l) = _ =>
        destruct (enqueue_links_fields s l) as (_ & _ & _ & _ & _ & ->) end.
      reflexivity.
  - eexists. split; reflexivity.
Qed.

End CrawlLoopFacts.

Module CrawlLoopExtras.
Import UrlLib Crawler CrawlerFacts CrawlLoopFacts CrawlReport.

(** [PageCrawler.crawl] never records more than [MAX_PAGES_PER_SITE]
    (200) visited URLs, whatever the site serves. *)
Theorem crawl_visits_at_most_max_pages (render : Render) (base : string)
        (seeds : list string) (fuel : nat) :
  length (visited_urls (crawl render base seeds fuel)) <= MAX_PAGES_PER_SITE.
Proof.
  apply loop_visited_bound. unfold start_crawl, set_queue, new_crawler. simpl.
  unfold MAX_PAGES_PER_SITE. lia.
Qed.

(** Once the loop runs at all, the first URL handed to [page.goto] is the
    base URL with its trailing slashes removed. *)
Theorem crawl_fetches_homepage_first (render : Render) (base : string)
        (seeds : list string) (fuel : nat) :
  1 <= fuel ->
  exists rest, fetch_log (crawl render base seeds fuel) = rstrip_char "/" base :: rest.
Proof.
  intros Hf. destruct fuel as [|f]; [lia|].
  unfold crawl. cbn [crawl_loop].
  destruct (start_step render base seeds) as (st1 & -> & Hlog).
  destruct (loop_fetch_prefix render f st1) as [more ->]. rewrite Hlog.
  exists more. reflexivity.
Qed.

Lemma crawl_fetches_homepage_first_witness :
  1 <= 1 /\ exists rest,
    fetch_log (crawl (fun _ => None) "https://www.x.com/" ["https://www.x.com/terminals"] 1)
    = rstrip_char "/" "https://www.x.com/" :: rest.
Proof.
  split; [lia|].
  apply (crawl_fetches_homepage_first (fun _ => None) "https://www.x.com/"
           ["https://www.x.com/terminals"] 1).
  lia.
Defined.

(** Every visited URL is accounted for exactly once: either as the URL of
    a recorded page or as a failed URL. *)
Theorem crawl_visited_split (render : Render) (base : string) (seeds : list string) (fuel : nat) :
  let r := crawl render base seeds fuel in
  Permutation (visited_urls r) (map pd_url (pages_data r) ++ failed_urls r).
Proof. apply crawl_partitioned. Qed.

Lemma no_signal_pages (rendered : page_data -> string * string) (pds : list page_data) :
  filter pdict_has_location_data
    (map (fun pd => let '(html, title) := rendered pd in page_dict_of pd html title) pds) = [].
Proof.
  induction pds as [|pd pds IH]; [reflexivity|].
  cbn [map filter]. destruct (rendered pd). exact IH.
Qed.

(** The crawl summary of [_generate_summary]: since
    [_detect_location_signals] always returns an empty dict, no page counts
    as having location signals and the signal summary is empty; the crawled
    count is the number of page records plus the number of failures. *)
Theorem crawl_summary_counts (render : Render) (base : string) (seeds : list string)
        (fuel : nat) (name : string) (rendered : page_data -> string * string) :
  let r := crawl render base seeds fuel in
  let s := _generate_summary name rendered r in
  pages_crawled s = length (pages_data r) + pages_failed s
  /\ pages_with_location_signals s = 0
  /\ signal_summary s = []
  /\ pages_with_signals s = [].
Proof.
  cbv zeta. unfold _generate_summary. cbn [pages_crawled pages_failed
    pages_with_location_signals signal_summary pages_with_signals].
  rewrite no_signal_pages. cbn [length fold_left map].
  repeat split.
  rewrite (Permutation_length (crawl_partitioned render base seeds fuel)).
  rewrite length_app, length_map. reflexivity.
Qed.

End CrawlLoopExtras.

(* ------------------------------------------------------------------ *)
(** ** The saved HTML of [_save_page_html] *)

Module SaveHtmlFacts.
Import UrlLib Crawler Classifier CrawlReport StrFacts.

Lemma take_drop (i : nat) (s : string) : take i s ++ drop i s = s.
Proof.
  unfold take. revert i. induction s as [|c s IH]; intros [|i]; try reflexivity.
  simpl. rewrite <- (IH i) at 3. reflexivity.
Qed.

Lemma drop_add (i j : nat) (s : string) : drop (i + j) s = drop j (drop i s).
Proof.
  revert i. induction s as [|c s IH]; intros [|i]; try reflexivity.
  - destruct j; reflexivity.
  - apply IH.
Qed.

Lemma drop_app_length (p r : string) : drop (String.length p) (p ++ r) = r.
Proof. induction p as [|c p IH]; [reflexivity | exact IH]. Qed.

Lemma find_sub_some (s p : string) (i : nat) :
  find_sub s p = Some i -> startswith (drop i s) p = true.
Proof.
  revert i. induction s as [|c s IH]; intros i H; cbn [find_sub] in H.
  - destruct (startswith "" p) eqn:E; [|discriminate H]. injection H as <-. exact E.
  - destruct (startswith (String c s) p) eqn:E.
    + injection H as <-. exact E.
    + destruct (find_sub s p) as [k|]; [|discriminate H]. cbn [option_map] in H.
      injection H as <-. exact (IH k eq_refl).
Qed.

Lemma find_sub_split (s p : string) (i : nat) :
  find_sub s p = Some i -> s = take i s ++ p ++ drop (i + String.length p) s.
Proof.
  intros H. apply find_sub_some, startswith_iff in H. destruct H as [r Hr].
  rewrite drop_add, Hr, drop_app_length, <- Hr. symmetry. apply take_drop.
Qed.

Lemma find_sub_none (s p : string) : contains s p = true -> find_sub s p <> None.
Proof.
  induction s as [|c s IH]; intros H Hf; cbn [find_sub contains] in H, Hf.
  - destruct (startswith "" p); discriminate.
  - destruct (startswith (String c s) p); [discriminate Hf|]. cbn [orb] in H.
    destruct (find_sub s p); [discriminate Hf|]. exact (IH H eq_refl).
Qed.

Lemma find_char_some (c : ascii) (s : string) (j : nat) :
  find_char c s = Some j -> drop j s = String c (drop (S j) s).
Proof.
  revert j. induction s as [|d s IH]; intros j; simpl; [discriminate|].
  destruct (Ascii.eqb c d) eqn:E.
  - intros H. injection H as <-. apply Ascii.eqb_eq in E. subst. reflexivity.
  - destruct (find_char c s) as [k|]; [|discriminate]. simpl. intros H.
    injection H as <-. exact (IH k eq_refl).
Qed.

Lemma take_S_last (j : nat) (s r : string) (c : ascii) :
  drop j s = String c r -> take (S j) s = take j s ++ String c "".
Proof.
  unfold take. revert j. induction s as [|d s IH]; intros [|j]; simpl; try discriminate.
  - intros H. injection H as -> ->. destruct r; reflexivity.
  - intros H. rewrite (IH j H). reflexivity.
Qed.

Lemma contains_injected (a b url : string) :
  contains (a ++ nl ++ inject_tag url ++ b) crawler_meta_open = true.
Proof.
  apply contains_iff. unfold inject_tag.
  exists (a ++ nl), (" content=" ++ dq ++ url ++ dq ++ ">" ++ nl ++ b).
  rewrite !str_app_assoc. reflexivity.
Qed.

(** The four outcomes of [_save_page_html]. *)
Lemma save_page_html_cases (url html : string) :
  let r := _save_page_html url html in
  (contains html crawler_meta_open = true /\ r = html)
  \/ (contains html crawler_meta_open = false /\ contains html "<head>" = false
      /\ contains html "<head " = false /\ r = html)
  \/ (contains html crawler_meta_open = false /\ contains html "<head>" = true
      /\ exists a b, html = a ++ "<head>" ++ b /\ r = a ++ "<head>" ++ nl ++ inject_tag url ++ b)
  \/ (contains html crawler_meta_open = false /\ contains html "<head>" = false
      /\ contains html "<head " = true
      /\ exists a b, html = a ++ b /\ r = a ++ nl ++ inject_tag url ++ b
                     /\ (a = "" \/ exists a', a = a' ++ ">")).
Proof.
  cbv zeta. unfold _save_page_html.
  destruct (contains html crawler_meta_open) eqn:Hm; [left; split; reflexivity|].
  cbn [negb]. right.
  destruct (contains html "<head>") eqn:Hh.
  - right. left. do 2 (split; [reflexivity|]).
    unfold replace_first.
    destruct (find_sub html "<head>") as [i|] eqn:Hf;
      [|exfalso; exact (find_sub_none _ _ Hh Hf)].
    pose proof (find_sub_split _ _ _ Hf) as Hs.
    exists (take i html), (drop (i + String.length "<head>") html).
    split; [exact Hs|]. rewrite !str_app_assoc. reflexivity.
  - destruct (contains html "<head ") eqn:Hs; [|left; repeat split].
    right. right. repeat (split; [reflexivity|]).
    destruct (find_sub html "<head ") as [k|] eqn:Hf;
      [|exfalso; exact (find_sub_none _ _ Hs Hf)].
    unfold find_char_from.
    destruct (find_char ">" (drop k html)) as [j|] eqn:Hc; cbn [option_map].
    + exists (take (S (k + j)) html), (drop (S (k + j)) html).
      split; [symmetry; apply take_drop|]. split; [reflexivity|].
      right. exists (take (k + j) html).
      apply find_char_some in Hc. rewrite <- drop_add in Hc.
      exact (take_S_last _ _ _ _ Hc).
    + exists "", html. split; [reflexivity|].
      split; [unfold take; destruct html; reflexivity|]. left. reflexivity.
Qed.

Lemma startswith_app_l (a b p : string) : startswith a p = true -> startswith (a ++ b) p = true.
Proof.
  rewrite !startswith_iff. intros [r ->]. exists (r ++ b). apply str_app_assoc.
Qed.

(** [s.find(p)] finds the first occurrence: the text before it does not
    contain [p]. *)
Lemma find_sub_first (s p : string) (i : nat) :
  is_empty p = false -> find_sub s p = Some i -> contains (take i s) p = false.
Proof.
  intros Hp. revert i. induction s as [|c s IH]; intros i H; cbn [find_sub] in H.
  - destruct p; [discriminate Hp|]. discriminate H.
  - destruct (startswith (String c s) p) eqn:E.
    + injection H as <-. destruct p; [discriminate Hp | reflexivity].
    + destruct (find_sub s p) as [k|] eqn:Hk; [|discriminate H]. cbn [option_map] in H.
      injection H as <-. unfold take. cbn [substring]. cbn [contains].
      fold (take k s). rewrite (IH k eq_refl), orb_false_r.
      destruct (startswith (String c (take k s)) p) eqn:E2; [|reflexivity].
      rewrite <- E. rewrite <- (take_drop k s).
      change (String c (take k s ++ drop k s)) with (String c (take k s) ++ drop k s).
      symmetry. apply startswith_app_l. exact E2.
Qed.

Lemma save_page_html_first_head (url html : string) :
  contains html crawler_meta_open = false -> contains html "<head>" = true ->
  exists a b, html = a ++ "<head>" ++ b /\ contains a "<head>" = false
    /\ _save_page_html url html = a ++ "<head>" ++ nl ++ inject_tag url ++ b.
Proof.
  intros Hm Hh. unfold _save_page_html. rewrite Hm, Hh. cbn [negb]. unfold replace_first.
  destruct (find_sub html "<head>") as [i|] eqn:Hf;
    [|exfalso; exact (find_sub_none _ _ Hh Hf)].
  exists (take i html), (drop (i + String.length "<head>") html).
  split; [exact (find_sub_split _ _ _ Hf)|].
  split; [exact (find_sub_first html "<head>" i eq_refl Hf)|].
  rewrite !str_app_assoc. reflexivity.
Qed.

End SaveHtmlFacts.

Module SaveHtmlExtras.
Import UrlLib Crawler Classifier CrawlReport StrFacts SaveHtmlFacts.

(** [_save_page_html] leaves the HTML untouched when it already carries a
    [crawler-original-url] meta tag or has no [<head>] / [<head ...] tag;
    otherwise it inserts a newline and the tag right after the first
    [<head>] (the text before it holds no [<head>]), or, failing that,
    either at the very start of the file or right after a [>]. *)
Theorem save_page_html_injection (url html : string) :
  (contains html crawler_meta_open = true
   \/ (contains html "<head>" = false /\ contains html "<head " = false)
   -> _save_page_html url html = html)
  /\ (contains html crawler_meta_open = false -> contains html "<head>" = true ->
      exists a b, html = a ++ "<head>" ++ b /\ contains a "<head>" = false
        /\ _save_page_html url html = a ++ "<head>" ++ nl ++ inject_tag url ++ b)
  /\ (contains html crawler_meta_open = false -> contains html "<head>" = false ->
      contains html "<head " = true ->
      exists a b, html = a ++ b /\ _save_page_html url html = a ++ nl ++ inject_tag url ++ b
        /\ (a = "" \/ exists a', a = a' ++ ">")).
Proof.
  split; [|split; [apply save_page_html_first_head|]];
  destruct (save_page_html_cases url html)
    as [(Hm & Hr) | [(Hm & H1 & H2 & Hr) | [(Hm & H1 & Hr) | (Hm & H1 & H2 & Hr)]]];
    rewrite Hm; intros; try congruence; try assumption; try tauto.
  - destruct H as [H|[H3 H4]]; congruence.
  - destruct H as [H|[H3 H4]]; congruence.
Qed.

Lemma save_page_html_injection_witness :
  _save_page_html "u" ("<html><head lang=x>" ++ "t")
  = "<html><head lang=x>" ++ nl ++ inject_tag "u" ++ "t"
  /\ exists a b, ("<p><head></p><head>t" = a ++ "<head>" ++ b /\ contains a "<head>" = false
     /\ _save_page_html "u" "<p><head></p><head>t" = a ++ "<head>" ++ nl ++ inject_tag "u" ++ b).
Proof.
  split; [vm_compute; reflexivity|].
  apply (proj1 (proj2 (save_page_html_injection "u" "<p><head></p><head>t")));
    vm_compute; reflexivity.
Defined.

(** Saving is idempotent: running [_save_page_html] on its own output,
    with any URL, changes nothing, since an injected file carries the
    marker tag. *)
Theorem save_page_html_idempotent (u v html : string) :
  _save_page_html v (_save_page_html u html) = _save_page_html u html.
Proof.
  destruct (save_page_html_cases u html)
    as [(Hm & Hr) | [(Hm & H1 & H2 & Hr) | [(Hm & H1 & a & b & _ & Hr)
                                           | (Hm & H1 & H2 & a & b & _ & Hr & _)]]];
    rewrite Hr.
  - unfold _save_page_html. rewrite Hm. reflexivity.
  - unfold _save_page_html. rewrite Hm, H1, H2. reflexivity.
  - unfold _save_page_html at 1.
    replace (a ++ "<head>" ++ nl ++ inject_tag u ++ b) with ((a ++ "<head>") ++ nl ++ inject_tag u ++ b)
      by (rewrite str_app_assoc; reflexivity).
    rewrite contains_injected. reflexivity.
  - unfold _save_page_html at 1. rewrite contains_injected. reflexivity.
Qed.

End SaveHtmlExtras.

(* ------------------------------------------------------------------ *)
(** ** Page records of the crawl *)

Module PageRecordFacts.
Import UrlLib Crawler CrawlerFacts CrawlLoopFacts.

Lemma step_pages (render : Render) (st st' : crawler) :
  crawl_step render st = Some st' ->
  domain st' = domain st
  /\ (pages_data st' = pages_data st
      \/ exists url r, render url = Some r /\ Z.leb 400 (resp_status r) = false
          /\ pages_data st' = (pages_data st ++
               [mkPageData url (resp_final_url r) (resp_status r)
                  (extract_links_js (domain st) (resp_final_url r) (resp_hrefs r))])%list).
Proof.
  intros Hs. unfold crawl_step in Hs.
  destruct (urls_to_visit st) as [|url rest]; [discriminate|].
  destruct (Nat.ltb (length (visited_urls st)) MAX_PAGES_PER_SITE); [|discriminate].
  cbn [set_queue visited_urls failed_urls] in Hs.
  destruct (mem url (visited_urls st) || mem url (failed_urls st)).
  { injection Hs as <-. split; [reflexivity | left; reflexivity]. }
  unfold crawl_page in Hs.
  cbn [set_queue base_url domain urls_to_visit visited_urls failed_urls pages_data fetch_log enqueue_log] in Hs.
  destruct (render url) as [r|] eqn:Er.
  - destruct (Z.leb 400 (resp_status r)) eqn:Hst.
    + injection Hs as <-. split; [reflexivity | left; reflexivity].
    + injection Hs as <-.
      match goal with |- context [enqueue_links ?s ?l] =>
        destruct (enqueue_links_fields s l) as (_ & -> & _ & _ & -> & _) end.
      split; [reflexivity|]. right. exists url, r. repeat split; assumption.
  - injection Hs as <-. split; [reflexivity | left; reflexivity].
Qed.

Lemma extract_links_js_nodup (dom final : string) (hrefs : list string) :
  NoDup (extract_links_js dom final hrefs).
Proof. apply set_of_list_NoDup. Qed.

Lemma extract_links_js_same_domain (dom final : string) (hrefs : list string) (u : string) :
  In u (extract_links_js dom final hrefs) -> is_same_domain u dom = true.
Proof.
  unfold extract_links_js. rewrite set_of_list_In, in_flat_map.
  intros [href [_ Hu]].
  destruct (is_empty href); [destruct Hu|].
  destruct (normalize_url href final) as [n|]; [|destruct Hu].
  destruct (is_same_domain n dom) eqn:E; [|destruct Hu].
  destruct Hu as [<-|[]]. exact E.
Qed.

End PageRecordFacts.

Module PageRecordExtras.
Import UrlLib Crawler CrawlerFacts LinkFacts CrawlLoopFacts PageRecordFacts.

(** Each page record of a crawl comes from a response the renderer gave
    for that URL with a status below 400; its links are duplicate-free,
    each on the domain of the base URL and each the normalization of one
    of the page's hrefs against its final URL. *)
Theorem crawl_page_records (render : Render) (base : string) (seeds : list string)
        (fuel : nat) (pd : page_data) :
  In pd (pages_data (crawl render base seeds fuel)) ->
  exists r, render (pd_url pd) = Some r
    /\ (resp_status r < 400)%Z
    /\ pd_status pd = resp_status r
    /\ pd_final_url pd = resp_final_url r
    /\ NoDup (pd_links pd)
    /\ forall l, In l (pd_links pd) ->
         is_same_domain l (extract_domain base) = true
         /\ exists href, In href (resp_hrefs r) /\ normalize_url href (resp_final_url r) = Some l.
Proof.
  set (P := fun st : crawler => domain st = extract_domain base /\
    forall pd, In pd (pages_data st) ->
      exists r, render (pd_url pd) = Some r /\ Z.leb 400 (resp_status r) = false
        /\ pd = mkPageData (pd_url pd) (resp_final_url r) (resp_status r)
                  (extract_links_js (domain st) (resp_final_url r) (resp_hrefs r))).
  assert (HP : P (crawl render base seeds fuel)).
  { unfold crawl. apply loop_preserves.
    - intros s s' [Hd Hpd] E. destruct (step_pages render s s' E) as [Hd' [Hsame | Hnew]].
      + split; [congruence|]. rewrite Hsame, Hd'. exact Hpd.
      + destruct Hnew as (url & r & Hr & Hst & Hp). split; [congruence|].
        intros pd0. rewrite Hp, Hd', in_app_iff. intros [H|[<-|[]]].
        * exact (Hpd pd0 H).
        * exists r. cbn [pd_url]. repeat split; assumption.
    - split; [reflexivity | intros pd0 H; destruct H]. }
  intros Hin. destruct HP as [Hd Hpd]. destruct (Hpd pd Hin) as (r & Hr & Hst & Heq).
  rewrite Hd in Heq. exists r.
  split; [exact Hr|]. split; [apply Z.leb_gt; exact Hst|].
  rewrite Heq. cbn [pd_status pd_final_url pd_links].
  split; [reflexivity|]. split; [reflexivity|]. split; [apply extract_links_js_nodup|].
  intros l Hl. split; [exact (extract_links_js_same_domain _ _ _ _ Hl)|].
  exact (extract_links_src _ _ _ _ Hl).
Qed.

Lemma crawl_page_records_witness :
  let render := fun u : string =>
    if String.eqb u "https://x.com" then Some (mkResponse 200 "https://x.com/" ["/about"]) else None in
  In (mkPageData "https://x.com" "https://x.com/" 200 ["https://x.com/about"])
     (pages_data (crawl render "https://x.com/" [] 1))
  /\ exists r, render "https://x.com" = Some r /\ (resp_status r < 400)%Z /\ 200%Z = resp_status r
    /\ "https://x.com/" = resp_final_url r /\ NoDup ["https://x.com/about"]
    /\ forall l, In l ["https://x.com/about"] ->
         is_same_domain l (extract_domain "https://x.com/") = true
         /\ exists href, In href (resp_hrefs r) /\ normalize_url href (resp_final_url r) = Some l.
Proof.
  intros render. split; [vm_compute; left; reflexivity|].
  apply (crawl_page_records render "https://x.com/" [] 1
           (mkPageData "https://x.com" "https://x.com/" 200 ["https://x.com/about"])).
  vm_compute. left. reflexivity.
Defined.

End PageRecordExtras.

(* ------------------------------------------------------------------ *)
(** ** Domain checks of [utils.is_same_domain] and [_is_same_site] *)

Module DomainFacts.
Import UrlLib Crawler StrFacts UrlShapes UrlFacts SaveHtmlFacts.

Lemma endswith_iff (s p : string) : endswith s p = true <-> exists a, s = a ++ p.
Proof.
  unfold endswith. rewrite startswith_iff. split.
  - intros [b Hb]. exists (rev_str b).
    rewrite <- (rev_str_involutive s), Hb, rev_str_app, rev_str_involutive. reflexivity.
  - intros [a ->]. exists (rev_str a). apply rev_str_app.
Qed.

Lemma endswith_contains (s p : string) : endswith s p = true -> contains s p = true.
Proof.
  rewrite endswith_iff, contains_iff. intros [a ->]. exists a, "". rewrite str_app_nil_r. reflexivity.
Qed.

Lemma contains_dot (s d : string) : contains s ("." ++ d) = true -> contains s d = true.
Proof.
  rewrite !contains_iff. intros (a & b & ->). exists (a ++ "."), b.
  rewrite (str_app_assoc a "." (d ++ b)). reflexivity.
Qed.

Lemma length_drop (n : nat) (s : string) : String.length (drop n s) = String.length s - n.
Proof.
  revert n. induction s as [|c s IH]; intros [|n]; simpl; try reflexivity. apply IH.
Qed.

Lemma replace_fuel_enough (old new : string) (f1 f2 : nat) (s : string) :
  0 < String.length old -> String.length s <= f1 -> String.length s <= f2 ->
  replace_fuel f1 old new s = replace_fuel f2 old new s.
Proof.
  intros Hold. revert f2 s. induction f1 as [|f1 IH]; intros f2 s H1 H2.
  - destruct s; [|simpl in H1; lia]. destruct f2; reflexivity.
  - destruct s as [|c s]; [destruct f2; reflexivity|].
    destruct f2 as [|f2]; [simpl in H2; lia|]. cbn [replace_fuel].
    destruct (startswith (String c s) old).
    + f_equal. apply IH; rewrite length_drop; cbn [String.length] in *; lia.
    + f_equal. apply IH; cbn [String.length] in *; lia.
Qed.

Lemma replace_fuel_step (f : nat) (old new : string) (c : ascii) (s : string) :
  replace_fuel (S f) old new (String c s) =
  if startswith (String c s) old
  then new ++ replace_fuel f old new (drop (String.length old) (String c s))
  else String c (replace_fuel f old new s).
Proof. reflexivity. Qed.

Lemma replace_www_prefix (x : string) : replace "www." "" ("www." ++ x) = replace "www." "" x.
Proof.
  unfold replace. rewrite str_length_app.
  change (String.length "www." + String.length x) with (S (3 + String.length x)).
  change ("www." ++ x) with (String "w" ("ww." ++ x)). rewrite replace_fuel_step.
  assert (Hs : startswith (String "w" ("ww." ++ x)) "www." = true)
    by (cbn; apply startswith_nil).
  rewrite Hs.
  change (drop (String.length "www.") (String "w" ("ww." ++ x))) with x.
  apply replace_fuel_enough; cbn [String.length]; lia.
Qed.

End DomainFacts.

Module DomainExtras.
Import UrlLib Utils Crawler StrFacts UrlShapes UrlFacts UrlCaseFacts UrlErrors DomainFacts.

(** [PageCrawler._is_same_site] accepts a URL exactly when its lower-cased
    host contains, anywhere, the base URL's host lower-cased with every
    [www.] removed, for any base URL whose parse does not raise (the
    [except] clause would return [False]): the [.endswith] test adds
    nothing, and a look-alike host such as [abf.com.evil.io] passes for the
    base [http://WWW.ABF.com/en]. *)
Theorem is_same_site_host_substring (netloc_rejected : string -> bool) (base sch h p q : string)
        (frag : option string) :
  urlsplit_raises netloc_rejected base = false ->
  mem (lower sch) ["http"; "https"] = true -> all_chars host_char h = true ->
  (is_empty p || startswith p "/") = true -> all_chars path_char p = true ->
  all_chars query_char q = true -> all_chars url_char (fragment_text frag) = true ->
  is_same_site base (assemble_url sch h p q frag)
  = contains (lower h) (replace "www." "" (lower (pr_netloc (urlparse base "")))).
Proof.
  intros _ Hm Hh Hp0 Hp Hq Hf. destruct (http_scheme_alpha _ Hm) as [Ha Hne].
  unfold is_same_site. rewrite urlparse_ci by assumption. cbn [pr_netloc].
  set (d := replace "www." "" (lower (pr_netloc (urlparse base "")))).
  destruct (contains (lower h) d) eqn:E; [reflexivity|].
  cbn [orb]. destruct (endswith (lower h) ("." ++ d)) eqn:E2; [|reflexivity].
  apply endswith_contains, contains_dot in E2. congruence.
Qed.

Lemma is_same_site_host_substring_witness :
  urlsplit_raises (fun _ => true) "http://WWW.ABF.com/en" = false
  /\ is_same_site "http://WWW.ABF.com/en"
       (assemble_url "HTTPS" "abf.com.evil.io" "/terminals" "" None) = true.
Proof.
  split; [vm_compute; reflexivity|].
  rewrite (is_same_site_host_substring (fun _ => true) "http://WWW.ABF.com/en" "HTTPS"
             "abf.com.evil.io" "/terminals" "" None) by (vm_compute; reflexivity).
  vm_compute. reflexivity.
Defined.

(** [utils.is_same_domain] ignores the case of the configured domain and a
    leading [www.] on it: the two spellings give the same answer for every
    URL. *)
Theorem is_same_domain_base_spelling (url d d' : string) :
  lower d' = lower d \/ lower d' = "www." ++ lower d ->
  is_same_domain url d' = is_same_domain url d.
Proof.
  intros [H|H]; unfold is_same_domain; rewrite H; [reflexivity|].
  rewrite replace_www_prefix. reflexivity.
Qed.

Lemma is_same_domain_base_spelling_witness :
  (lower "WWW.ABF.com" = lower "abf.com" \/ lower "WWW.ABF.com" = "www." ++ lower "abf.com")
  /\ is_same_domain "https://abf.com/x" "WWW.ABF.com" = is_same_domain "https://abf.com/x" "abf.com".
Proof.
  split; [right; reflexivity|].
  apply is_same_domain_base_spelling. right. reflexivity.
Defined.

End DomainExtras.

(* ------------------------------------------------------------------ *)
(** ** [utils.clean_text] *)

Module TextFacts.
Import TextUtils StrFacts UrlShapes.

Definition word (w : string) : Prop :=
  is_empty w = false /\ all_chars (fun c => negb (is_space c)) w = true.

Lemma split_ws_acc_words (s cur : string) :
  all_chars (fun c => negb (is_space c)) cur = true -> Forall word (split_ws_acc s cur).
Proof.
  revert cur. induction s as [|c s IH]; intros cur Hc; cbn [split_ws_acc].
  - destruct (is_empty cur) eqn:E; [constructor|]. repeat constructor; assumption.
  - destruct (is_space c) eqn:Hs.
    + destruct (is_empty cur) eqn:E; [apply IH; reflexivity|].
      constructor; [split; assumption | apply IH; reflexivity].
    + apply IH. rewrite UrlFacts.all_chars_app, Hc. cbn. rewrite Hs. reflexivity.
Qed.

Lemma split_ws_acc_app_word (w rest cur : string) :
  all_chars (fun c => negb (is_space c)) w = true ->
  split_ws_acc (w ++ rest) cur = split_ws_acc rest (cur ++ w).
Proof.
  revert cur. induction w as [|c w IH]; intros cur Hw.
  - rewrite str_app_nil_r. reflexivity.
  - cbn in Hw. apply andb_true_iff in Hw as [Hc Hw]. apply negb_true_iff in Hc.
    cbn [append split_ws_acc]. rewrite Hc, IH by exact Hw.
    rewrite str_app_assoc. reflexivity.
Qed.

Lemma split_ws_join (ws : list string) :
  Forall word ws -> split_ws (join " " ws) = ws.
Proof.
  unfold split_ws. induction ws as [|w ws IH]; intros Hws; [reflexivity|].
  inversion Hws as [|? ? [Hne Hw] Hrest]; subst.
  destruct ws as [|w' ws'].
  - cbn [join]. rewrite <- (str_app_nil_r w) at 1.
    rewrite split_ws_acc_app_word by exact Hw. cbn. rewrite Hne. reflexivity.
  - change (join " " (w :: w' :: ws')) with (w ++ " " ++ join " " (w' :: ws')).
    rewrite split_ws_acc_app_word by exact Hw. cbn [append split_ws_acc].
    change (is_space " ") with true. cbn [String.append]. rewrite Hne.
    rewrite IH by exact Hrest. reflexivity.
Qed.

Lemma join_nonempty (ws : list string) :
  Forall word ws -> ws <> [] -> is_empty (join " " ws) = false.
Proof.
  intros Hws Hne. destruct ws as [|w ws]; [congruence|].
  inversion Hws as [|? ? [Hw _] _]; subst.
  destruct w as [|c w]; [discriminate Hw|].
  destruct ws; reflexivity.
Qed.

Lemma clean_text_eq (s : string) : clean_text s = join " " (split_ws s).
Proof. destruct s; reflexivity. Qed.

End TextFacts.

Module TextExtras.
Import TextUtils StrFacts UrlShapes TextFacts.

(** [clean_text] returns the whitespace-separated words of its input --
    each non-empty and free of whitespace -- joined by single spaces, so the
    result has no leading, trailing or repeated whitespace; splitting the
    result gives back the same words, and cleaning twice changes nothing. *)
Theorem clean_text_normal_form (s : string) :
  (exists ws, clean_text s = join " " ws
     /\ Forall (fun w => is_empty w = false /\ all_chars (fun c => negb (is_space c)) w = true) ws)
  /\ split_ws (clean_text s) = split_ws s
  /\ clean_text (clean_text s) = clean_text s.
Proof.
  assert (Hw : Forall word (split_ws s)) by (apply split_ws_acc_words; reflexivity).
  rewrite !clean_text_eq, !split_ws_join by exact Hw.
  split; [exists (split_ws s); split; [reflexivity | exact Hw]|]. split; reflexivity.
Qed.

End TextExtras.

(* ------------------------------------------------------------------ *)
(** ** [URLDiscovery.extract_links_from_html] *)

Module DiscoveryFacts.
Import UrlLib Crawler CrawlerFacts Classifier UrlErrors Discovery.












End DiscoveryFacts.

Module DiscoveryExtras.
Import UrlLib Crawler CrawlerFacts Classifier UrlErrors Discovery DiscoveryFacts.




End DiscoveryExtras.

(* ------------------------------------------------------------------ *)
(** ** [LocationClassifier.classify_carrier] and its recommendation *)

Module CarrierFacts.
Import UrlLib Classifier ClassifierFacts ReportReader ReportFacts.

(** The loop body of [classify_carrier]. *)
Definition carrier_step (acc : nat * list (string * nat) * list PageClassification)
           (file : string * string * soup) : nat * list (string * nat) * list PageClassification :=
  let '(location_pages, modality_counts, all_classifications) := acc in
  let '(stem, html, doc) := file in
  let actual_url := _extract_url_from_html html doc in
  let actual_url := if is_empty actual_url then stem else actual_url in
  let classification := classify_html html doc actual_url stem in
  if is_location_page classification then
    (S location_pages,
     fold_left (fun m sg => if Z.ltb 0 (points sg) then incr_count (signal_type sg) m else m)
               (signals classification) modality_counts,
     (all_classifications ++ [classification])%list)
  else acc.

(** The classification of one saved page. *)
Definition classify_file (file : string * string * soup) : PageClassification :=
  let '(stem, html, doc) := file in
  let actual_url := _extract_url_from_html html doc in
  let actual_url := if is_empty actual_url then stem else actual_url in
  classify_html html doc actual_url stem.

Definition add_modalities (m : list (string * nat)) (c : PageClassification) : list (string * nat) :=
  fold_left (fun m sg => if Z.ltb 0 (points sg) then incr_count (signal_type sg) m else m)
            (signals c) m.

Lemma classify_carrier_fold name dir files :
  classify_carrier name dir files =
  let '(location_pages, modality_counts, all_classifications) :=
    fold_left carrier_step files (0, [], []) in
  mkReport name dir (length files) location_pages modality_counts
           (firstn 20 (sort_by_score all_classifications))
           (_generate_recommendation modality_counts).
Proof. reflexivity. Qed.

Lemma carrier_step_eq n m acc file :
  carrier_step (n, m, acc) file =
  if is_location_page (classify_file file)
  then (S n, add_modalities m (classify_file file), (acc ++ [classify_file file])%list)
  else (n, m, acc).
Proof. destruct file as [[stem html] doc]. reflexivity. Qed.

Lemma carrier_fold files : forall n m acc,
  fold_left carrier_step files (n, m, acc) =
  let accepted := filter is_location_page (map classify_file files) in
  (n + length accepted, fold_left add_modalities accepted m, (acc ++ accepted)%list).
Proof.
  induction files as [|f files IH]; intros n m acc; cbv zeta.
  - cbn. rewrite Nat.add_0_r, app_nil_r. reflexivity.
  - cbn [fold_left map filter]. rewrite carrier_step_eq.
    destruct (is_location_page (classify_file f)); rewrite IH; cbv zeta.
    + cbn [length fold_left]. rewrite <- app_assoc. f_equal. f_equal. lia.
    + reflexivity.
Qed.

(** [classify_carrier] in terms of the accepted classifications. *)
Lemma classify_carrier_eq name dir files :
  let accepted := filter is_location_page (map classify_file files) in
  classify_carrier name dir files =
  mkReport name dir (length files) (length accepted) (fold_left add_modalities accepted [])
           (firstn 20 (sort_by_score accepted))
           (_generate_recommendation (fold_left add_modalities accepted [])).
Proof. cbv zeta. rewrite classify_carrier_fold, carrier_fold. reflexivity. Qed.

(** The insertion sort of [sort_by_score]. *)
Lemma insert_perm p ps : Permutation (insert_by_score p ps) (p :: ps).
Proof.
  induction ps as [|q ps IH]; [reflexivity|]. cbn [insert_by_score].
  destruct (Z.ltb (total_score q) (total_score p)); [reflexivity|].
  eapply perm_trans; [apply perm_skip, IH|]. apply perm_swap.
Qed.

Lemma sort_perm_acc ps : forall acc,
  Permutation (fold_left (fun acc p => insert_by_score p acc) ps acc) (ps ++ acc).
Proof.
  induction ps as [|p ps IH]; intros acc; [reflexivity|]. cbn [fold_left app].
  eapply perm_trans; [apply IH|]. rewrite insert_perm.
  apply Permutation_sym, Permutation_middle.
Qed.

Lemma sort_perm ps : Permutation (sort_by_score ps) ps.
Proof. unfold sort_by_score. rewrite sort_perm_acc, app_nil_r. reflexivity. Qed.

Lemma sorted_below p ps :
  sorted_by_score (p :: ps) = true -> forall q, In q ps -> (total_score q <= total_score p)%Z.
Proof.
  revert p. induction ps as [|r ps IH]; intros p Hs q Hq; [destruct Hq|].
  cbn [sorted_by_score] in Hs. apply andb_true_iff in Hs as [Hr Hs]. apply Z.leb_le in Hr.
  destruct Hq as [<-|Hq]; [exact Hr|]. specialize (IH r Hs q Hq). lia.
Qed.

Definition score_is (z : Z) (p : PageClassification) : bool := Z.eqb (total_score p) z.

Lemma filter_none {A} (f : A -> bool) (l : list A) :
  (forall x, In x l -> f x = false) -> filter f l = [].
Proof.
  induction l as [|x l IH]; intros H; [reflexivity|]. cbn [filter].
  rewrite (H x (or_introl eq_refl)). apply IH. intros y Hy. apply H. right. exact Hy.
Qed.

Lemma filter_cons {A} (f : A -> bool) (x : A) (l : list A) :
  filter f (x :: l) = if f x then x :: filter f l else filter f l.
Proof. reflexivity. Qed.

Lemma filter_insert z p ps :
  sorted_by_score ps = true ->
  filter (score_is z) (insert_by_score p ps) = (filter (score_is z) ps ++ filter (score_is z) [p])%list.
Proof.
  induction ps as [|q ps IH]; intros Hs; [reflexivity|]. cbn [insert_by_score].
  destruct (Z.ltb (total_score q) (total_score p)) eqn:E.
  - apply Z.ltb_lt in E.
    assert (Hnone : filter (score_is z) (q :: ps) = [] \/ score_is z p = false).
    { destruct (score_is z p) eqn:Ep; [left|right; reflexivity].
      unfold score_is in Ep. apply Z.eqb_eq in Ep.
      apply filter_none. intros r Hr. unfold score_is. apply Z.eqb_neq.
      destruct Hr as [<-|Hr]; [lia|]. pose proof (sorted_below q ps Hs r Hr). lia. }
    rewrite (filter_cons (score_is z) p (q :: ps)). destruct Hnone as [Hn|Hn].
    + rewrite Hn. cbn [filter app]. destruct (score_is z p); reflexivity.
    + rewrite Hn. cbn [filter]. rewrite Hn, app_nil_r. reflexivity.
  - cbn [filter]. rewrite sorted_cons in Hs. apply andb_true_iff in Hs as [_ Hs].
    destruct (score_is z q); rewrite IH by exact Hs; reflexivity.
Qed.

Lemma sort_stable_acc z ps : forall acc,
  sorted_by_score acc = true ->
  filter (score_is z) (fold_left (fun acc p => insert_by_score p acc) ps acc)
  = (filter (score_is z) acc ++ filter (score_is z) ps)%list.
Proof.
  induction ps as [|p ps IH]; intros acc Hs; cbn [fold_left]; [rewrite app_nil_r; reflexivity|].
  rewrite IH by (apply sorted_insert; exact Hs). rewrite filter_insert by exact Hs.
  rewrite <- app_assoc. f_equal. rewrite (filter_cons _ p ps). cbn [filter].
  destruct (score_is z p); reflexivity.
Qed.

End CarrierFacts.

Module CarrierExtras.
Import UrlLib Classifier CrawlerFacts ClassifierFacts ReportReader ReportFacts CarrierFacts.

(** [sort_by_score] is the stable descending sort of
    [list.sort(key=total_score, reverse=True)]: it permutes its input,
    orders it by non-increasing score, and keeps pages of equal score in
    their original order. *)
Theorem sort_by_score_stable (ps : list PageClassification) :
  Permutation (sort_by_score ps) ps
  /\ sorted_by_score (sort_by_score ps) = true
  /\ forall z, filter (fun p => Z.eqb (total_score p) z) (sort_by_score ps)
               = filter (fun p => Z.eqb (total_score p) z) ps.
Proof.
  split; [apply sort_perm|]. split; [apply sorted_sort|].
  intros z. exact (sort_stable_acc z ps [] eq_refl).
Qed.

(** The report of [classify_carrier]: [total_pages] counts every saved
    page and [location_pages] the accepted ones; [top_pages] holds the
    [min(20, location_pages)] accepted pages of highest score, best first,
    each scoring at least 3, and every accepted page left out scores no more
    than each page kept. *)
Theorem classify_carrier_top_pages (name dir : string) (files : list (string * string * soup)) :
  let r := classify_carrier name dir files in
  let accepted := filter is_location_page (map classify_file files) in
  total_pages r = length files
  /\ location_pages r = length accepted
  /\ length (top_pages r) = Nat.min 20 (location_pages r)
  /\ sorted_by_score (top_pages r) = true
  /\ (forall p, In p (top_pages r) ->
        In p accepted /\ is_location_page p = true /\ (3 <= total_score p)%Z)
  /\ (forall p q, In p (skipn 20 (sort_by_score accepted)) -> In q (top_pages r) ->
        (total_score p <= total_score q)%Z)
  /\ Permutation (top_pages r ++ skipn 20 (sort_by_score accepted)) accepted.
Proof.
  cbv zeta. rewrite classify_carrier_eq. cbv zeta.
  cbn [total_pages location_pages top_pages].
  set (accepted := filter is_location_page (map classify_file files)).
  assert (Hacc : forall p, In p accepted -> is_location_page p = true /\ (3 <= total_score p)%Z).
  { intros p Hp. subst accepted. apply filter_In in Hp as [Hp Hl]. split; [exact Hl|].
    apply in_map_iff in Hp as ([[stem html] doc] & <- & _).
    revert Hl. cbn [classify_file]. apply accepted_total_ge3. }
  split; [reflexivity|]. split; [reflexivity|].
  split; [rewrite length_firstn, (Permutation_length (sort_perm accepted)); reflexivity|].
  split; [apply sorted_firstn, sorted_sort|].
  split.
  { intros p Hp. apply In_firstn in Hp.
    assert (Hin : In p accepted) by exact (Permutation_in _ (sort_perm accepted) Hp).
    split; [exact Hin | apply Hacc, Hin]. }
  split.
  { intros p q Hp Hq.
    pose proof (sorted_sort accepted) as Hs. rewrite <- (firstn_skipn 20 (sort_by_score accepted)) in Hs.
    revert Hs Hp Hq. generalize (skipn 20 (sort_by_score accepted)) as rest.
    generalize (firstn 20 (sort_by_score accepted)) as top.
    induction top as [|t top IH]; intros rest Hs Hp Hq; [destruct Hq|].
    destruct Hq as [<-|Hq].
    - apply (sorted_below t (top ++ rest) Hs p). apply in_or_app. right. exact Hp.
    - apply (IH rest); [|exact Hp|exact Hq].
      cbn [app] in Hs. rewrite sorted_cons in Hs. apply andb_true_iff in Hs as [_ Hs]. exact Hs. }
  rewrite firstn_skipn. apply sort_perm.
Qed.

End CarrierExtras.

(* ------------------------------------------------------------------ *)
(** ** Signal types the live classifier emits *)

Module SignalTypeFacts.
Import UrlLib Classifier ClassifierFacts CarrierFacts.

(** Neither of the two keys that only the unused detectors
    [_detect_google_maps] and [_detect_json_ld] produce. *)
Definition live (sg : LocationSignal) : bool :=
  negb (String.eqb (signal_type sg) "GOOGLE_MAPS_LINKS")
  && negb (String.eqb (signal_type sg) "JSON_LD_LOCATION").

Lemma addresses_live html doc sg :
  snd (_count_real_addresses html doc) = Some sg -> live sg = true.
Proof.
  unfold _count_real_addresses; cbv zeta.
  destruct (Nat.leb 5 _); [|destruct (Nat.leb 2 _)]; simpl; intros H;
    inversion H; subst; reflexivity.
Qed.

Lemma coordinates_live html sg :
  snd (_count_coordinates html) = Some sg -> live sg = true.
Proof.
  unfold _count_coordinates; cbv zeta.
  destruct (Nat.leb 3 _); [|destruct (Nat.leb 1 _)]; simpl; intros H;
    inversion H; subst; reflexivity.
Qed.

Lemma google_maps_strict_live html doc sg :
  _detect_google_maps_strict html doc = Some sg -> live sg = true.
Proof.
  unfold _detect_google_maps_strict; cbv zeta.
  destruct (find map_embed_src (doc_iframes doc)).
  all: repeat (cbv beta iota;
          match goal with
          | |- context [if ?b then _ else _] =>
              lazymatch b with context [if _ then _ else _] => fail | _ => destruct b end
          | |- context [match ?x with Some _ => _ | None => _ end] =>
              lazymatch x with context [if _ then _ else _] => fail | _ => destruct x end
          end); intros H; inversion H; subst; reflexivity.
Qed.

Lemma detect_forms_live forms sg : detect_forms forms = Some sg -> live sg = true.
Proof.
  induction forms as [|f rest IH]; simpl; [discriminate|].
  destruct (has_finder_language f && negb (is_quote_form f)).
  - intros H; inversion H; reflexivity.
  - destruct (has_radius f && negb (is_quote_form f)); [intros H; inversion H; reflexivity|exact IH].
Qed.

Lemma secondary_live html doc : Forall (fun sg => live sg = true) (secondary_signals html doc).
Proof.
  unfold secondary_signals.
  apply Forall_app; split; [|apply Forall_app; split; [|apply Forall_app; split]].
  - apply Forall_app_opt; [constructor|]. intros s.
    unfold _detect_json_ld_strict; cbv zeta.
    destruct (Nat.leb 4 _); intros H; inversion H; reflexivity.
  - apply Forall_forall. intros s Hs. unfold _detect_interactive_maps in Hs.
    apply in_flat_map in Hs. destruct Hs as [[lib_name sigs] [_ H]].
    destruct (String.eqb lib_name "google_maps"); [destruct H|].
    destruct (find _ sigs); [|destruct H].
    destruct H as [<- | []]. reflexivity.
  - apply Forall_forall. intros s. unfold _detect_location_iframes; cbv zeta.
    destruct (filter location_iframe (doc_iframes doc)); [intros []|].
    intros [<- | []]. reflexivity.
  - apply Forall_forall. intros s. unfold _detect_pdf_links.
    destruct (pdf_hrefs doc) as [[|h hs] [|r rs]]; simpl;
      intros H; repeat destruct H as [<- | H]; try reflexivity; destruct H.
Qed.

Lemma primary_live html doc url url_lower :
  Forall (fun sg => live sg = true) (fst (primary_signals html doc url url_lower)).
Proof.
  unfold primary_signals.
  destruct (_count_real_addresses html doc) as [ac asg] eqn:Ea.
  destruct (_count_coordinates html) as [cc csg] eqn:Ec.
  assert (HA : forall s, asg = Some s -> live s = true).
  { intros s Hs. apply (addresses_live html doc). rewrite Ea. exact Hs. }
  assert (HC : forall s, csg = Some s -> live s = true).
  { intros s Hs. apply (coordinates_live html). rewrite Ec. exact Hs. }
  destruct (_detect_google_maps_strict html doc) as [m|] eqn:Em;
  destruct (_detect_location_finder_form html doc) as [l|] eqn:El;
  destruct_ifs; cbn [fst];
  repeat first [ apply Forall_app; split | apply Forall_app_opt | apply Forall_cons
               | apply Forall_nil | assumption ];
  try reflexivity.
  all: first [ exact (google_maps_strict_live _ _ _ Em) | exact (detect_forms_live _ _ El) ].
Qed.

Lemma classify_live html doc url filename :
  Forall (fun sg => live sg = true) (signals (classify_html html doc url filename)).
Proof.
  pose proof (primary_live html doc url (lower (page_url url filename))) as Hp.
  pose proof (secondary_live html doc) as Hs.
  unfold classify_html; cbv zeta.
  destruct (_is_error_page _ _ _); [repeat constructor|].
  destruct (_is_non_english doc && negb _); [repeat constructor|].
  destruct (_is_excluded_page_type _ _); [repeat constructor|].
  destruct (primary_signals html doc url (lower (page_url url filename))) as [sigs has].
  cbn [fst] in Hp. destruct (negb has); cbn [signals].
  - destruct sigs; [repeat constructor | exact Hp].
  - apply Forall_app. split; assumption.
Qed.

(** Keys of the modality counts. *)
Lemma incr_count_keys k m : forall j, In j (map fst (incr_count k m)) -> In j (map fst m) \/ j = k.
Proof.
  induction m as [|[k' n] m IH]; intros j; cbn [incr_count].
  - intros [<-|[]]. right. reflexivity.
  - destruct (String.eqb k k'); cbn [map fst]; intros [Hj|H].
    + left. left. exact Hj.
    + left. right. exact H.
    + left. left. exact Hj.
    + destruct (IH j H) as [H'|H']; [left; right; exact H' | right; exact H'].
Qed.

Lemma add_modalities_keys c : forall m j,
  In j (map fst (add_modalities m c)) ->
  In j (map fst m) \/ exists sg, In sg (signals c) /\ signal_type sg = j.
Proof.
  unfold add_modalities. generalize (signals c) as sigs.
  induction sigs as [|sg sigs IH]; intros m j; cbn [fold_left]; [auto|].
  intros H. destruct (IH _ j H) as [H1|(s & Hs & Ht)]; [|right; exists s; split; [right|]; assumption].
  destruct (Z.ltb 0 (points sg)); [|left; exact H1].
  destruct (incr_count_keys _ _ _ H1) as [H2| ->]; [left; exact H2|].
  right. exists sg. split; [left|]; reflexivity.
Qed.

Lemma modality_keys_live (cs : list PageClassification) :
  (forall c, In c cs -> Forall (fun sg => live sg = true) (signals c)) ->
  forall m, (forall j, In j (map fst m) -> String.eqb j "GOOGLE_MAPS_LINKS" = false
                                         /\ String.eqb j "JSON_LD_LOCATION" = false) ->
  forall j, In j (map fst (fold_left add_modalities cs m)) ->
    String.eqb j "GOOGLE_MAPS_LINKS" = false /\ String.eqb j "JSON_LD_LOCATION" = false.
Proof.
  induction cs as [|c cs IH]; intros Hcs m Hm; cbn [fold_left]; [exact Hm|].
  apply IH; [intros c' Hc'; apply Hcs; right; exact Hc'|].
  intros j Hj. destruct (add_modalities_keys c m j Hj) as [H|(sg & Hsg & <-)]; [apply Hm, H|].
  pose proof (Hcs c (or_introl eq_refl)) as Hl. rewrite Forall_forall in Hl.
  specialize (Hl sg Hsg). unfold live in Hl. apply andb_true_iff in Hl as [H1 H2].
  apply negb_true_iff in H1, H2. split; assumption.
Qed.

Lemma count_of_absent k m : (forall j, In j (map fst m) -> String.eqb j k = false) -> count_of k m = 0.
Proof.
  intros H. unfold count_of.
  destruct (find (fun p => String.eqb (fst p) k) m) as [[j n]|] eqn:E; [|reflexivity].
  apply find_some in E as [Hin Heq]. cbn [fst] in Heq.
  rewrite (H j) in Heq; [discriminate|]. apply in_map_iff. exists (j, n). split; [reflexivity|exact Hin].
Qed.

Lemma recommendation_without_dead_keys m :
  count_of "GOOGLE_MAPS_LINKS" m = 0 -> count_of "JSON_LD_LOCATION" m = 0 ->
  contains (_generate_recommendation m) "Parse Google Maps URLs" = false
  /\ contains (_generate_recommendation m) "Parse JSON-LD structured data" = false.
Proof.
  intros H1 H2. unfold _generate_recommendation.
  destruct m as [|p m']; [split; vm_compute; reflexivity|].
  cbv zeta. rewrite H1, H2. cbn [Nat.ltb Nat.leb].
  repeat match goal with |- context [if ?b then _ else _] =>
    lazymatch type of b with
    | bool => lazymatch b with
              | true => fail
              | false => fail
              | _ => destruct b
              end
    end
  end; split; vm_compute; reflexivity.
Qed.

End SignalTypeFacts.

Module ClassifierExtras.
Import UrlLib Classifier ClassifierInputs ClassifierFacts CarrierFacts SignalTypeFacts.

(** [classify_html] rejects every page whose HTML is shorter than 2000
    characters as an error page, whatever it contains: score 0, not a
    location page, and the single [DISQUALIFIED] signal [Error/404 page]. *)
Theorem classify_html_short_page_rejected (html : string) (doc : soup) (url filename : string) :
  String.length html < 2000 ->
  classify_html html doc url filename
  = mkPage (page_url url filename) (page_title doc)
           [disqualified "Error/404 page" (take 50 (page_title doc))] 0 false "".
Proof.
  intros H. unfold classify_html; cbv zeta.
  assert (E : _is_error_page html doc (page_title doc) = true).
  { unfold _is_error_page; cbv zeta.
    destruct (existsb _ _); [reflexivity|]. destruct (_ || _); [reflexivity|].
    apply Nat.ltb_lt in H. rewrite H. reflexivity. }
  rewrite E. reflexivity.
Qed.

Lemma classify_html_short_page_rejected_witness :
  String.length "<h1>Our terminals</h1>" < 2000
  /\ classify_html "<h1>Our terminals</h1>" (text_page_doc "Our terminals") "https://x.com/locations" ""
     = mkPage (page_url "https://x.com/locations" "") (page_title (text_page_doc "Our terminals"))
              [disqualified "Error/404 page" (take 50 (page_title (text_page_doc "Our terminals")))] 0 false "".
Proof.
  split; [vm_compute; lia|].
  apply classify_html_short_page_rejected. vm_compute. lia.
Defined.

(** The recommendation of [classify_carrier] never suggests parsing Google
    Maps URLs or JSON-LD data: [_generate_recommendation] tests the keys
    [GOOGLE_MAPS_LINKS] and [JSON_LD_LOCATION], which only the detectors
    [_detect_google_maps] and [_detect_json_ld] produce, and
    [classify_html] calls neither. *)
Theorem recommendation_dead_branches (name dir : string) (files : list (string * string * soup)) :
  let rec := recommended_approach (classify_carrier name dir files) in
  contains rec "Parse Google Maps URLs" = false
  /\ contains rec "Parse JSON-LD structured data" = false.
Proof.
  cbv zeta. rewrite classify_carrier_eq. cbv zeta. cbn [recommended_approach].
  set (cs := filter is_location_page (map classify_file files)).
  assert (Hk := modality_keys_live cs).
  assert (Hl : forall c, In c cs -> Forall (fun sg => live sg = true) (signals c)).
  { intros c Hc. subst cs. apply filter_In in Hc as [Hc _].
    apply in_map_iff in Hc as ([[stem html] doc] & <- & _). apply classify_live. }
  specialize (Hk Hl [] (fun j H => match H with end)).
  apply recommendation_without_dead_keys; apply count_of_absent; intros j Hj; apply Hk, Hj.
Qed.

End ClassifierExtras.
